(** * linux-apfs: the b-tree engine of fs/apfs/btree.c

    A shallow embedding of [apfs_btree_query], [apfs_omap_lookup_block],
    [apfs_btree_insert] and [apfs_btree_remove], together with the
    properties of the engine that the specification states.

    A block is a list of bytes, addressed by C offsets ([Z]).  C integers
    are [Z] values with their wrap-around written out ([u16], [u32], [u64],
    [s32]).  The in-memory structures ([apfs_node], [apfs_query]) are
    records; a function that mutates the structure it is handed returns the
    new structure next to its return code. *)

From stdpp Require Import base numbers list.
From Stdlib Require Import ZArith Lia.

Local Open Scope Z_scope.

(** ** Machine integers *)

Definition u16 (x : Z) : Z := x mod 2 ^ 16.
Definition u32 (x : Z) : Z := x mod 2 ^ 32.
Definition u64 (x : Z) : Z := x mod 2 ^ 64.

(** A C [int]: two's complement on 32 bits. *)
Definition s32 (x : Z) : Z := (x + 2 ^ 31) mod 2 ^ 32 - 2 ^ 31.

(** ** Blocks of bytes *)

Module Mem.

(** [byte_at b i] is [b[i]]; a read outside of the block yields 0. *)
Definition byte_at (b : list Z) (i : Z) : Z :=
  if decide (0 <= i) then default 0 (b !! Z.to_nat i) else 0.

(** The [n] bytes of [b] that start at offset [off]. *)
Definition load (b : list Z) (off n : Z) : list Z :=
  (fun k : nat => byte_at b (off + Z.of_nat k)) <$> seq 0 (Z.to_nat n).

(** Overwrite the bytes of [b] from offset [off] on with [bs].  A write
    that would land outside of the block is dropped: the C code would
    corrupt foreign memory there, which is outside of what is modelled. *)
Definition store (b : list Z) (off : Z) (bs : list Z) : list Z :=
  if decide (0 <= off) then list_inserts (Z.to_nat off) bs b else b.

(** [memcpy(b + dst, src, n)] for a source buffer that is not the block. *)
Definition memcpy (b : list Z) (dst : Z) (src : list Z) (n : Z) : list Z :=
  store b dst (load src 0 n).

(** [memmove(b + dst, b + src, n)] inside of one block. *)
Definition memmove (b : list Z) (dst src n : Z) : list Z :=
  store b dst (load b src n).

(** Little-endian integers. *)
Fixpoint le_combine (l : list Z) : Z :=
  match l with
  | [] => 0
  | x :: t => x + 256 * le_combine t
  end.

Fixpoint le_split (n : nat) (v : Z) : list Z :=
  match n with
  | O => []
  | S n => v mod 256 :: le_split n (v / 256)
  end.

Definition get_le (n : nat) (b : list Z) (off : Z) : Z :=
  le_combine (load b off (Z.of_nat n)).

Definition put_le (n : nat) (b : list Z) (off v : Z) : list Z :=
  store b off (le_split n v).

(** [le16_add_cpu(p, val)]: the kernel helper takes [val] as a [u16] and
    stores the 16-bit sum. *)
Definition le16_add_cpu (b : list Z) (off val : Z) : list Z :=
  put_le 2 b off (u16 (get_le 2 b off + u16 val)).

(** [le64_add_cpu(p, val)], with [val] a [u64]. *)
Definition le64_add_cpu (b : list Z) (off val : Z) : list Z :=
  put_le 8 b off (u64 (get_le 8 b off + u64 val)).

End Mem.

(** ** Error numbers (the kernel's [errno] values) *)

Definition EIO : Z := 5.
Definition EAGAIN : Z := 11.
Definition ENOMEM : Z := 12.
Definition ENOSPC : Z := 28.
Definition ENODATA : Z := 61.
Definition EFSCORRUPTED : Z := 117. (* EUCLEAN *)

(** ** On-disk layout

    Modelled from the spec: [struct apfs_btree_node_phys],
    [struct apfs_btree_info], [struct apfs_kvoff], [struct apfs_kvloc] and
    [APFS_BTOFF_INVALID] are declared in headers that are not among the
    sources; the offsets below are those of the specification's on-disk
    layout (a 32-byte object header, the node header, [btn_data] at 56; the
    40-byte tree info at the end of a root block). *)

Module Layout.
Definition o_cksum : Z := 0.
Definition o_oid : Z := 8.
Definition o_xid : Z := 16.
Definition btn_flags : Z := 32.
Definition btn_level : Z := 34.
Definition btn_nkeys : Z := 36.
Definition btn_table_space_off : Z := 40.
Definition btn_table_space_len : Z := 42.
Definition btn_free_space_off : Z := 44.
Definition btn_free_space_len : Z := 46.
Definition btn_key_free_list_off : Z := 48.
Definition btn_key_free_list_len : Z := 50.
Definition btn_val_free_list_off : Z := 52.
Definition btn_val_free_list_len : Z := 54.
Definition btn_data : Z := 56.
(** [sizeof(struct apfs_btree_node_phys)] *)
Definition sizeof_node_phys : Z := 56.
(** [sizeof(struct apfs_btree_info)] and the offsets of its fields *)
Definition sizeof_info : Z := 40.
Definition bt_longest_key : Z := 16.
Definition bt_longest_val : Z := 20.
Definition bt_key_count : Z := 24.
Definition bt_node_count : Z := 32.
(** [struct apfs_kvoff { __le16 k; __le16 v; }] *)
Definition sizeof_kvoff : Z := 4.
(** [struct apfs_kvloc { struct apfs_nloc k; struct apfs_nloc v; }] *)
Definition sizeof_kvloc : Z := 8.
Definition APFS_BTOFF_INVALID : Z := 65535.
(** [struct apfs_omap_key { __le64 ok_oid; __le64 ok_xid; }] (key.h) *)
Definition ok_oid : Z := 0.
Definition ok_xid : Z := 8.
End Layout.

(** ** In-memory structures *)

(** [struct apfs_node], with the [apfs_object] that holds it and the
    buffer head of its block flattened into one record. *)
Record apfs_node := mkNode {
  n_flags : Z;       (* u16 flags *)
  n_records : Z;     (* u32 records *)
  n_key : Z;         (* int key: offset of the key area *)
  n_free : Z;        (* int free: offset of the free area *)
  n_data : Z;        (* int data: offset of the value area *)
  o_oid : Z;         (* object.oid *)
  o_block_nr : Z;    (* object.block_nr *)
  b_data : list Z;   (* object.bh->b_data *)
  b_dirty : bool;    (* mark_buffer_dirty *)
  b_csum : bool      (* set_buffer_csum *)
}.

Definition set_raw (n : apfs_node) (raw : list Z) : apfs_node :=
  mkNode (n_flags n) (n_records n) (n_key n) (n_free n) (n_data n)
         (o_oid n) (o_block_nr n) raw (b_dirty n) (b_csum n).
Definition set_records (n : apfs_node) (r : Z) : apfs_node :=
  mkNode (n_flags n) r (n_key n) (n_free n) (n_data n)
         (o_oid n) (o_block_nr n) (b_data n) (b_dirty n) (b_csum n).
Definition set_key (n : apfs_node) (k : Z) : apfs_node :=
  mkNode (n_flags n) (n_records n) k (n_free n) (n_data n)
         (o_oid n) (o_block_nr n) (b_data n) (b_dirty n) (b_csum n).
Definition set_free (n : apfs_node) (f : Z) : apfs_node :=
  mkNode (n_flags n) (n_records n) (n_key n) f (n_data n)
         (o_oid n) (o_block_nr n) (b_data n) (b_dirty n) (b_csum n).
Definition set_data (n : apfs_node) (d : Z) : apfs_node :=
  mkNode (n_flags n) (n_records n) (n_key n) (n_free n) d
         (o_oid n) (o_block_nr n) (b_data n) (b_dirty n) (b_csum n).
Definition mark_buffer_dirty (n : apfs_node) : apfs_node :=
  mkNode (n_flags n) (n_records n) (n_key n) (n_free n) (n_data n)
         (o_oid n) (o_block_nr n) (b_data n) true (b_csum n).
Definition set_buffer_csum (n : apfs_node) : apfs_node :=
  mkNode (n_flags n) (n_records n) (n_key n) (n_free n) (n_data n)
         (o_oid n) (o_block_nr n) (b_data n) (b_dirty n) true.

(** [struct super_block] with its [apfs_sb_info]: the fields the engine
    reads. *)
Record super_block := mkSb {
  s_blocksize : Z;           (* unsigned long *)
  s_xid : Z;                 (* u64: latest transaction id *)
  s_omap_root : apfs_node    (* root of the object map tree *)
}.

(** [struct apfs_key] (key.h).  The name is a pointer to on-disk bytes. *)
Record apfs_key := mkKey {
  k_id : Z;                   (* u64 *)
  k_number : Z;               (* u64 *)
  k_name : option (list Z);   (* const char *, NULL when absent *)
  k_type : Z                  (* u8 *)
}.

(** The flags of a query.

    Modelled from the spec: the [APFS_QUERY_*] masks are declared in a
    header that is not among the sources.  The specification lists the
    flags of a query as omap mode, multi-record mode, done and next; each
    is a field here, [flags |= APFS_QUERY_OMAP] sets [f_omap], and
    [flags & ~(APFS_QUERY_DONE | APFS_QUERY_NEXT)] clears the last two. *)
Record query_flags := mkFlags {
  f_omap : bool;       (* APFS_QUERY_OMAP *)
  f_multiple : bool;   (* APFS_QUERY_MULTIPLE *)
  f_done : bool;       (* APFS_QUERY_DONE *)
  f_next : bool        (* APFS_QUERY_NEXT *)
}.

Definition no_flags : query_flags := mkFlags false false false false.

(** [struct apfs_query].  The parent pointer makes queries a chain. *)
#[local] Unset Elimination Schemes.
Inductive apfs_query := mkQuery {
  q_node : apfs_node;
  q_key : option apfs_key;
  q_parent : option apfs_query;
  q_flags : query_flags;
  q_index : Z;       (* int *)
  q_key_off : Z;     (* int *)
  q_key_len : Z;     (* int *)
  q_off : Z;         (* int *)
  q_len : Z;         (* int *)
  q_depth : Z        (* int *)
}.
#[local] Set Elimination Schemes.

Definition set_q_node (q : apfs_query) (n : apfs_node) : apfs_query :=
  mkQuery n (q_key q) (q_parent q) (q_flags q) (q_index q) (q_key_off q)
          (q_key_len q) (q_off q) (q_len q) (q_depth q).
Definition set_q_index (q : apfs_query) (i : Z) : apfs_query :=
  mkQuery (q_node q) (q_key q) (q_parent q) (q_flags q) i (q_key_off q)
          (q_key_len q) (q_off q) (q_len q) (q_depth q).

(** ** Leaf mutation: [apfs_btree_insert] and [apfs_btree_remove] *)

Section Mutation.

(** The node flag [APFS_BTNODE_ROOT], [APFS_BTNODE_LEAF] and
    [APFS_BTNODE_FIXED_KV_SIZE] masks are declared in a header that is
    not among the sources: they are parameters here. *)
Variables APFS_BTNODE_ROOT APFS_BTNODE_LEAF APFS_BTNODE_FIXED_KV_SIZE : Z.

(** The Fletcher checksum of an object, computed by the object layer
    over the block after its checksum field. *)
Variable apfs_fletcher64 : list Z -> Z.

Definition apfs_node_is_root (node : apfs_node) : bool :=
  bool_decide (Z.land (n_flags node) APFS_BTNODE_ROOT <> 0).
Definition apfs_node_is_leaf (node : apfs_node) : bool :=
  bool_decide (Z.land (n_flags node) APFS_BTNODE_LEAF <> 0).
Definition apfs_node_has_fixed_kv_size (node : apfs_node) : bool :=
  bool_decide (Z.land (n_flags node) APFS_BTNODE_FIXED_KV_SIZE <> 0).

(** Modelled from the spec: [apfs_obj_set_csum] is not among the
    sources.  The mutations "refresh the object-header checksum": the
    call [apfs_obj_set_csum(sb, &node_raw->btn_o)] stores the checksum
    of the rest of the block in its first eight bytes. *)
Definition apfs_obj_set_csum (sb : super_block) (raw : list Z) : list Z :=
  Mem.put_le 8 raw Layout.o_cksum
    (u64 (apfs_fletcher64 (Mem.load raw 8 (s_blocksize sb - 8)))).

(** [toc_entry_size], chosen by the node's flags. *)
Definition toc_entry_size (node : apfs_node) : Z :=
  if apfs_node_has_fixed_kv_size node
  then Layout.sizeof_kvoff else Layout.sizeof_kvloc.

Definition BTREE_TOC_ENTRY_INCREMENT : Z := 8.
Definition BTREE_TOC_ENTRY_MAX_UNUSED : Z := 2 * BTREE_TOC_ENTRY_INCREMENT.

(** The test of "Expand the table of contents if necessary":
    [sizeof *node_raw + (node->records + 1) * toc_entry_size > node->key],
    an unsigned comparison ([size_t] against the converted [int]). *)
Definition toc_needs_expansion (node : apfs_node) : bool :=
  bool_decide
    (u64 (Layout.sizeof_node_phys
          + u32 (u32 (n_records node + 1) * u32 (toc_entry_size node)))
     > u64 (n_key node)).

(** The body of that [if]: [None] is the [return -ENOSPC] inside of it. *)
Definition expand_toc (node : apfs_node) (key_len val_len : Z)
  : option apfs_node :=
  let inc := s32 (BTREE_TOC_ENTRY_INCREMENT * toc_entry_size node) in
  let new_key_base := s32 (n_key node + inc) in
  let new_free_base := s32 (n_free node + inc) in
  if bool_decide (s32 (s32 (new_free_base + key_len) + val_len) > n_data node)
  then None
  else
    let raw := Mem.memmove (b_data node) new_key_base (n_key node)
                 (s32 (n_free node - n_key node)) in
    let raw := Mem.le16_add_cpu raw Layout.btn_table_space_len inc in
    let raw := Mem.le16_add_cpu raw Layout.btn_free_space_len (- inc) in
    Some (set_raw (set_free (set_key node new_key_base) new_free_base) raw).

(** "Insert the new entry in the table of contents", at slot [index]. *)
Definition insert_toc_entry (sb : super_block) (node : apfs_node)
    (index key_len : Z) (val : option (list Z)) (val_len : Z) : list Z :=
  let raw := b_data node in
  if apfs_node_has_fixed_kv_size node then
    let toc_entry := Layout.btn_data + index * Layout.sizeof_kvoff in
    let raw := Mem.memmove raw (toc_entry + Layout.sizeof_kvoff) toc_entry
                 (u32 (n_records node - index) * Layout.sizeof_kvoff) in
    let raw :=
      match val with
      | None => Mem.put_le 2 raw (toc_entry + 2) (u16 Layout.APFS_BTOFF_INVALID)
      | Some _ => Mem.put_le 2 raw (toc_entry + 2) (u16 val_len)
      end in
    Mem.put_le 2 raw toc_entry (u16 (s32 (n_free node - n_key node)))
  else
    let toc_entry := Layout.btn_data + index * Layout.sizeof_kvloc in
    let raw := Mem.memmove raw (toc_entry + Layout.sizeof_kvloc) toc_entry
                 (u32 (n_records node - index) * Layout.sizeof_kvloc) in
    let raw := Mem.put_le 2 raw (toc_entry + 4)
                 (u16 (u64 (s_blocksize sb - n_data node
                            - Layout.sizeof_info + val_len))) in
    let raw := Mem.put_le 2 raw (toc_entry + 6) (u16 val_len) in
    let raw := Mem.put_le 2 raw toc_entry
                 (u16 (s32 (n_free node - n_key node))) in
    Mem.put_le 2 raw (toc_entry + 2) (u16 key_len).

(** "Write the record key to the end of the key area". *)
Definition write_key (node : apfs_node) (key : list Z) (key_len : Z)
  : apfs_node :=
  let raw := Mem.memcpy (b_data node) (n_free node) key key_len in
  let raw := Mem.le16_add_cpu raw Layout.btn_free_space_off key_len in
  let raw := Mem.le16_add_cpu raw Layout.btn_free_space_len (- key_len) in
  set_raw (set_free node (s32 (n_free node + key_len))) raw.

(** "Write the record value to the beginning of the value area". *)
Definition write_val (node : apfs_node) (val : option (list Z)) (val_len : Z)
  : apfs_node :=
  match val with
  | None => node
  | Some v =>
      let raw := Mem.memcpy (b_data node) (s32 (n_data node - val_len))
                   v val_len in
      let raw := Mem.le16_add_cpu raw Layout.btn_free_space_len (- val_len) in
      set_raw (set_data node (s32 (n_data node - val_len))) raw
  end.

(** The counters of the tree info and of the node header. *)
Definition update_info (sb : super_block) (node : apfs_node)
    (key_len val_len : Z) : apfs_node :=
  let info := s_blocksize sb - Layout.sizeof_info in
  let raw := Mem.le64_add_cpu (b_data node) (info + Layout.bt_key_count) 1 in
  let records := u32 (n_records node + 1) in
  let raw := Mem.put_le 4 raw Layout.btn_nkeys records in
  let raw :=
    if bool_decide (u32 key_len > Mem.get_le 4 raw (info + Layout.bt_longest_key))
    then Mem.put_le 4 raw (info + Layout.bt_longest_key) (u32 key_len)
    else raw in
  let raw :=
    if bool_decide (u32 val_len > Mem.get_le 4 raw (info + Layout.bt_longest_val))
    then Mem.put_le 4 raw (info + Layout.bt_longest_val) (u32 val_len)
    else raw in
  set_raw (set_records node records) raw.

(** The straight-line part of [apfs_btree_insert], from
    [query->index++] to [mark_buffer_dirty], on the node as the checks
    (and the expansion of the table of contents) have left it. *)
Definition insert_record (sb : super_block) (node : apfs_node) (index : Z)
    (key : list Z) (key_len : Z) (val : option (list Z)) (val_len : Z)
  : apfs_node :=
  let node := set_raw node
                (insert_toc_entry sb node index key_len val val_len) in
  let node := write_key node key key_len in
  let node := write_val node val val_len in
  let node := update_info sb node key_len val_len in
  let node := set_raw node (apfs_obj_set_csum sb (b_data node)) in
  mark_buffer_dirty node.

(** [apfs_btree_insert].  The two [ASSERT]s (the node is a root and a
    leaf, and belongs to the current transaction) only warn: they are
    preconditions of the theorems, not branches of the function.  The
    result is the return code and the query, whose node and index the
    function has updated in place. *)
Definition apfs_btree_insert (sb : super_block) (query : apfs_query)
    (key : list Z) (key_len : Z) (val : option (list Z)) (val_len : Z)
  : Z * apfs_query :=
  let node := q_node query in
  if bool_decide (s32 (s32 (n_free node + key_len) + val_len) > n_data node)
  then (- ENOSPC, query)
  else
    match (if toc_needs_expansion node
           then expand_toc node key_len val_len else Some node) with
    | None => (- ENOSPC, query)
    | Some node =>
        let index := s32 (q_index query + 1) in
        (0, set_q_node (set_q_index query index)
              (insert_record sb node index key key_len val val_len))
    end.

(** [apfs_btree_remove]. *)
Definition apfs_btree_remove (sb : super_block) (query : apfs_query)
  : Z * apfs_query :=
  let node := q_node query in
  let later_entries := s32 (u32 (u32 (n_records node - q_index query) - 1)) in
  let raw := b_data node in
  let raw :=
    if apfs_node_has_fixed_kv_size node then
      let toc_entry := Layout.btn_data + q_index query * Layout.sizeof_kvoff in
      Mem.memmove raw toc_entry (toc_entry + Layout.sizeof_kvoff)
        (u64 (later_entries * Layout.sizeof_kvoff))
    else
      let toc_entry := Layout.btn_data + q_index query * Layout.sizeof_kvloc in
      Mem.memmove raw toc_entry (toc_entry + Layout.sizeof_kvloc)
        (u64 (later_entries * Layout.sizeof_kvloc)) in
  let info := s_blocksize sb - Layout.sizeof_info in
  let raw := Mem.le64_add_cpu raw (info + Layout.bt_key_count) (-1) in
  let records := u32 (n_records node - 1) in
  let raw := Mem.put_le 4 raw Layout.btn_nkeys records in
  let raw := Mem.le16_add_cpu raw Layout.btn_key_free_list_len (q_key_len query) in
  let raw := Mem.le16_add_cpu raw Layout.btn_val_free_list_len (q_len query) in
  let raw := apfs_obj_set_csum sb raw in
  (0, set_q_node query (mark_buffer_dirty (set_raw (set_records node records) raw))).

(** The single-node trees that the mutations accept. *)
Definition root_and_leaf (node : apfs_node) : Prop :=
  apfs_node_is_root node = true /\ apfs_node_is_leaf node = true.

(** The layout invariant of a root node: the table of contents, the key
    area, the free area, the value area and the tree info follow each
    other inside of the block. *)
Record node_layout (sb : super_block) (node : apfs_node) : Prop := {
  nl_block : Z.of_nat (length (b_data node)) = s_blocksize sb;
  nl_bsize : s_blocksize sb <= 65536;
  nl_records : 0 <= n_records node;
  nl_toc : Layout.btn_data + n_records node * toc_entry_size node <= n_key node;
  nl_key : n_key node <= n_free node;
  nl_free : n_free node <= n_data node;
  nl_data : n_data node <= s_blocksize sb - Layout.sizeof_info
}.

(** Offset of slot [i] of the table of contents. *)
Definition toc_slot (node : apfs_node) (i : Z) : Z :=
  Layout.btn_data + i * toc_entry_size node.

(** What an insert expects of the node once the table of contents has
    room for one more entry. *)
Record insert_ready (sb : super_block) (node : apfs_node)
    (index key_len val_len : Z) : Prop := {
  ir_block : Z.of_nat (length (b_data node)) = s_blocksize sb;
  ir_bsize : s_blocksize sb <= 65536;
  ir_index : 0 <= index <= n_records node;
  ir_toc : Layout.btn_data + (n_records node + 1) * toc_entry_size node <= n_key node;
  ir_key : n_key node <= n_free node;
  ir_key_len : 0 <= key_len;
  ir_val_len : 0 <= val_len;
  ir_fit : n_free node + key_len + val_len <= n_data node;
  ir_data : n_data node <= s_blocksize sb - Layout.sizeof_info
}.

(** The number of bytes by which an insert moves the key area up. *)
Definition toc_growth (node : apfs_node) : Z :=
  if toc_needs_expansion node
  then BTREE_TOC_ENTRY_INCREMENT * toc_entry_size node else 0.

(** The value bytes that an insert writes: none for a ghost record. *)
Definition val_bytes (val : option (list Z)) (val_len : Z) : Z :=
  match val with None => 0 | Some _ => val_len end.

End Mutation.


(** ** The query engine: [apfs_btree_query] and [apfs_omap_lookup_block] *)

(** The messages that the engine logs. *)
Inductive log_entry :=
| alert_btree_corrupted              (* apfs_alert: "b-tree is corrupted" *)
| alert_bad_index_block (bno : Z)    (* apfs_alert: "bad index block: 0x%llx" *)
| alert_bad_omap_leaf (bno : Z)      (* apfs_alert: "bad object map leaf block: 0x%llx" *)
| debug_corrupt_btree.               (* apfs_debug: "corrupt b-tree" *)

(** What [apfs_node_query] leaves in the query it was handed: its return
    code, the position it found and the two flags it owns.  The node, the
    key, the parent, the depth and the other flags of the query are not
    its to change. *)
Record node_query_result := mkResult {
  r_code : Z;
  r_index : Z;
  r_key_off : Z;
  r_key_len : Z;
  r_off : Z;
  r_len : Z;
  r_done : bool;
  r_next : bool
}.

Definition set_position (q : apfs_query) (r : node_query_result) : apfs_query :=
  mkQuery (q_node q) (q_key q) (q_parent q)
          (mkFlags (f_omap (q_flags q)) (f_multiple (q_flags q)) (r_done r) (r_next r))
          (r_index r) (r_key_off r) (r_key_len r) (r_off r) (r_len r) (q_depth q).

(** [apfs_init_omap_key] (key.h). *)
Definition apfs_init_omap_key (oid xid : Z) : apfs_key :=
  mkKey oid xid None 0.

(** One pass through the body of the loop of [apfs_btree_query] ends in a
    [return] or in one of its two [goto next_node]: after the move back up
    to the parent query, or after the move down to a child node.  The move
    down in multi-record mode stores what [apfs_alloc_query] returns in
    [*query] without a test: when the allocation has failed, the next pass
    reads the depth of the query through the null pointer, and the
    function does not return ([Oops]). *)
Inductive outcome :=
| Done (ret : Z)
| Ascend
| Descend
| Oops.

Section Query.

(** The [APFS_BTNODE_LEAF] mask, as in the mutation code. *)
Variable APFS_BTNODE_LEAF : Z.

(** The collaborators of the engine that are not among the sources: the
    search inside of one node, the reader of a node, and the reader of an
    object block, which hands out a block of the current transaction
    when write access is asked for.  The readers give an error code
    ([inl], the [ERR_PTR]) or their result ([inr]). *)
Variable apfs_node_query : super_block -> apfs_query -> node_query_result.
Variable apfs_read_node : super_block -> Z -> Z + apfs_node.

(** [kmalloc(sizeof(struct apfs_query), GFP_KERNEL)], for the query of a
    node with a parent query: [None] is the null pointer of a failed
    allocation, and [Some mem] the memory handed out, read as a query
    whose fields hold whatever the memory held. *)
Variable kmalloc : apfs_node -> option apfs_query -> option apfs_query.

Variable apfs_read_object_block : super_block -> Z -> bool -> Z + Z.

(** [sizeof(struct apfs_omap_val)] and the offset of its [ov_paddr]
    field: the structure is declared in a header that is not among the
    sources. *)
Variables sizeof_omap_val ov_paddr : Z.

(** [apfs_child_from_query]: the error code or the child id. *)
Definition apfs_child_from_query (query : apfs_query) : Z + Z :=
  if bool_decide (q_len query <> 8)
  then inl (- EFSCORRUPTED)
  else inr (Mem.get_le 8 (b_data (q_node query)) (q_off query)).

(** Modelled from the spec: [apfs_bno_from_query] is not among the
    sources.  The value of an object map leaf record holds the physical
    address; a value of another length is a corruption. *)
Definition apfs_bno_from_query (query : apfs_query) : Z + Z :=
  if bool_decide (q_len query <> sizeof_omap_val)
  then inl (- EFSCORRUPTED)
  else inr (Mem.get_le 8 (b_data (q_node query)) (q_off query + ov_paddr)).

(** The assignments of [apfs_alloc_query] to the memory of a new query:
    the node, the key, the flags, the parent, the index and the depth;
    [key_off], [key_len], [off] and [len] are left as the memory has
    them. *)
Definition query_init (mem : apfs_query) (node : apfs_node)
    (parent : option apfs_query) : apfs_query :=
  mkQuery node
    (match parent with Some p => q_key p | None => None end)
    parent
    (match parent with
     | Some p => mkFlags (f_omap (q_flags p)) (f_multiple (q_flags p)) false false
     | None => no_flags
     end)
    (s32 (n_records node))
    (q_key_off mem) (q_key_len mem) (q_off mem) (q_len mem)
    (match parent with Some p => s32 (q_depth p + 1) | None => 0 end).

(** [apfs_alloc_query]: [None] is the [NULL] it returns when the
    allocation fails. *)
Definition apfs_alloc_query (node : apfs_node) (parent : option apfs_query)
  : option apfs_query :=
  match kmalloc node parent with
  | None => None
  | Some mem => Some (query_init mem node parent)
  end.

(** "Reuse the same query structure to search the child". *)
Definition descend_in_place (query : apfs_query) (node : apfs_node)
  : apfs_query :=
  mkQuery node (q_key query) (q_parent query) (q_flags query)
    (s32 (n_records node)) (q_key_off query) (q_key_len query)
    (q_off query) (q_len query) (s32 (q_depth query + 1)).

(** The body of the loop of [apfs_btree_query], from the label
    [next_node] to a [return] or to the next [goto next_node].  [lookup]
    is the call to [apfs_omap_lookup_block] for a child id; it yields
    [None] when the fuel of that call runs out.  With [Oops] comes the
    query that the function had before it lost it. *)
Definition btree_query_step
    (lookup : Z -> option ((Z + Z) * list log_entry))
    (sb : super_block) (query : apfs_query) (log : list log_entry)
  : option (outcome * apfs_query * list log_entry) :=
  if bool_decide (q_depth query >= 12)
  then Some (Done (- EFSCORRUPTED), query, log ++ [alert_btree_corrupted])
  else
    let r := apfs_node_query sb query in
    let query := set_position query r in
    if bool_decide (r_code r = - EAGAIN) then
      match q_parent query with
      | None => Some (Done (- ENODATA), query, log)
      | Some parent => Some (Ascend, parent, log)
      end
    else if bool_decide (r_code r <> 0) then Some (Done (r_code r), query, log)
    else if apfs_node_is_leaf APFS_BTNODE_LEAF (q_node query)
    then Some (Done 0, query, log)
    else
      match apfs_child_from_query query with
      | inl err =>
          Some (Done err, query,
                log ++ [alert_bad_index_block (o_block_nr (q_node query))])
      | inr child_id =>
          match (if f_omap (q_flags query)
                 then Some (inr child_id, [])
                 else lookup child_id) with
          | None => None
          | Some (inl err, l) => Some (Done err, query, log ++ l)
          | Some (inr child_blk, l) =>
              match apfs_read_node sb child_blk with
              | inl err => Some (Done err, query, log ++ l)
              | inr node =>
                  let log :=
                    log ++ l ++
                    (if bool_decide (o_oid node <> child_id)
                     then [debug_corrupt_btree] else []) in
                  if f_multiple (q_flags query)
                  then
                    match apfs_alloc_query node (Some query) with
                    | Some child => Some (Descend, child, log)
                    | None => Some (Oops, query, log)
                    end
                  else Some (Descend, descend_in_place query node, log)
              end
          end
      end.

(** The loop: at most [fuel] passes through its body.  There is no
    result when the fuel runs out, and none after [Oops]. *)
Fixpoint btree_query_loop
    (lookup : Z -> option ((Z + Z) * list log_entry))
    (fuel : nat) (sb : super_block) (query : apfs_query)
    (log : list log_entry)
  : option (Z * apfs_query * list log_entry) :=
  match fuel with
  | O => None
  | S fuel =>
      match btree_query_step lookup sb query log with
      | None => None
      | Some (Done ret, query, log) => Some (ret, query, log)
      | Some (Oops, _, _) => None
      | Some (_, query, log) => btree_query_loop lookup fuel sb query log
      end
  end.

(** The same loop, counting its moves down and its moves up. *)
Fixpoint btree_query_moves
    (lookup : Z -> option ((Z + Z) * list log_entry))
    (fuel : nat) (sb : super_block) (query : apfs_query)
    (log : list log_entry) (down up : nat)
  : option (nat * nat) :=
  match fuel with
  | O => None
  | S fuel =>
      match btree_query_step lookup sb query log with
      | None => None
      | Some (Done ret, query, log) => Some (down, up)
      | Some (Oops, _, _) => None
      | Some (Descend, query, log) =>
          btree_query_moves lookup fuel sb query log (S down) up
      | Some (Ascend, query, log) =>
          btree_query_moves lookup fuel sb query log down (S up)
      end
  end.

(** The query that [apfs_omap_lookup_block] sets up in the query that
    it has allocated: the key of the lookup and the object map flag. *)
Definition omap_query (sb : super_block) (query : apfs_query) (id : Z)
  : apfs_query :=
  mkQuery (q_node query) (Some (apfs_init_omap_key id (s_xid sb)))
    (q_parent query)
    (mkFlags true (f_multiple (q_flags query)) (f_done (q_flags query))
             (f_next (q_flags query)))
    (q_index query) (q_key_off query) (q_key_len query) (q_off query)
    (q_len query) (q_depth query).

(** The copy-on-write of [apfs_omap_lookup_block]: the leaf record that
    the query found is pointed at the new block.  What the two
    assertions before it check (the node is a root and a leaf, and
    belongs to the transaction in progress) is assumed by the theorem
    on the write path. *)
Definition omap_rewrite (sb : super_block) (query : apfs_query)
    (new_blocknr : Z) : apfs_node :=
  let node := q_node query in
  let raw := b_data node in
  let raw := Mem.put_le 8 raw (q_key_off query + Layout.ok_xid) (u64 (s_xid sb)) in
  let raw := Mem.put_le 8 raw (q_off query + ov_paddr) (u64 new_blocknr) in
  mark_buffer_dirty (set_buffer_csum (set_raw node raw)).

(** What [apfs_omap_lookup_block] does once its query has returned
    [ret]: the error code or the block number, the node that the query
    ended on (the node that the write path has changed), and the
    messages logged. *)
Definition omap_lookup_finish (sb : super_block) (write : bool)
    (ret : Z) (query : apfs_query) (log : list log_entry)
  : (Z + Z) * apfs_node * list log_entry :=
  if bool_decide (ret <> 0) then (inl ret, q_node query, log)
  else
    match apfs_bno_from_query query with
    | inl err =>
        (inl err, q_node query,
         log ++ [alert_bad_omap_leaf (o_block_nr (q_node query))])
    | inr block =>
        if write then
          match apfs_read_object_block sb block write with
          | inl err => (inl err, q_node query, log)
          | inr new_blocknr =>
              (inr (u64 new_blocknr), omap_rewrite sb query new_blocknr, log)
          end
        else (inr block, q_node query, log)
    end.

(** [apfs_omap_lookup_block].  Without a query the function returns
    [-ENOMEM] and has touched nothing.  The query that it runs is
    [apfs_btree_query] on the object map, whose own lookups, were it to
    make any, are calls of this function. *)
Fixpoint apfs_omap_lookup_block (fuel : nat) (sb : super_block)
    (tbl : apfs_node) (id : Z) (write : bool)
  : option ((Z + Z) * apfs_node * list log_entry) :=
  match fuel with
  | O => None
  | S fuel =>
      let lookup := fun child_id =>
        match apfs_omap_lookup_block fuel sb (s_omap_root sb) child_id false with
        | None => None
        | Some (res, _, l) => Some (res, l)
        end in
      match apfs_alloc_query tbl None with
      | None => Some (inl (- ENOMEM), tbl, [])
      | Some query =>
          match btree_query_loop lookup fuel sb (omap_query sb query id) [] with
          | None => None
          | Some (ret, query, log) =>
              Some (omap_lookup_finish sb write ret query log)
          end
      end
  end.

(** The lookup that [apfs_btree_query] makes for a child id: always from
    the root of the object map, without write access. *)
Definition omap_lookup_child (fuel : nat) (sb : super_block) (child_id : Z)
  : option ((Z + Z) * list log_entry) :=
  match apfs_omap_lookup_block fuel sb (s_omap_root sb) child_id false with
  | None => None
  | Some (res, _, l) => Some (res, l)
  end.

(** [apfs_btree_query]: the code returned, the query as the function
    leaves it in [*query], and the log. *)
Definition apfs_btree_query (fuel : nat) (sb : super_block)
    (query : apfs_query) (log : list log_entry)
  : option (Z * apfs_query * list log_entry) :=
  btree_query_loop (omap_lookup_child fuel sb) fuel sb query log.

(** The number of queries in a chain. *)
Fixpoint chain_length (q : apfs_query) : nat :=
  match q_parent q with
  | None => 1
  | Some p => S (chain_length p)
  end.

(** Every query of the chain is an object map query. *)
Fixpoint all_omap (q : apfs_query) : bool :=
  f_omap (q_flags q) &&
  match q_parent q with
  | None => true
  | Some p => all_omap p
  end.

(** Every query of the chain is in single-record mode. *)
Fixpoint all_single (q : apfs_query) : bool :=
  negb (f_multiple (q_flags q)) &&
  match q_parent q with
  | None => true
  | Some p => all_single p
  end.

(** How far the depth counter of a query is from the limit of the
    loop: the number of moves down that are left to a query of depth
    [d].  (A counter below the range of an [int] comes into the range
    with its first increment.) *)
Definition depth_left (d : Z) : nat :=
  if bool_decide (12 <= d) then O
  else if bool_decide (d < - 2 ^ 31) then Z.to_nat (2 ^ 32)
  else Z.to_nat (12 - d).

(** A family of lookups, one for each amount of fuel, that settles on
    an answer for each id once the fuel is large enough. *)
Definition settles (lk : nat -> Z -> option ((Z + Z) * list log_entry)) : Prop :=
  forall id, exists n v, forall F, (n <= F)%nat -> lk F id = Some v.

(** What the termination argument says of the loop run from [(q, log)]
    with a family [lk] of lookups: it comes to [(q', log')] in [k] passes;
    it returns; it moves back up to the parent of [q]. *)
Definition loop_reaches (lk : nat -> Z -> option ((Z + Z) * list log_entry))
    (sb : super_block) (n k : nat) (q : apfs_query) (log : list log_entry)
    (q' : apfs_query) (log' : list log_entry) : Prop :=
  forall F f, (n <= F)%nat ->
    btree_query_loop (lk F) (k + f) sb q log
    = btree_query_loop (lk F) f sb q' log'.

Definition loop_returns (lk : nat -> Z -> option ((Z + Z) * list log_entry))
    (sb : super_block) (q : apfs_query) (log : list log_entry) : Prop :=
  exists n res, forall F f, (n <= F)%nat -> (n <= f)%nat ->
    btree_query_loop (lk F) f sb q log = Some res.

Definition loop_ascends (lk : nat -> Z -> option ((Z + Z) * list log_entry))
    (sb : super_block) (q : apfs_query) (log : list log_entry) : Prop :=
  exists n k p log', q_parent q = Some p /\ loop_reaches lk sb n k q log p log'.

End Query.

(** ** The search inside of one node

    Modelled from the spec: [apfs_node_query], the locators of a record's
    key and value and the reader and comparator of keys are in files that
    are not among the sources.  What follows is the node query of the
    specification (sections 4.1 to 4.3) for the trees whose keys are object
    map keys: the record looked for is the greatest one whose key is at
    most the target, found from the entry index leftwards; a repeat call in
    multi-record mode steps to the next record to the left if its key
    still matches; a node that has no such record sends the search back to
    the parent, except that an empty root has nothing to find. *)

Module SpecNode.
Section SpecNode.

Variables APFS_BTNODE_ROOT APFS_BTNODE_LEAF APFS_BTNODE_FIXED_KV_SIZE : Z.
Variable sizeof_omap_val : Z.

(** [sizeof(struct apfs_omap_key)] (key.h). *)
Definition sizeof_omap_key : Z := 16.

(** Value offsets count back from the tree info of a root, and from the
  end of the block elsewhere. *)
Definition value_base (sb : super_block) (node : apfs_node) : Z :=
if apfs_node_is_root APFS_BTNODE_ROOT node
then s_blocksize sb - Layout.sizeof_info else s_blocksize sb.

(** Offset and length of the key of record [i]. *)
Definition locate_key (node : apfs_node) (i : Z) : Z * Z :=
let entry := toc_slot APFS_BTNODE_FIXED_KV_SIZE node i in
if apfs_node_has_fixed_kv_size APFS_BTNODE_FIXED_KV_SIZE node
then (n_key node + Mem.get_le 2 (b_data node) entry, sizeof_omap_key)
else (n_key node + Mem.get_le 2 (b_data node) entry,
      Mem.get_le 2 (b_data node) (entry + 2)).

(** Offset and length of the value of record [i]; a ghost record has
  the sentinel for its offset and no length. *)
Definition locate_data (sb : super_block) (node : apfs_node) (i : Z) : Z * Z :=
let entry := toc_slot APFS_BTNODE_FIXED_KV_SIZE node i in
if apfs_node_has_fixed_kv_size APFS_BTNODE_FIXED_KV_SIZE node then
  let v := Mem.get_le 2 (b_data node) (entry + 2) in
  if bool_decide (v = Layout.APFS_BTOFF_INVALID) then (v, 0)
  else (value_base sb node - v,
        if apfs_node_is_leaf APFS_BTNODE_LEAF node then sizeof_omap_val else 8)
else
  (value_base sb node - Mem.get_le 2 (b_data node) (entry + 4),
   Mem.get_le 2 (b_data node) (entry + 6)).

(** The key of an object map record. *)
Definition read_omap_key (raw : list Z) (off : Z) : apfs_key :=
mkKey (Mem.get_le 8 raw (off + Layout.ok_oid))
      (Mem.get_le 8 raw (off + Layout.ok_xid)) None 0.

(** The order of the keys: by id, then by type, then by number, so that
  of the mappings of one object the search picks the one with the
  greatest transaction id that is at most the target's.  Names are
  not compared: object map keys have none. *)
Definition apfs_keycmp (k1 k2 : apfs_key) : Z :=
if bool_decide (k_id k1 <> k_id k2)
then (if bool_decide (k_id k1 < k_id k2) then -1 else 1)
else if bool_decide (k_type k1 <> k_type k2)
then (if bool_decide (k_type k1 < k_type k2) then -1 else 1)
else if bool_decide (k_number k1 <> k_number k2)
then (if bool_decide (k_number k1 < k_number k2) then -1 else 1)
else 0.

Definition record_key (node : apfs_node) (i : Z) : apfs_key :=
read_omap_key (b_data node) (fst (locate_key node i)).

(** The greatest index below [n] whose key is at most [target]. *)
Fixpoint scan_le (node : apfs_node) (target : apfs_key) (n : nat) : option Z :=
match n with
| O => None
| S n' =>
    if bool_decide (apfs_keycmp (record_key node (Z.of_nat n')) target <= 0)
    then Some (Z.of_nat n')
    else scan_le node target n'
end.

Definition found (sb : super_block) (q : apfs_query) (i : Z)
: node_query_result :=
let node := q_node q in
mkResult 0 i (fst (locate_key node i)) (snd (locate_key node i))
  (fst (locate_data sb node i)) (snd (locate_data sb node i))
  (f_done (q_flags q)) (f_multiple (q_flags q)).

Definition failed (q : apfs_query) (code : Z) : node_query_result :=
mkResult code (q_index q) (q_key_off q) (q_key_len q) (q_off q) (q_len q)
  (f_done (q_flags q)) (f_next (q_flags q)).

Definition apfs_node_query (sb : super_block) (q : apfs_query)
: node_query_result :=
let node := q_node q in
match q_key q with
| None => failed q (- ENODATA)
| Some target =>
    if f_multiple (q_flags q) && f_next (q_flags q) then
      (* a repeat call: the next record to the left *)
      if bool_decide (q_index q <= 0) then failed q (- EAGAIN)
      else if bool_decide
                (apfs_keycmp (record_key node (q_index q - 1)) target = 0)
      then found sb q (q_index q - 1)
      else failed q (- ENODATA)
    else
      match scan_le node target (Z.to_nat (q_index q)) with
      | Some i => found sb q i
      | None =>
          if bool_decide (n_records node = 0)
             && apfs_node_is_root APFS_BTNODE_ROOT node
          then failed q (- ENODATA)
          else failed q (- EAGAIN)
      end
end.

(** A well-formed root-and-leaf object map: the node is laid out as a
  root, its entries are of fixed size, the keys of its records lie in
  the key area and apart from each other, and the values of the
  records that have one lie in the value area. *)
Record omap_leaf (sb : super_block) (node : apfs_node) : Prop := {
ol_root : apfs_node_is_root APFS_BTNODE_ROOT node = true;
ol_leaf : apfs_node_is_leaf APFS_BTNODE_LEAF node = true;
ol_fixed : apfs_node_has_fixed_kv_size APFS_BTNODE_FIXED_KV_SIZE node = true;
ol_layout : node_layout APFS_BTNODE_FIXED_KV_SIZE sb node;
ol_keys : forall j, 0 <= j < n_records node ->
  n_key node <= fst (locate_key node j) /\
  fst (locate_key node j) + sizeof_omap_key <= n_free node;
ol_vals : forall j, 0 <= j < n_records node ->
  snd (locate_data sb node j) <> 0 ->
  n_data node <= fst (locate_data sb node j) /\
  fst (locate_data sb node j) + sizeof_omap_val
    <= s_blocksize sb - Layout.sizeof_info;
ol_apart : forall j j', 0 <= j < n_records node ->
  0 <= j' < n_records node -> j <> j' ->
  fst (locate_key node j) + sizeof_omap_key <= fst (locate_key node j') \/
  fst (locate_key node j') + sizeof_omap_key <= fst (locate_key node j)
}.

End SpecNode.
End SpecNode.

(** ** The claims of the specification that the code does not bear out,
    stated as the specification words them *)

(** "Insert immediately before the slot returned by the query": the new
    slot would be at the index that the query returned, and the slot that
    the query had found would come right after it. *)
Definition inserted_before_found (FIXED : Z) (fletcher : list Z -> Z)
    (sb : super_block) (q : apfs_query) (key : list Z) (key_len : Z)
    (val : option (list Z)) (val_len : Z) : Prop :=
  let node := q_node q in
  let raw := b_data node in
  let raw' := b_data (q_node (snd (apfs_btree_insert FIXED fletcher sb q
                                     key key_len val val_len))) in
  let sz := toc_entry_size FIXED node in
  Mem.get_le 2 raw' (toc_slot FIXED node (q_index q)) = n_free node - n_key node /\
  Mem.load raw' (toc_slot FIXED node (q_index q + 1)) sz
  = Mem.load raw (toc_slot FIXED node (q_index q)) sz.

(** "If the current node is the root, fail with not-found; otherwise
    replace the current query with its parent and loop": the root is where
    the depth of the query is 0. *)
Definition backtrack_by_root (LEAF : Z)
    (node_query : super_block -> apfs_query -> node_query_result)
    (read_node : super_block -> Z -> Z + apfs_node)
    (kmalloc : apfs_node -> option apfs_query -> option apfs_query)
    (lookup : Z -> option ((Z + Z) * list log_entry))
    (fuel : nat) (sb : super_block) (q : apfs_query) (log : list log_entry)
  : Prop :=
  q_depth q < 12 ->
  r_code (node_query sb q) = - EAGAIN ->
  (q_depth q = 0 ->
   btree_query_loop LEAF node_query read_node kmalloc lookup (S fuel) sb q log
   = Some (- ENODATA, set_position q (node_query sb q), log)) /\
  (q_depth q <> 0 ->
   exists p, q_parent q = Some p /\
     btree_query_loop LEAF node_query read_node kmalloc lookup (S fuel) sb q log
     = btree_query_loop LEAF node_query read_node kmalloc lookup fuel sb p log).

(** "At most 12 descent steps plus at most the chain length ascent
    steps". *)
Definition moves_within_depth_limit (LEAF : Z)
    (node_query : super_block -> apfs_query -> node_query_result)
    (read_node : super_block -> Z -> Z + apfs_node)
    (kmalloc : apfs_node -> option apfs_query -> option apfs_query)
    (lookup : Z -> option ((Z + Z) * list log_entry))
    (sb : super_block) (q : apfs_query) (log : list log_entry) : Prop :=
  forall fuel down up,
    btree_query_moves LEAF node_query read_node kmalloc lookup fuel sb q log 0 0
    = Some (down, up) ->
    (down <= 12)%nat /\ (up <= chain_length q)%nat.

(** ** Example trees *)

Module Example.

(** The flag masks of the on-disk format, and a stand-in for the
    checksum of the object layer. *)
Definition ROOT : Z := 1.
Definition LEAF : Z := 2.
Definition FIXED : Z := 4.
Definition cksum (bytes : list Z) : Z := foldr Z.add 0 bytes.

(** The object map value of the on-disk format: flags, size, and the
    physical address at offset 8. *)
Definition sizeof_omap_val : Z := 16.
Definition ov_paddr : Z := 8.

Definition blocksize : Z := 4096.
Definition zeros : list Z := replicate (Z.to_nat blocksize) 0.

(** An empty root-and-leaf node with fixed-size entries, whose table of
    contents has room for [toc_len] bytes. *)
Definition empty_raw (toc_len : Z) : list Z :=
  let raw := Mem.put_le 2 zeros Layout.btn_flags (ROOT + LEAF + FIXED) in
  let raw := Mem.put_le 2 raw Layout.btn_table_space_len toc_len in
  Mem.put_le 2 raw Layout.btn_free_space_len
    (blocksize - Layout.sizeof_node_phys - Layout.sizeof_info - toc_len).

Definition empty_node (toc_len : Z) : apfs_node :=
  mkNode (ROOT + LEAF + FIXED) 0
    (Layout.sizeof_node_phys + toc_len) (Layout.sizeof_node_phys + toc_len)
    (blocksize - Layout.sizeof_info)
    1 1 (empty_raw toc_len) false false.

Definition sb : super_block := mkSb blocksize 1 (empty_node 0).

(** The position a query has found: a query on [node] at [index]. *)
Definition query_at (node : apfs_node) (index : Z) : apfs_query :=
  mkQuery node None None no_flags index 0 0 0 0 0.

Definition insert :=
  apfs_btree_insert FIXED cksum sb.
Definition remove := apfs_btree_remove FIXED cksum sb.

(** Append the record with key [k] and value [k + 100], 8 bytes each,
    after the last record of the node. *)
Definition append (q : apfs_query) (k : Z) : apfs_query :=
  snd (insert (set_q_index q (n_records (q_node q) - 1))
         (Mem.le_split 8 k) 8 (Some (Mem.le_split 8 (k + 100))) 8).

Definition appended (toc_len : Z) (keys : list Z) : apfs_query :=
  fold_left append keys (query_at (empty_node toc_len) (-1)).

(** The node after one insert, and a query that has found its record. *)
Definition one_record : apfs_query :=
  Eval vm_compute in set_q_index (appended 32 [1]) 0.

(** The node after eight inserts. *)
Definition eight_records : apfs_query :=
  Eval vm_compute in
    set_q_index (appended 32 [1; 2; 3; 4; 5; 6; 7; 8]) 7.
Definition eight_records_grown : apfs_query :=
  Eval vm_compute in
    set_q_index (appended 0 [1; 2; 3; 4; 5; 6; 7; 8]) 7.

(** A full node: the free area is empty. *)
Definition full_node : apfs_node :=
  mkNode (ROOT + LEAF + FIXED) 0 88 4056 4056 1 1 (empty_raw 32) false false.

(** *** A damaged index node

    A root that is not a leaf, with 13 records that all carry the key
    (oid 1, xid 1) and point to block 2; block 2 is an empty leaf. *)

Definition put_records (n : nat) (key_base value_base : Z)
    (key : list Z) (val : list Z) (raw : list Z) : list Z :=
  foldr
    (fun (i : nat) raw =>
       let i := Z.of_nat i in
       let klen := Z.of_nat (length key) in
       let vlen := Z.of_nat (length val) in
       let entry := Layout.btn_data + i * Layout.sizeof_kvoff in
       let raw := Mem.put_le 2 raw entry (i * klen) in
       let raw := Mem.put_le 2 raw (entry + 2) ((i + 1) * vlen) in
       let raw := Mem.store raw (key_base + i * klen) key in
       Mem.store raw (value_base - (i + 1) * vlen) val)
    raw (seq 0 n).

Definition omap_key_bytes (oid xid : Z) : list Z :=
  Mem.le_split 8 oid ++ Mem.le_split 8 xid.

Definition index_raw : list Z :=
  let raw := Mem.put_le 2 zeros Layout.btn_flags (ROOT + FIXED) in
  let raw := Mem.put_le 4 raw Layout.btn_nkeys 13 in
  let raw := Mem.put_le 2 raw Layout.btn_table_space_len 64 in
  put_records 13 120 (blocksize - Layout.sizeof_info)
    (omap_key_bytes 1 1) (Mem.le_split 8 2) raw.

Definition index_root : apfs_node :=
  Eval vm_compute in
    mkNode (ROOT + FIXED) 13 120 328 3952 1 1 index_raw false false.

Definition empty_leaf : apfs_node :=
  Eval vm_compute in
    mkNode (LEAF + FIXED) 0 56 56 blocksize 2 2
      (Mem.put_le 2 zeros Layout.btn_flags (LEAF + FIXED)) false false.

Definition read_node (_ : super_block) (bno : Z) : Z + apfs_node :=
  if bool_decide (bno = 2) then inr empty_leaf else inl (- EIO).

(** The object block reader gives out block 77 for every write. *)
Definition read_object_block (_ : super_block) (bno : Z) (write : bool)
  : Z + Z :=
  if write then inr 77 else inr bno.

Definition node_query :=
  SpecNode.apfs_node_query ROOT LEAF FIXED sizeof_omap_val.

(** An allocator that always has memory, zeroed; and one that has
    none. *)
Definition kmalloc (node : apfs_node) (_ : option apfs_query)
  : option apfs_query :=
  Some (mkQuery node None None no_flags 0 0 0 0 0 0).
Definition kmalloc_fails (_ : apfs_node) (_ : option apfs_query)
  : option apfs_query :=
  None.

Definition index_sb : super_block := mkSb blocksize 1 index_root.

Definition no_lookup (_ : Z) : option ((Z + Z) * list log_entry) :=
  Some (inl (- EIO), []).

(** A query for (oid 1, xid 1) from the root, in object map mode. *)
Definition index_query (multiple : bool) : apfs_query :=
  mkQuery index_root (Some (apfs_init_omap_key 1 1)) None
    (mkFlags true multiple false false) 13 0 0 0 0 0.

(** The query after its first move down, in single-record mode. *)
Definition child_query : apfs_query :=
  Eval vm_compute in
    descend_in_place
      (set_position (index_query false)
         (node_query index_sb (index_query false)))
      empty_leaf.

(** *** An object map with two mappings of object 7

    A root-and-leaf object map: (oid 7, xid 100) is at block 500 and
    (oid 7, xid 200) at block 600.  The transaction in progress is 300. *)

Definition omap_val_bytes (paddr : Z) : list Z :=
  Mem.le_split 4 0 ++ Mem.le_split 4 blocksize ++ Mem.le_split 8 paddr.

Definition omap_raw : list Z :=
  let raw := Mem.put_le 8 zeros Layout.o_xid 300 in
  let raw := Mem.put_le 2 raw Layout.btn_flags (ROOT + LEAF + FIXED) in
  let raw := Mem.put_le 4 raw Layout.btn_nkeys 2 in
  let raw := Mem.put_le 2 raw Layout.btn_table_space_len 32 in
  let raw := put_records 1 88 (blocksize - Layout.sizeof_info)
               (omap_key_bytes 7 100) (omap_val_bytes 500) raw in
  let raw := Mem.put_le 2 raw (Layout.btn_data + 4) 16 in
  let raw := Mem.put_le 2 raw (Layout.btn_data + 6) 32 in
  let raw := Mem.store raw (88 + 16) (omap_key_bytes 7 200) in
  Mem.store raw (blocksize - Layout.sizeof_info - 32) (omap_val_bytes 600).

Definition omap_root : apfs_node :=
  Eval vm_compute in
    mkNode (ROOT + LEAF + FIXED) 2 88 120 4024 9 9 omap_raw false false.

Definition omap_sb : super_block := mkSb blocksize 300 omap_root.

Definition omap_lookup :=
  apfs_omap_lookup_block LEAF node_query read_node kmalloc read_object_block
    sizeof_omap_val ov_paddr.

End Example.
(** ** The rest of btree.c and the helpers of the headers *)

Section OmapRead.

Variable APFS_BTNODE_LEAF : Z.
Variable apfs_node_query : super_block -> apfs_query -> node_query_result.
Variable apfs_read_node : super_block -> Z -> Z + apfs_node.
Variable kmalloc : apfs_node -> option apfs_query -> option apfs_query.
Variable apfs_read_object_block : super_block -> Z -> bool -> Z + Z.
Variables sizeof_omap_val ov_paddr : Z.

(** [apfs_omap_read_node]: the [ERR_PTR] or the node read, and the
    messages logged. *)
Definition apfs_omap_read_node (fuel : nat) (sb : super_block) (id : Z)
  : option ((Z + apfs_node) * list log_entry) :=
  match apfs_omap_lookup_block APFS_BTNODE_LEAF apfs_node_query
          apfs_read_node kmalloc apfs_read_object_block sizeof_omap_val
          ov_paddr
          fuel sb (s_omap_root sb) id false with
  | None => None
  | Some (inl err, _, log) => Some (inl err, log)
  | Some (inr block, _, log) =>
      match apfs_read_node sb block with
      | inl err => Some (inl err, log)
      | inr result =>
          Some (inr result,
                log ++ (if bool_decide (o_oid result <> id)
                        then [debug_corrupt_btree] else []))
      end
  end.

End OmapRead.

(** The space accounting of the node header against the offsets that the
    node keeps in memory, for a node whose table of contents starts right
    after the header: the fields that [apfs_btree_insert] moves together. *)
Record header_in_step (node : apfs_node) : Prop := {
  hs_table : Mem.get_le 2 (b_data node) Layout.btn_table_space_len
             = n_key node - Layout.sizeof_node_phys;
  hs_free_off : Mem.get_le 2 (b_data node) Layout.btn_free_space_off
                = n_free node - n_key node;
  hs_free_len : Mem.get_le 2 (b_data node) Layout.btn_free_space_len
                = n_data node - n_free node
}.

(** The checksum that [apfs_obj_set_csum] has stored is that of the block
    as it is. *)
Definition csum_in_step (fletcher : list Z -> Z) (sb : super_block)
    (raw : list Z) : Prop :=
  Mem.get_le 8 raw Layout.o_cksum
  = u64 (fletcher (Mem.load raw 8 (s_blocksize sb - 8))).

(** "Restores N, bt_key_count, and the toc byte range exactly", as the
    specification words the insert followed by the removal of the slot
    that it made: the table of contents is the range of the block from
    the end of the node header to the key base, and after the two calls
    it would be the range that it was, with the bytes that it had. *)
Definition toc_range_restored (FIXED : Z) (fletcher : list Z -> Z)
    (sb : super_block) (q : apfs_query) (key : list Z) (key_len : Z)
    (val : option (list Z)) (val_len : Z) : Prop :=
  let node := q_node q in
  let q1 := snd (apfs_btree_insert FIXED fletcher sb q key key_len val val_len) in
  let node2 := q_node (snd (apfs_btree_remove FIXED fletcher sb q1)) in
  let info := s_blocksize sb - Layout.sizeof_info in
  n_records node2 = n_records node /\
  Mem.get_le 8 (b_data node2) (info + Layout.bt_key_count)
    = Mem.get_le 8 (b_data node) (info + Layout.bt_key_count) /\
  n_key node2 = n_key node /\
  Mem.load (b_data node2) Layout.btn_data (n_key node - Layout.btn_data)
    = Mem.load (b_data node) Layout.btn_data (n_key node - Layout.btn_data).

(** "Marks the node dirty and recomputes its checksum", as the
    specification words the write path of the object map lookup: the
    node that a successful lookup with write access leaves would be dirty
    and hold the checksum of its block. *)
Definition omap_write_recomputes_csum (LEAF : Z)
    (node_query : super_block -> apfs_query -> node_query_result)
    (read_node : super_block -> Z -> Z + apfs_node)
    (kmalloc : apfs_node -> option apfs_query -> option apfs_query)
    (read_object_block : super_block -> Z -> bool -> Z + Z)
    (sizeof_omap_val ov_paddr : Z) (fletcher : list Z -> Z)
    (fuel : nat) (sb : super_block) (tbl : apfs_node) (id : Z) : Prop :=
  forall block tbl' log,
    apfs_omap_lookup_block LEAF node_query read_node kmalloc read_object_block
      sizeof_omap_val ov_paddr fuel sb tbl id true
    = Some (inr block, tbl', log) ->
    b_dirty tbl' = true /\ csum_in_step fletcher sb (b_data tbl').

(** *** The records of a node, as its table of contents gives them

    In a node with entries of variable size, [apfs_btree_insert] writes
    for a record the offset of its key from the start of the key area, the
    offset of its value counted back from the tree info of the root, and
    the two lengths.  Read the same way, the table of contents gives the
    list of the records of the node. *)

Section RecordView.

Variable APFS_BTNODE_FIXED_KV_SIZE : Z.

Definition entry_key_off (node : apfs_node) (j : Z) : Z :=
  Mem.get_le 2 (b_data node) (toc_slot APFS_BTNODE_FIXED_KV_SIZE node j).
Definition entry_key_len (node : apfs_node) (j : Z) : Z :=
  Mem.get_le 2 (b_data node) (toc_slot APFS_BTNODE_FIXED_KV_SIZE node j + 2).
Definition entry_val_off (node : apfs_node) (j : Z) : Z :=
  Mem.get_le 2 (b_data node) (toc_slot APFS_BTNODE_FIXED_KV_SIZE node j + 4).
Definition entry_val_len (node : apfs_node) (j : Z) : Z :=
  Mem.get_le 2 (b_data node) (toc_slot APFS_BTNODE_FIXED_KV_SIZE node j + 6).

(** The key bytes and the value bytes of record [j]. *)
Definition record_at (sb : super_block) (node : apfs_node) (j : Z)
  : list Z * list Z :=
  (Mem.load (b_data node) (n_key node + entry_key_off node j)
     (entry_key_len node j),
   Mem.load (b_data node)
     (s_blocksize sb - Layout.sizeof_info - entry_val_off node j)
     (entry_val_len node j)).

Definition records (sb : super_block) (node : apfs_node)
  : list (list Z * list Z) :=
  (fun j : nat => record_at sb node (Z.of_nat j))
    <$> seq 0 (Z.to_nat (n_records node)).

(** Every entry points into the key area and into the value area. *)
Record records_ok (sb : super_block) (node : apfs_node) : Prop := {
  ro_variable :
    apfs_node_has_fixed_kv_size APFS_BTNODE_FIXED_KV_SIZE node = false;
  ro_entries : forall j, 0 <= j < n_records node ->
    0 <= entry_key_off node j /\ 0 <= entry_key_len node j /\
    entry_key_off node j + entry_key_len node j <= n_free node - n_key node /\
    0 <= entry_val_len node j <= entry_val_off node j /\
    entry_val_off node j
      <= s_blocksize sb - Layout.sizeof_info - n_data node
}.

End RecordView.

(** In a node with entries of fixed size, an entry holds the offset of
    the key and one field for the value; the keys all have the length
    [klen] that the tree gives them.  [apfs_btree_insert] writes the length
    of the value into the value field, and [APFS_BTOFF_INVALID] for a
    ghost record. *)

Section FixedView.

Variable APFS_BTNODE_FIXED_KV_SIZE : Z.

Definition fixed_record_at (klen : Z) (node : apfs_node) (j : Z)
  : list Z * Z :=
  (Mem.load (b_data node)
     (n_key node + entry_key_off APFS_BTNODE_FIXED_KV_SIZE node j) klen,
   entry_key_len APFS_BTNODE_FIXED_KV_SIZE node j).

Definition fixed_records (klen : Z) (node : apfs_node) : list (list Z * Z) :=
  (fun j : nat => fixed_record_at klen node (Z.of_nat j))
    <$> seq 0 (Z.to_nat (n_records node)).

(** Every entry points at a key inside of the key area. *)
Record fixed_records_ok (klen : Z) (node : apfs_node) : Prop := {
  fo_fixed :
    apfs_node_has_fixed_kv_size APFS_BTNODE_FIXED_KV_SIZE node = true;
  fo_entries : forall j, 0 <= j < n_records node ->
    0 <= entry_key_off APFS_BTNODE_FIXED_KV_SIZE node j /\
    entry_key_off APFS_BTNODE_FIXED_KV_SIZE node j + klen
      <= n_free node - n_key node
}.

End FixedView.

(** *** What the query engine keeps *)

(** What [apfs_btree_query] keeps true of a chain of queries: every query
    of the chain has the key and the two mode flags of the search; a query
    has a parent only in multi-record mode, and is then one level below
    it, the query without a parent being at depth [d0]; no query is above
    depth [d0]. *)
Fixpoint query_chain (k : option apfs_key) (o m : bool) (d0 : Z)
    (q : apfs_query) : Prop :=
  q_key q = k /\ f_omap (q_flags q) = o /\ f_multiple (q_flags q) = m /\
  d0 <= q_depth q /\
  match q_parent q with
  | None => m = true -> q_depth q = d0
  | Some p => m = true /\ q_depth q = q_depth p + 1 /\ query_chain k o m d0 p
  end.

(** The messages that do not report an error. *)
Definition only_debug (l : list log_entry) : Prop :=
  Forall (fun e => e = debug_corrupt_btree) l.

(** A lookup for a child id that reports its failures by codes other than
    0, and logs no alert when it succeeds. *)
Definition tidy_lookup (lookup : Z -> option ((Z + Z) * list log_entry)) : Prop :=
  forall id res l, lookup id = Some (res, l) ->
    match res with
    | inl e => e <> 0
    | inr _ => only_debug l
    end.

(** *** super.h *)

Section Super.

(** [sizeof(struct apfs_obj_phys)]: the object header is declared in a
    header that is not among the sources. *)
Variable sizeof_obj_phys : Z.

(** The width of an [unsigned long]: 32 or 64. *)
Variable BITS_PER_LONG : Z.

Definition ulong (x : Z) : Z := x mod 2 ^ BITS_PER_LONG.

(** [struct apfs_checkpoint_mapping], packed: four [__le32] and three
    [__le64]. *)
Definition sizeof_checkpoint_mapping : Z := 4 + 4 + 4 + 4 + 8 + 8 + 8.

(** [struct apfs_checkpoint_map_phys], packed: the object header,
    [cpm_flags] and [cpm_count]; the flexible array has no size. *)
Definition sizeof_checkpoint_map_phys : Z := sizeof_obj_phys + 4 + 4.

(** [apfs_max_maps_per_block]. *)
Definition apfs_max_maps_per_block (sb : super_block) : Z :=
  let maps_size := ulong (s_blocksize sb - sizeof_checkpoint_map_phys) in
  s32 (maps_size / sizeof_checkpoint_mapping).

Definition APFS_INCOMPAT_CASE_INSENSITIVE : Z := 1.

(** Offset of [apfs_incompatible_features] in [struct apfs_superblock]:
    after the object header, [apfs_magic], [apfs_fs_index],
    [apfs_features] and [apfs_readonly_compatible_features]. *)
Definition apfs_incompatible_features : Z := sizeof_obj_phys + 4 + 4 + 8 + 8.

(** The byte order of the machine. *)
Variable big_endian : bool.

Definition be_combine (l : list Z) : Z := Mem.le_combine (rev l).

(** A 64-bit field read as the machine reads it, without conversion. *)
Definition native64 (raw : list Z) (off : Z) : Z :=
  if big_endian then be_combine (Mem.load raw off 8)
  else Mem.le_combine (Mem.load raw off 8).

(** [cpu_to_le64]: the bytes swapped on a big-endian machine. *)
Definition cpu_to_le64 (x : Z) : Z :=
  if big_endian then be_combine (Mem.le_split 8 x) else u64 x.

(** [apfs_is_case_insensitive], on the bytes of [s_vsb_raw]. *)
Definition apfs_is_case_insensitive (s_vsb_raw : list Z) : bool :=
  bool_decide
    (Z.land (native64 s_vsb_raw apfs_incompatible_features)
            (cpu_to_le64 APFS_INCOMPAT_CASE_INSENSITIVE) <> 0).

End Super.

(** *** The bit fields of key.h and spaceman.h *)

Module Key.
Definition APFS_OBJ_ID_MASK : Z := 0x0fffffffffffffff.
Definition APFS_OBJ_TYPE_MASK : Z := 0xf000000000000000.
Definition APFS_OBJ_TYPE_SHIFT : Z := 60.
Definition APFS_TYPE_MAX : Z := 15.
Definition APFS_DREC_LEN_MASK : Z := 0x000003ff.
Definition APFS_DREC_HASH_MASK : Z := 0xfffffc00.
Definition APFS_DREC_HASH_SHIFT : Z := 10.
End Key.

Module Spaceman.
Definition APFS_CI_COUNT_MASK : Z := 0x000FFFFF.
Definition APFS_CI_COUNT_RESERVED_MASK : Z := 0xFFF00000.
End Spaceman.

(** *** A node with entries of variable size *)

Module MoreExamples.

(** An empty root-and-leaf node whose entries hold offsets and lengths,
    with room for eight of them. *)
Definition variable_empty : apfs_node :=
  mkNode (Example.ROOT + Example.LEAF) 0 120 120 4056 1 1
    (Mem.put_le 2 Example.zeros Layout.btn_flags (Example.ROOT + Example.LEAF))
    false false.

(** The node after the insert of the record 2 -> 102, and a query that
    has found that record. *)
Definition variable_one : apfs_query :=
  Eval vm_compute in
    set_q_index
      (snd (Example.insert (Example.query_at variable_empty (-1))
              (Mem.le_split 8 2) 8 (Some (Mem.le_split 8 102)) 8)) 0.

(** The object map of the examples with the checksum of its block
    stored in it. *)
Definition sealed_omap_root : apfs_node :=
  Eval vm_compute in
    set_raw Example.omap_root
      (apfs_obj_set_csum Example.cksum Example.omap_sb
         (b_data Example.omap_root)).

End MoreExamples.
(** * Properties *)

(** ** Machine integers in range *)

Lemma u16_small x : 0 <= x < 2 ^ 16 -> u16 x = x.
Proof. intros. unfold u16. apply Z.mod_small. lia. Qed.

Lemma u32_small x : 0 <= x < 2 ^ 32 -> u32 x = x.
Proof. intros. unfold u32. apply Z.mod_small. lia. Qed.

Lemma u64_small x : 0 <= x < 2 ^ 64 -> u64 x = x.
Proof. intros. unfold u64. apply Z.mod_small. lia. Qed.

Lemma s32_small x : - 2 ^ 31 <= x < 2 ^ 31 -> s32 x = x.
Proof. intros. unfold s32. rewrite Z.mod_small; lia. Qed.

Lemma u16_u16 x : u16 (u16 x) = u16 x.
Proof. unfold u16. apply Z.mod_mod. lia. Qed.

Lemma u16_add_l x y : u16 (u16 x + y) = u16 (x + y).
Proof. unfold u16. apply Zplus_mod_idemp_l. Qed.

Lemma u16_add_r x y : u16 (x + u16 y) = u16 (x + y).
Proof. unfold u16. apply Zplus_mod_idemp_r. Qed.

Lemma u16_sub_l x y : u16 (u16 x - y) = u16 (x - y).
Proof. unfold u16. apply Zminus_mod_idemp_l. Qed.

Lemma u64_u64 x : u64 (u64 x) = u64 x.
Proof. unfold u64. apply Z.mod_mod. lia. Qed.

Lemma u64_add_r x y : u64 (x + u64 y) = u64 (x + y).
Proof. unfold u64. apply Zplus_mod_idemp_r. Qed.

(** ** Reading a block after a write *)

Module MemFacts.
Import Mem.

Lemma length_store b off bs : length (store b off bs) = length b.
Proof. unfold store. case_decide; [apply length_inserts | done]. Qed.

Lemma length_load b off n : length (load b off n) = Z.to_nat n.
Proof. unfold load. by rewrite length_fmap, length_seq. Qed.

Lemma lookup_load b off n (k : nat) :
  (k < Z.to_nat n)%nat -> load b off n !! k = Some (byte_at b (off + Z.of_nat k)).
Proof.
  intros Hk. unfold load. rewrite list_lookup_fmap, lookup_seq_lt by done.
  done.
Qed.

Lemma length_le_split n v : length (le_split n v) = n.
Proof. revert v. induction n as [|n IH]; intros v; simpl; [done | by rewrite IH]. Qed.

(** A byte outside of the written range is not touched. *)
Lemma byte_at_store_out b off bs i :
  i < off \/ off + Z.of_nat (length bs) <= i ->
  byte_at (store b off bs) i = byte_at b i.
Proof.
  intros Hi. unfold store. case_decide as Hoff; [|done].
  unfold byte_at. case_decide as H0; [|done].
  destruct Hi as [Hi|Hi].
  - rewrite list_lookup_inserts_lt by lia. done.
  - rewrite list_lookup_inserts_ge by lia. done.
Qed.

(** A byte inside of the written range, when the range lies in the block. *)
Lemma byte_at_store_in b off bs i :
  0 <= off -> off <= i < off + Z.of_nat (length bs) ->
  i < Z.of_nat (length b) ->
  byte_at (store b off bs) i = default 0 (bs !! Z.to_nat (i - off)).
Proof.
  intros Hoff Hi Hb. unfold store. rewrite decide_True by done.
  unfold byte_at. rewrite decide_True by lia.
  rewrite list_lookup_inserts by lia.
  f_equal. f_equal. lia.
Qed.

Lemma load_ext b1 b2 off n :
  (forall i, off <= i < off + n -> byte_at b1 i = byte_at b2 i) ->
  load b1 off n = load b2 off n.
Proof.
  intros H. unfold load. apply list_fmap_ext. intros k x Hk.
  apply lookup_seq in Hk as [-> Hk]. apply H. lia.
Qed.

Lemma load_store_out b off bs o n :
  o + n <= off \/ off + Z.of_nat (length bs) <= o ->
  load (store b off bs) o n = load b o n.
Proof.
  intros H. apply load_ext. intros i Hi. apply byte_at_store_out. lia.
Qed.

(** Reading back what was just written. *)
Lemma load_store_same b off bs :
  0 <= off -> off + Z.of_nat (length bs) <= Z.of_nat (length b) ->
  load (store b off bs) off (Z.of_nat (length bs)) = bs.
Proof.
  intros Hoff Hb. apply list_eq. intros k.
  destruct (decide (k < length bs)%nat) as [Hk|Hk].
  - rewrite lookup_load by lia.
    rewrite byte_at_store_in by lia.
    replace (Z.to_nat (off + Z.of_nat k - off)) with k by lia.
    destruct (lookup_lt_is_Some_2 bs k Hk) as [x Hx]. by rewrite Hx.
  - rewrite !lookup_ge_None_2; [done | lia |].
    rewrite length_load. lia.
Qed.

Lemma get_le_ext n b1 b2 off :
  (forall i, off <= i < off + Z.of_nat n -> byte_at b1 i = byte_at b2 i) ->
  get_le n b1 off = get_le n b2 off.
Proof. intros H. unfold get_le. f_equal. by apply load_ext. Qed.

Lemma get_le_store_out n b off bs o :
  o + Z.of_nat n <= off \/ off + Z.of_nat (length bs) <= o ->
  get_le n (store b off bs) o = get_le n b o.
Proof. intros H. unfold get_le. by rewrite load_store_out. Qed.

Lemma le_combine_split n v : le_combine (le_split n v) = v mod 256 ^ Z.of_nat n.
Proof.
  revert v. induction n as [|n IH]; intros v.
  - simpl. by rewrite Z.mod_1_r.
  - cbn [le_split le_combine]. rewrite IH.
    rewrite Nat2Z.inj_succ, Z.pow_succ_r by lia.
    rewrite Z.rem_mul_r by (try apply Z.pow_pos_nonneg; lia). done.
Qed.

Lemma get_le_put_le n b off v :
  0 <= off -> off + Z.of_nat n <= Z.of_nat (length b) ->
  get_le n (put_le n b off v) off = v mod 256 ^ Z.of_nat n.
Proof.
  intros Hoff Hb. unfold get_le, put_le.
  rewrite <- (length_le_split n v) at 2.
  rewrite load_store_same by (rewrite ?length_le_split; lia).
  apply le_combine_split.
Qed.

Lemma get_le_put_le_out n m b off v o :
  o + Z.of_nat n <= off \/ off + Z.of_nat m <= o ->
  get_le n (put_le m b off v) o = get_le n b o.
Proof.
  intros H. unfold put_le. apply get_le_store_out.
  rewrite length_le_split. lia.
Qed.

Lemma byte_at_put_le_out m b off v i :
  i < off \/ off + Z.of_nat m <= i ->
  byte_at (put_le m b off v) i = byte_at b i.
Proof.
  intros H. unfold put_le. apply byte_at_store_out.
  rewrite length_le_split. lia.
Qed.

Lemma length_put_le m b off v : length (put_le m b off v) = length b.
Proof. apply length_store. Qed.

Lemma length_memmove b dst src n : length (memmove b dst src n) = length b.
Proof. apply length_store. Qed.

Lemma length_memcpy b dst src n : length (memcpy b dst src n) = length b.
Proof. apply length_store. Qed.

Lemma length_le16_add_cpu b off v : length (le16_add_cpu b off v) = length b.
Proof. apply length_store. Qed.

Lemma length_le64_add_cpu b off v : length (le64_add_cpu b off v) = length b.
Proof. apply length_store. Qed.

(** [memmove]: the destination range holds the old source range. *)
Lemma byte_at_memmove_in b dst src n i :
  0 <= dst -> dst <= i < dst + n -> dst + n <= Z.of_nat (length b) ->
  byte_at (memmove b dst src n) i = byte_at b (src + (i - dst)).
Proof.
  intros Hd Hi Hb. unfold memmove.
  rewrite byte_at_store_in by (rewrite ?length_load; lia).
  rewrite lookup_load by lia. simpl. f_equal. lia.
Qed.

Lemma byte_at_memmove_out b dst src n i :
  i < dst \/ dst + Z.max 0 n <= i ->
  byte_at (memmove b dst src n) i = byte_at b i.
Proof.
  intros H. unfold memmove. apply byte_at_store_out.
  rewrite length_load. lia.
Qed.

Lemma byte_at_memcpy_out b dst src n i :
  i < dst \/ dst + Z.max 0 n <= i ->
  byte_at (memcpy b dst src n) i = byte_at b i.
Proof.
  intros H. unfold memcpy. apply byte_at_store_out.
  rewrite length_load. lia.
Qed.

Lemma byte_at_le16_add_cpu_out b off v i :
  i < off \/ off + 2 <= i -> byte_at (le16_add_cpu b off v) i = byte_at b i.
Proof. intros H. unfold le16_add_cpu. apply byte_at_put_le_out. lia. Qed.

Lemma byte_at_le64_add_cpu_out b off v i :
  i < off \/ off + 8 <= i -> byte_at (le64_add_cpu b off v) i = byte_at b i.
Proof. intros H. unfold le64_add_cpu. apply byte_at_put_le_out. lia. Qed.

(** Loading a whole buffer gives the buffer back. *)
Lemma load_all (l : list Z) : load l 0 (Z.of_nat (length l)) = l.
Proof.
  apply list_eq. intros k.
  destruct (decide (k < length l)%nat) as [Hk|Hk].
  - rewrite lookup_load by lia. unfold byte_at.
    rewrite decide_True by lia.
    replace (Z.to_nat (0 + Z.of_nat k)) with k by lia.
    destruct (lookup_lt_is_Some_2 l k Hk) as [x Hx]. by rewrite Hx.
  - rewrite !lookup_ge_None_2; [done | lia |]. rewrite length_load. lia.
Qed.

End MemFacts.

Module MemFacts2.
Import Mem MemFacts.

Lemma pow256_2 : 256 ^ Z.of_nat 2 = 2 ^ 16.
Proof. reflexivity. Qed.
Lemma pow256_4 : 256 ^ Z.of_nat 4 = 2 ^ 32.
Proof. reflexivity. Qed.
Lemma pow256_8 : 256 ^ Z.of_nat 8 = 2 ^ 64.
Proof. reflexivity. Qed.

Lemma get_put_16 b off v :
  0 <= off -> off + 2 <= Z.of_nat (length b) ->
  get_le 2 (put_le 2 b off v) off = u16 v.
Proof. intros. rewrite get_le_put_le by lia. by rewrite pow256_2. Qed.

Lemma get_put_32 b off v :
  0 <= off -> off + 4 <= Z.of_nat (length b) ->
  get_le 4 (put_le 4 b off v) off = u32 v.
Proof. intros. rewrite get_le_put_le by lia. by rewrite pow256_4. Qed.

Lemma get_put_64 b off v :
  0 <= off -> off + 8 <= Z.of_nat (length b) ->
  get_le 8 (put_le 8 b off v) off = u64 v.
Proof. intros. rewrite get_le_put_le by lia. by rewrite pow256_8. Qed.

Lemma get_le16_add_cpu b off v :
  0 <= off -> off + 2 <= Z.of_nat (length b) ->
  get_le 2 (le16_add_cpu b off v) off = u16 (get_le 2 b off + v).
Proof.
  intros. unfold le16_add_cpu. rewrite get_put_16 by lia.
  by rewrite u16_u16, u16_add_r.
Qed.

Lemma get_le64_add_cpu b off v :
  0 <= off -> off + 8 <= Z.of_nat (length b) ->
  get_le 8 (le64_add_cpu b off v) off = u64 (get_le 8 b off + v).
Proof.
  intros. unfold le64_add_cpu. rewrite get_put_64 by lia.
  by rewrite u64_u64, u64_add_r.
Qed.

Lemma get_le_le16_add_cpu_out n b off v o :
  o + Z.of_nat n <= off \/ off + 2 <= o ->
  get_le n (le16_add_cpu b off v) o = get_le n b o.
Proof. intros. unfold le16_add_cpu. apply get_le_put_le_out. lia. Qed.

Lemma get_le_le64_add_cpu_out n b off v o :
  o + Z.of_nat n <= off \/ off + 8 <= o ->
  get_le n (le64_add_cpu b off v) o = get_le n b o.
Proof. intros. unfold le64_add_cpu. apply get_le_put_le_out. lia. Qed.

Lemma get_le_memmove_out k b dst src n o :
  o + Z.of_nat k <= dst \/ dst + Z.max 0 n <= o ->
  get_le k (memmove b dst src n) o = get_le k b o.
Proof.
  intros. unfold memmove. apply get_le_store_out. rewrite length_load. lia.
Qed.

Lemma get_le_memcpy_out k b dst src n o :
  o + Z.of_nat k <= dst \/ dst + Z.max 0 n <= o ->
  get_le k (memcpy b dst src n) o = get_le k b o.
Proof.
  intros. unfold memcpy. apply get_le_store_out. rewrite length_load. lia.
Qed.

Lemma load_memcpy_same b dst src :
  0 <= dst -> dst + Z.of_nat (length src) <= Z.of_nat (length b) ->
  load (memcpy b dst src (Z.of_nat (length src))) dst (Z.of_nat (length src)) = src.
Proof.
  intros. unfold memcpy. rewrite load_all. by apply load_store_same.
Qed.

Lemma load_put_le_out m b off v o n :
  o + n <= off \/ off + Z.of_nat m <= o ->
  load (put_le m b off v) o n = load b o n.
Proof.
  intros. unfold put_le. apply load_store_out. rewrite length_le_split. lia.
Qed.

Lemma load_le16_add_cpu_out b off v o n :
  o + n <= off \/ off + 2 <= o ->
  load (le16_add_cpu b off v) o n = load b o n.
Proof. intros. unfold le16_add_cpu. apply load_put_le_out. lia. Qed.

Lemma load_le64_add_cpu_out b off v o n :
  o + n <= off \/ off + 8 <= o ->
  load (le64_add_cpu b off v) o n = load b o n.
Proof. intros. unfold le64_add_cpu. apply load_put_le_out. lia. Qed.

Lemma load_memcpy_out b dst src n o k :
  o + k <= dst \/ dst + Z.max 0 n <= o ->
  load (memcpy b dst src n) o k = load b o k.
Proof.
  intros. unfold memcpy. apply load_store_out. rewrite length_load. lia.
Qed.

(** A store under a condition, as in "raise the longest key". *)
Lemma length_cond_put (c : bool) m b off v :
  length (if c then put_le m b off v else b) = length b.
Proof. destruct c; [apply length_put_le | done]. Qed.

Lemma byte_at_cond_put_out (c : bool) m b off v i :
  i < off \/ off + Z.of_nat m <= i ->
  byte_at (if c then put_le m b off v else b) i = byte_at b i.
Proof. intros. destruct c; [by apply byte_at_put_le_out | done]. Qed.

Lemma get_le_cond_put_out (c : bool) n m b off v o :
  o + Z.of_nat n <= off \/ off + Z.of_nat m <= o ->
  get_le n (if c then put_le m b off v else b) o = get_le n b o.
Proof. intros. destruct c; [by apply get_le_put_le_out | done]. Qed.

Lemma load_cond_put_out (c : bool) m b off v o n :
  o + n <= off \/ off + Z.of_nat m <= o ->
  load (if c then put_le m b off v else b) o n = load b o n.
Proof. intros. destruct c; [by apply load_put_le_out | done]. Qed.

(** Raising a 32-bit field to a maximum. *)
Lemma get_le_raise b off v :
  0 <= off -> off + 4 <= Z.of_nat (length b) -> 0 <= v < 2 ^ 32 ->
  get_le 4 (if bool_decide (v > get_le 4 b off) then put_le 4 b off v else b) off
  = Z.max (get_le 4 b off) v.
Proof.
  intros. case_bool_decide.
  - rewrite get_put_32 by lia. rewrite u32_small by lia. lia.
  - lia.
Qed.

End MemFacts2.

(** Rewriting a read through the writes that do not reach it. *)
Ltac layout_consts :=
  unfold Layout.o_cksum, Layout.o_oid, Layout.o_xid, Layout.btn_flags,
    Layout.btn_level, Layout.btn_nkeys, Layout.btn_table_space_off,
    Layout.btn_table_space_len, Layout.btn_free_space_off,
    Layout.btn_free_space_len, Layout.btn_key_free_list_off,
    Layout.btn_key_free_list_len, Layout.btn_val_free_list_off,
    Layout.btn_val_free_list_len, Layout.btn_data, Layout.sizeof_node_phys,
    Layout.sizeof_info, Layout.bt_longest_key, Layout.bt_longest_val,
    Layout.bt_key_count, Layout.bt_node_count, Layout.sizeof_kvoff,
    Layout.sizeof_kvloc, Layout.APFS_BTOFF_INVALID, Layout.ok_oid,
    Layout.ok_xid in *.

Ltac mem_lengths :=
  repeat first
    [ rewrite MemFacts2.length_cond_put
    | rewrite MemFacts.length_put_le | rewrite MemFacts.length_memmove
    | rewrite MemFacts.length_memcpy | rewrite MemFacts.length_le16_add_cpu
    | rewrite MemFacts.length_le64_add_cpu | rewrite MemFacts.length_store ].

Ltac frame_step :=
  first
    [ rewrite MemFacts2.byte_at_cond_put_out by lia
    | rewrite MemFacts2.get_le_cond_put_out by lia
    | rewrite MemFacts2.load_cond_put_out by lia
    | rewrite MemFacts.byte_at_put_le_out by lia
    | rewrite MemFacts.byte_at_le16_add_cpu_out by lia
    | rewrite MemFacts.byte_at_le64_add_cpu_out by lia
    | rewrite MemFacts.byte_at_memmove_out by lia
    | rewrite MemFacts.byte_at_memcpy_out by lia
    | rewrite MemFacts.get_le_put_le_out by lia
    | rewrite MemFacts2.get_le_le16_add_cpu_out by lia
    | rewrite MemFacts2.get_le_le64_add_cpu_out by lia
    | rewrite MemFacts2.get_le_memmove_out by lia
    | rewrite MemFacts2.get_le_memcpy_out by lia
    | rewrite MemFacts2.load_put_le_out by lia
    | rewrite MemFacts2.load_le16_add_cpu_out by lia
    | rewrite MemFacts2.load_le64_add_cpu_out by lia
    | rewrite MemFacts2.load_memcpy_out by lia ].

Ltac frame := repeat frame_step.

(** ** Leaf mutation *)

Section MutationFacts.

Variables ROOT LEAF FIXED : Z.
Variable fletcher : list Z -> Z.

Abbreviation entry_size := (toc_entry_size FIXED).
Abbreviation slot := (toc_slot FIXED).
Abbreviation layout := (node_layout FIXED).
Abbreviation single_node := (root_and_leaf ROOT LEAF).
Abbreviation has_fixed_kv := (apfs_node_has_fixed_kv_size FIXED).
Abbreviation ready := (insert_ready FIXED).
Abbreviation growth := (toc_growth FIXED).
Abbreviation remove := (apfs_btree_remove FIXED fletcher).
Abbreviation insert := (apfs_btree_insert FIXED fletcher).

Lemma toc_entry_size_cases node :
  entry_size node = 4 \/ entry_size node = 8.
Proof. unfold toc_entry_size. destruct apfs_node_has_fixed_kv_size; auto. Qed.

Lemma layout_records_bound sb node :
  layout sb node -> n_records node <= 16360.
Proof.
  intros [Hlen Hbs Hrec Htoc Hkey Hfree Hdata]. layout_consts.
  destruct (toc_entry_size_cases node) as [Hsz|Hsz]; rewrite Hsz in Htoc; lia.
Qed.

Lemma layout_key_bound sb node :
  layout sb node -> 56 <= n_key node.
Proof.
  intros [Hlen Hbs Hrec Htoc Hkey Hfree Hdata]. layout_consts.
  destruct (toc_entry_size_cases node) as [Hsz|Hsz]; rewrite Hsz in Htoc; lia.
Qed.

Lemma remove_toc_step node index n raw :
  (if has_fixed_kv node then
     Mem.memmove raw (Layout.btn_data + index * Layout.sizeof_kvoff)
       (Layout.btn_data + index * Layout.sizeof_kvoff + Layout.sizeof_kvoff)
       (u64 (n * Layout.sizeof_kvoff))
   else
     Mem.memmove raw (Layout.btn_data + index * Layout.sizeof_kvloc)
       (Layout.btn_data + index * Layout.sizeof_kvloc + Layout.sizeof_kvloc)
       (u64 (n * Layout.sizeof_kvloc)))
  = Mem.memmove raw (slot node index) (slot node index + entry_size node)
      (u64 (n * entry_size node)).
Proof.
  unfold toc_slot, toc_entry_size.
  by destruct apfs_node_has_fixed_kv_size.
Qed.

Lemma remove_effect sb q :
  single_node (q_node q) ->
  layout sb (q_node q) ->
  0 <= q_index q < n_records (q_node q) ->
  let node := q_node q in
  let raw := b_data node in
  let sz := entry_size node in
  let info := s_blocksize sb - Layout.sizeof_info in
  let node' := q_node (snd (remove sb q)) in
  let raw' := b_data node' in
  fst (remove sb q) = 0 /\
  (forall i, slot node (q_index q) <= i < slot node (n_records node - 1) ->
             Mem.byte_at raw' i = Mem.byte_at raw (i + sz)) /\
  (forall i, Layout.btn_data <= i < slot node (q_index q) ->
             Mem.byte_at raw' i = Mem.byte_at raw i) /\
  n_records node' = n_records node - 1 /\
  Mem.get_le 4 raw' Layout.btn_nkeys = n_records node - 1 /\
  Mem.get_le 8 raw' (info + Layout.bt_key_count)
    = u64 (Mem.get_le 8 raw (info + Layout.bt_key_count) - 1) /\
  Mem.get_le 2 raw' Layout.btn_key_free_list_len
    = u16 (Mem.get_le 2 raw Layout.btn_key_free_list_len + q_key_len q) /\
  Mem.get_le 2 raw' Layout.btn_val_free_list_len
    = u16 (Mem.get_le 2 raw Layout.btn_val_free_list_len + q_len q) /\
  n_key node' = n_key node /\ n_free node' = n_free node /\
  n_data node' = n_data node /\
  (forall i, slot node (n_records node - 1) <= i < info ->
             Mem.byte_at raw' i = Mem.byte_at raw i) /\
  Mem.get_le 2 raw' Layout.btn_key_free_list_off
    = Mem.get_le 2 raw Layout.btn_key_free_list_off /\
  Mem.get_le 2 raw' Layout.btn_val_free_list_off
    = Mem.get_le 2 raw Layout.btn_val_free_list_off.
Proof.
  intros _ Hlay Hidx. pose proof (layout_records_bound _ _ Hlay) as HN.
  destruct Hlay as [Hlen Hbs Hrec Htoc Hkey Hfree Hdata].
  cbv zeta. unfold apfs_btree_remove. cbn [fst snd].
  rewrite remove_toc_step.
  destruct q as [node k p fl index ko kl o l d]; cbn [q_node q_index q_key_len q_len set_q_node] in *.
  cbn [b_data set_raw set_records mark_buffer_dirty n_records n_key n_free n_data].
  unfold apfs_obj_set_csum, toc_slot in *.
  pose proof (toc_entry_size_cases node) as Hsz.
  assert (Hlater : s32 (u32 (u32 (n_records node - index) - 1)) = n_records node - index - 1).
  { layout_consts. rewrite (u32_small (_ - index)) by lia.
    rewrite u32_small by lia. rewrite s32_small by lia. done. }
  rewrite Hlater.
  layout_consts.
  destruct Hsz as [Hsz | Hsz]; rewrite Hsz in *.
  all: rewrite u64_small by lia.
  all: set (mv := Mem.memmove _ _ _ _).
  all: assert (Hmvlen : Z.of_nat (length mv) = s_blocksize sb)
    by (subst mv; by rewrite MemFacts.length_memmove).
  all: repeat split.
  - intros i Hi. frame. subst mv.
    rewrite MemFacts.byte_at_memmove_in by lia. f_equal. lia.
  - intros i Hi. frame. subst mv.
    rewrite MemFacts.byte_at_memmove_out by lia. done.
  - rewrite u32_small by lia. done.
  - frame. rewrite MemFacts2.get_put_32 by (mem_lengths; lia).
    rewrite !(u32_small (n_records node - 1)) by lia. done.
  - frame. rewrite MemFacts2.get_le64_add_cpu by lia.
    subst mv. rewrite MemFacts2.get_le_memmove_out by lia. f_equal.
  - frame. rewrite MemFacts2.get_le16_add_cpu by (mem_lengths; lia).
    frame. subst mv. rewrite MemFacts2.get_le_memmove_out by lia. done.
  - frame. rewrite MemFacts2.get_le16_add_cpu by (mem_lengths; lia).
    frame. subst mv. rewrite MemFacts2.get_le_memmove_out by lia. done.
  - intros i Hi. frame. subst mv.
    rewrite MemFacts.byte_at_memmove_out by lia. done.
  - frame. subst mv. rewrite MemFacts2.get_le_memmove_out by lia. done.
  - frame. subst mv. rewrite MemFacts2.get_le_memmove_out by lia. done.
  - intros i Hi. frame. subst mv.
    rewrite MemFacts.byte_at_memmove_in by lia. f_equal. lia.
  - intros i Hi. frame. subst mv.
    rewrite MemFacts.byte_at_memmove_out by lia. done.
  - rewrite u32_small by lia. done.
  - frame. rewrite MemFacts2.get_put_32 by (mem_lengths; lia).
    rewrite !(u32_small (n_records node - 1)) by lia. done.
  - frame. rewrite MemFacts2.get_le64_add_cpu by lia.
    subst mv. rewrite MemFacts2.get_le_memmove_out by lia. f_equal.
  - frame. rewrite MemFacts2.get_le16_add_cpu by (mem_lengths; lia).
    frame. subst mv. rewrite MemFacts2.get_le_memmove_out by lia. done.
  - frame. rewrite MemFacts2.get_le16_add_cpu by (mem_lengths; lia).
    frame. subst mv. rewrite MemFacts2.get_le_memmove_out by lia. done.
  - intros i Hi. frame. subst mv.
    rewrite MemFacts.byte_at_memmove_out by lia. done.
  - frame. subst mv. rewrite MemFacts2.get_le_memmove_out by lia. done.
  - frame. subst mv. rewrite MemFacts2.get_le_memmove_out by lia. done.
Qed.

Lemma toc_needs_expansion_iff sb node :
  layout sb node ->
  toc_needs_expansion FIXED node = true <->
  Layout.sizeof_node_phys + (n_records node + 1) * entry_size node > n_key node.
Proof.
  intros Hlay. pose proof (layout_records_bound _ _ Hlay) as HN.
  destruct Hlay as [Hlen Hbs Hrec Htoc Hkey Hfree Hdata].
  unfold toc_needs_expansion. rewrite bool_decide_eq_true.
  layout_consts.
  destruct (toc_entry_size_cases node) as [Hsz|Hsz]; rewrite Hsz in *.
  all: rewrite (u32_small (n_records node + 1)) by lia.
  all: rewrite ?(u32_small 4), ?(u32_small 8) by lia.
  all: rewrite (u32_small (_ * _)) by lia.
  all: rewrite !u64_small by lia; done.
Qed.

Lemma expand_facts sb node key_len val_len node1 :
  layout sb node ->
  0 <= key_len <= 65536 -> 0 <= val_len <= 65536 ->
  toc_needs_expansion FIXED node = true ->
  expand_toc FIXED node key_len val_len = Some node1 ->
  let g := BTREE_TOC_ENTRY_INCREMENT * entry_size node in
  let raw := b_data node in
  let raw1 := b_data node1 in
  n_key node1 = n_key node + g /\
  n_free node1 = n_free node + g /\
  n_data node1 = n_data node /\
  n_records node1 = n_records node /\
  n_flags node1 = n_flags node /\
  length raw1 = length raw /\
  n_free node1 + key_len + val_len <= n_data node /\
  (forall i, Layout.btn_data <= i < n_key node + g -> Mem.byte_at raw1 i = Mem.byte_at raw i) /\
  (forall i, n_key node <= i < n_free node -> Mem.byte_at raw1 (i + g) = Mem.byte_at raw i) /\
  (forall i, n_free node + g <= i -> Mem.byte_at raw1 i = Mem.byte_at raw i) /\
  (forall i, i < Layout.btn_table_space_len \/
             Layout.btn_table_space_len + 2 <= i < Layout.btn_free_space_len \/
             Layout.btn_free_space_len + 2 <= i < Layout.btn_data ->
             Mem.byte_at raw1 i = Mem.byte_at raw i) /\
  Mem.get_le 2 raw1 Layout.btn_table_space_len
    = u16 (Mem.get_le 2 raw Layout.btn_table_space_len + g) /\
  Mem.get_le 2 raw1 Layout.btn_free_space_len
    = u16 (Mem.get_le 2 raw Layout.btn_free_space_len - g).
Proof.
  intros Hlay Hkl Hvl Hexpand Hexp.
  pose proof (layout_records_bound _ _ Hlay) as HN.
  destruct Hlay as [Hlen Hbs Hrec Htoc Hkey Hfree Hdata].
  cbv zeta.
  unfold expand_toc, BTREE_TOC_ENTRY_INCREMENT in *.
  layout_consts.
  destruct (toc_entry_size_cases node) as [Hsz|Hsz]; rewrite Hsz in *.
  all: rewrite ?(s32_small (8 * _)) in Hexp by lia.
  all: rewrite ?(s32_small (n_key node + _)), ?(s32_small (n_free node + _)) in Hexp by lia.
  all: rewrite ?(s32_small (n_free node + _ + _)) in Hexp by lia.
  all: rewrite ?(s32_small (n_free node + _ + _ + _)) in Hexp by lia.
  all: rewrite ?(s32_small (n_free node - _)) in Hexp by lia.
  all: case_bool_decide as Hsp; [done|].
  all: injection Hexp as <-.
  all: cbn [n_key n_free n_data n_records n_flags b_data set_raw set_free set_key].
  all: repeat split; try lia.
  all: try (by mem_lengths).
  all: try (intros i Hi; frame;
            first [ rewrite MemFacts.byte_at_memmove_in by lia; f_equal; lia
                  | done ]).
  all: try (frame; rewrite MemFacts2.get_le16_add_cpu by (mem_lengths; lia);
            frame; f_equal; lia).
Qed.


Lemma insert_toc_entry_facts sb node index key_len val val_len :
  ready sb node index key_len val_len ->
  let raw := b_data node in
  let T := insert_toc_entry FIXED sb node index key_len val val_len in
  length T = length raw /\
  (forall i, i < slot node index \/ slot node (n_records node + 1) <= i ->
             Mem.byte_at T i = Mem.byte_at raw i) /\
  (forall i, slot node (index + 1) <= i < slot node (n_records node + 1) ->
             Mem.byte_at T i = Mem.byte_at raw (i - entry_size node)) /\
  Mem.get_le 2 T (slot node index) = n_free node - n_key node /\
  (if has_fixed_kv node then
     Mem.get_le 2 T (slot node index + 2)
     = match val with None => Layout.APFS_BTOFF_INVALID | Some _ => val_len end
   else
     Mem.get_le 2 T (slot node index + 2) = key_len /\
     Mem.get_le 2 T (slot node index + 4)
     = s_blocksize sb - Layout.sizeof_info - (n_data node - val_len) /\
     Mem.get_le 2 T (slot node index + 6) = val_len).
Proof.
  intros [Hlen Hbs Hidx Htoc Hkey Hkl Hvl Hfit Hdata].
  cbv zeta. unfold insert_toc_entry, toc_slot, toc_entry_size in *.
  layout_consts.
  destruct (has_fixed_kv node) eqn:Hfixed.
  all: rewrite (u32_small (n_records node - index)) by lia.
  all: rewrite ?(s32_small (n_free node - n_key node)) by lia.
  all: rewrite ?(u16_small (n_free node - n_key node)) by lia.
  all: rewrite ?(u16_small val_len), ?(u16_small key_len), ?(u16_small 65535) by lia.
  all: rewrite ?(u64_small (s_blocksize sb - n_data node - 40 + val_len)) by lia.
  all: rewrite ?(u16_small (s_blocksize sb - n_data node - 40 + val_len)) by lia.
  all: try destruct val as [v|].
  all: repeat split.
  all: try (by mem_lengths).
  all: try (intros i Hi; frame;
            first [ rewrite MemFacts.byte_at_memmove_in by lia; f_equal; lia
                  | done ]).
  all: try (frame; rewrite MemFacts2.get_put_16 by (mem_lengths; lia);
            rewrite u16_small by lia; lia).
Qed.

Lemma insert_ready_bounds sb node index key_len val_len :
  ready sb node index key_len val_len ->
  n_records node <= 16360 /\ 60 <= n_key node.
Proof.
  intros [Hlen Hbs Hidx Htoc Hkey Hkl Hvl Hfit Hdata]. layout_consts.
  destruct (toc_entry_size_cases node) as [Hsz|Hsz]; rewrite Hsz in *; lia.
Qed.

Lemma insert_record_fields sb node index key key_len val val_len :
  ready sb node index key_len val_len ->
  let node' := insert_record FIXED fletcher sb node index key key_len val val_len in
  n_records node' = n_records node + 1 /\
  n_key node' = n_key node /\
  n_free node' = n_free node + key_len /\
  n_data node' = n_data node - val_bytes val val_len /\
  n_flags node' = n_flags node /\
  b_dirty node' = true /\
  length (b_data node') = length (b_data node).
Proof.
  intros Hready.
  destruct (insert_toc_entry_facts sb node index key_len val val_len Hready)
    as (HTlen & _).
  destruct (insert_ready_bounds _ _ _ _ _ Hready) as [HN Hk60].
  destruct Hready as [Hlen Hbs Hidx Htoc Hkey Hkl Hvl Hfit Hdata].
  cbv zeta. unfold insert_record, update_info, write_val, write_key, apfs_obj_set_csum, val_bytes.
  layout_consts.
  destruct val as [v|].
  all: cbn [n_records n_key n_free n_data n_flags b_dirty b_data
            set_raw set_records set_free set_key set_data mark_buffer_dirty].
  all: rewrite ?(s32_small (n_free node + key_len)), ?(s32_small (n_data node - val_len)) by lia.
  all: rewrite ?(u32_small (n_records node + 1)) by lia.
  all: repeat case_bool_decide.
  all: repeat split; try lia.
  all: mem_lengths; done.
Qed.

Lemma insert_record_bytes sb node index key key_len val val_len :
  ready sb node index key_len val_len ->
  let raw := b_data node in
  let info := s_blocksize sb - Layout.sizeof_info in
  let raw' := b_data (insert_record FIXED fletcher sb node index key key_len val val_len) in
  let T := insert_toc_entry FIXED sb node index key_len val val_len in
  (forall i, Layout.btn_data <= i < n_key node -> Mem.byte_at raw' i = Mem.byte_at T i) /\
  (forall o, Layout.btn_data <= o -> o + 2 <= n_key node -> Mem.get_le 2 raw' o = Mem.get_le 2 T o) /\
  (forall i, n_key node <= i < n_free node \/
             n_free node + key_len <= i < n_data node - val_bytes val val_len \/
             n_data node <= i < info ->
             Mem.byte_at raw' i = Mem.byte_at raw i) /\
  (Z.of_nat (length key) = key_len -> Mem.load raw' (n_free node) key_len = key) /\
  (forall v, val = Some v -> Z.of_nat (length v) = val_len ->
             Mem.load raw' (n_data node - val_len) val_len = v) /\
  Mem.get_le 4 raw' Layout.btn_nkeys = n_records node + 1 /\
  Mem.get_le 8 raw' (info + Layout.bt_key_count)
    = u64 (Mem.get_le 8 raw (info + Layout.bt_key_count) + 1) /\
  Mem.get_le 4 raw' (info + Layout.bt_longest_key)
    = Z.max (Mem.get_le 4 raw (info + Layout.bt_longest_key)) key_len /\
  Mem.get_le 4 raw' (info + Layout.bt_longest_val)
    = Z.max (Mem.get_le 4 raw (info + Layout.bt_longest_val)) val_len /\
  Mem.get_le 2 raw' Layout.btn_free_space_off
    = u16 (Mem.get_le 2 raw Layout.btn_free_space_off + key_len) /\
  Mem.get_le 2 raw' Layout.btn_free_space_len
    = u16 (Mem.get_le 2 raw Layout.btn_free_space_len - key_len - val_bytes val val_len) /\
  Mem.get_le 2 raw' Layout.btn_table_space_len
    = Mem.get_le 2 raw Layout.btn_table_space_len.
Proof.
  intros Hready.
  destruct (insert_toc_entry_facts sb node index key_len val val_len Hready)
    as (HTlen & HTout & _).
  destruct (insert_ready_bounds _ _ _ _ _ Hready) as [HN Hk60].
  destruct Hready as [Hlen Hbs Hidx Htoc Hkey Hkl Hvl Hfit Hdata].
  assert (HTout' : forall i, i < Layout.btn_data \/ n_key node <= i ->
             Mem.byte_at (insert_toc_entry FIXED sb node index key_len val val_len) i
             = Mem.byte_at (b_data node) i).
  { intros i Hi. apply HTout. unfold toc_slot. layout_consts.
    destruct (toc_entry_size_cases node) as [Hsz|Hsz]; rewrite Hsz in *; lia. }
  clear HTout.
  cbv zeta. unfold insert_record, update_info, write_val, write_key, apfs_obj_set_csum, val_bytes.
  set (T := insert_toc_entry FIXED sb node index key_len val val_len) in *.
  assert (HTlen' : Z.of_nat (length T) = s_blocksize sb) by lia.
  clearbody T. clear HTlen.
  layout_consts.
  destruct val as [v|].
  all: cbn [n_records n_key n_free n_data n_flags b_dirty b_data
            set_raw set_records set_free set_key set_data mark_buffer_dirty].
  all: rewrite ?(s32_small (n_free node + key_len)), ?(s32_small (n_data node - val_len)) by lia.
  all: rewrite ?(u32_small (n_records node + 1)) by lia.
  all: rewrite ?(u32_small key_len), ?(u32_small val_len) by lia.
  all: assert (HTget : forall n o, n_key node <= o \/ o + Z.of_nat n <= 56 ->
             Mem.get_le n T o = Mem.get_le n (b_data node) o)
    by (intros n o Ho; apply MemFacts.get_le_ext; intros i Hi; apply HTout'; lia).
  all: repeat split.
  all: try (intros i Hi; frame; first [ done | apply HTout'; lia ]).
  all: try (intros o Ho1 Ho2; frame; done).
  all: try (intros Hk; rewrite <- Hk in *; frame;
            apply MemFacts2.load_memcpy_same; lia).
  all: try (intros v0 [= <-] Hv; rewrite <- Hv in *; frame;
            apply MemFacts2.load_memcpy_same; mem_lengths; lia).
  all: try done.
  all: repeat first
         [ frame_step
         | rewrite MemFacts2.get_le16_add_cpu by (mem_lengths; lia)
         | rewrite MemFacts2.get_le64_add_cpu by (mem_lengths; lia)
         | rewrite MemFacts2.get_put_32 by (mem_lengths; lia)
         | rewrite MemFacts2.get_le_raise by (mem_lengths; lia) ].
  all: rewrite ?HTget by lia.
  all: rewrite ?u16_add_l, ?(u32_small (n_records node + 1)) by lia.
  all: try done.
  all: try (f_equal; lia).
  all: repeat case_bool_decide.
  all: repeat first
         [ frame_step
         | rewrite MemFacts2.get_put_32 by (mem_lengths; lia) ].
  all: rewrite ?HTget by lia.
  all: rewrite ?(u32_small key_len), ?(u32_small val_len) by lia.
  all: lia.
Qed.


Lemma expand_toc_none_iff sb node key_len val_len :
  layout sb node ->
  0 <= key_len <= 65536 -> 0 <= val_len <= 65536 ->
  expand_toc FIXED node key_len val_len = None <->
  n_free node + BTREE_TOC_ENTRY_INCREMENT * entry_size node + key_len + val_len
    > n_data node.
Proof.
  intros [Hlen Hbs Hrec Htoc Hkey Hfree Hdata] Hkl Hvl.
  unfold expand_toc, BTREE_TOC_ENTRY_INCREMENT. layout_consts.
  destruct (toc_entry_size_cases node) as [Hsz|Hsz]; rewrite Hsz in *.
  all: rewrite ?(s32_small (8 * _)) by lia.
  all: rewrite ?(s32_small (n_free node + _)) by lia.
  all: rewrite ?(s32_small (n_free node + _ + _)) by lia.
  all: rewrite ?(s32_small (n_free node + _ + _ + _)) by lia.
  all: case_bool_decide; split; intros; try done; lia.
Qed.

(** The return code of an insert, with the arithmetic of the checks in
    the integers. *)
Lemma insert_code sb q key key_len val val_len :
  layout sb (q_node q) ->
  0 <= key_len <= 65536 -> 0 <= val_len <= 65536 ->
  let node := q_node q in
  fst (insert sb q key key_len val val_len)
  = if bool_decide
         (n_free node + key_len + val_len > n_data node \/
          (Layout.sizeof_node_phys + (n_records node + 1) * entry_size node
             > n_key node /\
           n_free node + BTREE_TOC_ENTRY_INCREMENT * entry_size node
             + key_len + val_len > n_data node))
    then - ENOSPC else 0.
Proof.
  intros Hlay Hkl Hvl. cbv zeta.
  pose proof (toc_needs_expansion_iff _ _ Hlay) as Hneed.
  pose proof (expand_toc_none_iff _ _ _ _ Hlay Hkl Hvl) as Hnone.
  pose proof (layout_key_bound _ _ Hlay) as Hk56.
  destruct Hlay as [Hlen Hbs Hrec Htoc Hkey Hfree Hdata].
  unfold apfs_btree_insert. layout_consts.
  rewrite (s32_small (n_free _ + _)) by lia.
  rewrite (s32_small (n_free _ + _ + _)) by lia.
  case_bool_decide as H1.
  { rewrite bool_decide_eq_true_2 by (by left). done. }
  destruct (toc_needs_expansion FIXED (q_node q)) eqn:Hexp.
  - destruct (expand_toc FIXED (q_node q) key_len val_len) as [node1|] eqn:He.
    + cbn [fst]. rewrite bool_decide_eq_false_2; [done|].
      intros [H|[_ H]]; [done|]. apply Hnone in H. congruence.
    + cbn [fst]. rewrite bool_decide_eq_true_2; [done|].
      right. split; [by apply Hneed | by apply Hnone].
  - cbn [fst]. rewrite bool_decide_eq_false_2; [done|].
    intros [H|[H _]]; [done|]. apply Hneed in H. congruence.
Qed.

(** A successful insert is the straight-line part run on a node that is
    ready for it. *)
Lemma insert_inv sb q key key_len val val_len :
  layout sb (q_node q) ->
  -1 <= q_index q < n_records (q_node q) ->
  0 <= key_len <= 65536 -> 0 <= val_len <= 65536 ->
  fst (insert sb q key key_len val val_len) = 0 ->
  exists node1,
    (if toc_needs_expansion FIXED (q_node q)
     then expand_toc FIXED (q_node q) key_len val_len
     else Some (q_node q)) = Some node1 /\
    ready sb node1 (q_index q + 1) key_len val_len /\
    entry_size node1 = entry_size (q_node q) /\
    n_records node1 = n_records (q_node q) /\
    insert sb q key key_len val val_len
    = (0, set_q_node (set_q_index q (q_index q + 1))
            (insert_record FIXED fletcher sb node1 (q_index q + 1)
               key key_len val val_len)).
Proof.
  intros Hlay Hidx Hkl Hvl Hok.
  pose proof (toc_needs_expansion_iff _ _ Hlay) as Hneed.
  pose proof (layout_records_bound _ _ Hlay) as HN.
  pose proof (layout_key_bound _ _ Hlay) as Hk56.
  assert (Hlay' := Hlay).
  destruct Hlay' as [Hlen Hbs Hrec Htoc Hkey Hfree Hdata].
  unfold apfs_btree_insert in *. layout_consts.
  rewrite (s32_small (q_index q + 1)) in * by lia.
  rewrite (s32_small (n_free _ + _)) in * by lia.
  rewrite (s32_small (n_free _ + _ + _)) in * by lia.
  case_bool_decide as H1; [done|].
  destruct (toc_needs_expansion FIXED (q_node q)) eqn:Hexp.
  - destruct (expand_toc FIXED (q_node q) key_len val_len) as [node1|] eqn:He;
      [|done].
    exists node1. split; [done|].
    destruct (expand_facts _ _ _ _ _ Hlay Hkl Hvl Hexp He)
      as (Hk & Hf & Hd & Hr & Hfl & Hl & Hfit & _).
    assert (Hes : entry_size node1 = entry_size (q_node q)).
    { unfold toc_entry_size, apfs_node_has_fixed_kv_size. by rewrite Hfl. }
    repeat split; try done; rewrite ?Hes, ?Hr, ?Hk, ?Hf, ?Hd; try lia.
    all: unfold BTREE_TOC_ENTRY_INCREMENT in *; layout_consts.
    all: destruct (toc_entry_size_cases (q_node q)) as [Hsz|Hsz];
      rewrite Hsz in *; lia.
  - exists (q_node q). split; [done|].
    assert (Hle : ~ Layout.sizeof_node_phys
                    + (n_records (q_node q) + 1) * entry_size (q_node q)
                  > n_key (q_node q)).
    { intros H. apply Hneed in H. congruence. }
    repeat split; try done; layout_consts; lia.
Qed.


(** The node after the optional expansion of the table of contents,
    whichever branch was taken. *)
Lemma expansion_frame sb node key_len val_len node1 :
  layout sb node ->
  0 <= key_len <= 65536 -> 0 <= val_len <= 65536 ->
  (if toc_needs_expansion FIXED node
   then expand_toc FIXED node key_len val_len else Some node) = Some node1 ->
  let g := growth node in
  let raw := b_data node in
  let raw1 := b_data node1 in
  0 <= g /\
  n_key node1 = n_key node + g /\
  n_free node1 = n_free node + g /\
  n_data node1 = n_data node /\
  (forall i, Layout.btn_data <= i < n_key node + g -> Mem.byte_at raw1 i = Mem.byte_at raw i) /\
  (forall i, n_key node <= i < n_free node -> Mem.byte_at raw1 (i + g) = Mem.byte_at raw i) /\
  (forall i, n_free node + g <= i -> Mem.byte_at raw1 i = Mem.byte_at raw i) /\
  Mem.get_le 2 raw1 Layout.btn_table_space_len
    = (if toc_needs_expansion FIXED node
       then u16 (Mem.get_le 2 raw Layout.btn_table_space_len + g)
       else Mem.get_le 2 raw Layout.btn_table_space_len) /\
  Mem.get_le 2 raw1 Layout.btn_free_space_len
    = (if toc_needs_expansion FIXED node
       then u16 (Mem.get_le 2 raw Layout.btn_free_space_len - g)
       else Mem.get_le 2 raw Layout.btn_free_space_len) /\
  Mem.get_le 2 raw1 Layout.btn_free_space_off
    = Mem.get_le 2 raw Layout.btn_free_space_off.
Proof.
  intros Hlay Hkl Hvl Hexp. cbv zeta. unfold toc_growth.
  destruct (toc_needs_expansion FIXED node) eqn:Hneed.
  - destruct (expand_facts _ _ _ _ _ Hlay Hkl Hvl Hneed Hexp)
      as (Hk & Hf & Hd & Hr & Hfl & Hl & Hfit & Htocb & Hmoved & Hrest & Hhdr & Hts & Hfs).
    repeat split; try done.
    + unfold BTREE_TOC_ENTRY_INCREMENT.
      destruct (toc_entry_size_cases node) as [Hsz|Hsz]; rewrite Hsz; lia.
    + apply MemFacts.get_le_ext. intros i Hi. apply Hhdr.
      layout_consts. lia.
  - injection Hexp as <-.
    repeat split; try done; try lia.
    + intros i Hi. f_equal. lia.
Qed.



(** Everything a successful insert does to the node. *)
Lemma insert_effect sb q key key_len val val_len :
  layout sb (q_node q) ->
  -1 <= q_index q < n_records (q_node q) ->
  0 <= key_len <= 65536 -> 0 <= val_len <= 65536 ->
  fst (insert sb q key key_len val val_len) = 0 ->
  let node := q_node q in
  let raw := b_data node in
  let q' := snd (insert sb q key key_len val val_len) in
  let node' := q_node q' in
  let raw' := b_data node' in
  let idx := q_index q + 1 in
  let g := growth node in
  let info := s_blocksize sb - Layout.sizeof_info in
  let grown := toc_needs_expansion FIXED node in
  (q_index q' = idx /\
   n_records node' = n_records node + 1 /\
   n_key node' = n_key node + g /\
   n_free node' = n_free node + g + key_len /\
   n_data node' = n_data node - val_bytes val val_len /\
   n_flags node' = n_flags node /\
   length raw' = length raw) /\
  ((forall i, Layout.btn_data <= i < slot node idx ->
              Mem.byte_at raw' i = Mem.byte_at raw i) /\
   (forall i, slot node idx <= i < slot node (n_records node) ->
              Mem.byte_at raw' (i + entry_size node) = Mem.byte_at raw i) /\
   Mem.get_le 2 raw' (slot node idx) = n_free node - n_key node /\
   (if has_fixed_kv node then
      Mem.get_le 2 raw' (slot node idx + 2)
      = match val with None => Layout.APFS_BTOFF_INVALID | Some _ => val_len end
    else
      Mem.get_le 2 raw' (slot node idx + 2) = key_len /\
      Mem.get_le 2 raw' (slot node idx + 4)
      = s_blocksize sb - Layout.sizeof_info - (n_data node - val_len) /\
      Mem.get_le 2 raw' (slot node idx + 6) = val_len)) /\
  ((Z.of_nat (length key) = key_len ->
    Mem.load raw' (n_free node + g) key_len = key) /\
   (forall v, val = Some v -> Z.of_nat (length v) = val_len ->
              Mem.load raw' (n_data node - val_len) val_len = v) /\
   (forall i, n_key node <= i < n_free node ->
              Mem.byte_at raw' (i + g) = Mem.byte_at raw i) /\
   (forall i, n_data node <= i < info ->
              Mem.byte_at raw' i = Mem.byte_at raw i)) /\
  (Mem.get_le 4 raw' Layout.btn_nkeys = n_records node + 1 /\
   Mem.get_le 8 raw' (info + Layout.bt_key_count)
     = u64 (Mem.get_le 8 raw (info + Layout.bt_key_count) + 1) /\
   Mem.get_le 4 raw' (info + Layout.bt_longest_key)
     = Z.max (Mem.get_le 4 raw (info + Layout.bt_longest_key)) key_len /\
   Mem.get_le 4 raw' (info + Layout.bt_longest_val)
     = Z.max (Mem.get_le 4 raw (info + Layout.bt_longest_val)) val_len) /\
  (Mem.get_le 2 raw' Layout.btn_table_space_len
     = (if grown then u16 (Mem.get_le 2 raw Layout.btn_table_space_len + g)
        else Mem.get_le 2 raw Layout.btn_table_space_len) /\
   Mem.get_le 2 raw' Layout.btn_free_space_len
     = u16 (Mem.get_le 2 raw Layout.btn_free_space_len
            - g - key_len - val_bytes val val_len) /\
   Mem.get_le 2 raw' Layout.btn_free_space_off
     = u16 (Mem.get_le 2 raw Layout.btn_free_space_off + key_len)).
Proof.
  intros Hlay Hidx Hkl Hvl Hok.
  destruct (insert_inv _ _ _ _ _ _ Hlay Hidx Hkl Hvl Hok)
    as (node1 & Hexp & Hready & Hes & Hrec1 & Heq).
  destruct (expansion_frame _ _ _ _ _ Hlay Hkl Hvl Hexp)
    as (Hg & Xk & Xf & Xd & Xtoc & Xmoved & Xrest & Xts & Xfs & Xfo).
  destruct (insert_toc_entry_facts sb node1 (q_index q + 1) key_len val val_len Hready)
    as (Tlen & Tout & Tshift & Tk & Tv).
  destruct (insert_record_fields sb node1 (q_index q + 1) key key_len val val_len Hready)
    as (Fr & Fk & Ff & Fd & Ffl & _ & Flen).
  destruct (insert_record_bytes sb node1 (q_index q + 1) key key_len val val_len Hready)
    as (Btoc & Btoc2 & Bsame & Bkey & Bval & Bn & Bcount & Blk & Blv & Bfo & Bfl & Bts).
  pose proof (layout_records_bound _ _ Hlay) as HN.
  pose proof (layout_key_bound _ _ Hlay) as Hk56.
  assert (Hfixed : has_fixed_kv node1 = has_fixed_kv (q_node q)).
  { unfold apfs_node_has_fixed_kv_size.
    destruct (toc_needs_expansion FIXED (q_node q)) eqn:Hn.
    - destruct (expand_facts _ _ _ _ _ Hlay Hkl Hvl Hn Hexp)
        as (_ & _ & _ & _ & Hfl & _). by rewrite Hfl.
    - by injection Hexp as <-. }
  assert (Hfl1 : n_flags node1 = n_flags (q_node q)).
  { destruct (toc_needs_expansion FIXED (q_node q)) eqn:Hn.
    - destruct (expand_facts _ _ _ _ _ Hlay Hkl Hvl Hn Hexp)
        as (_ & _ & _ & _ & Hfl & _). done.
    - by injection Hexp as <-. }
  assert (Hlen1 : length (b_data node1) = length (b_data (q_node q))).
  { destruct (toc_needs_expansion FIXED (q_node q)) eqn:Hn.
    - destruct (expand_facts _ _ _ _ _ Hlay Hkl Hvl Hn Hexp)
        as (_ & _ & _ & _ & _ & Hl & _). done.
    - by injection Hexp as <-. }
  destruct Hlay as [Hlen Hbs Hrec Htoc Hkey Hfree Hdata].
  destruct Hready as [Rlen Rbs Ridx Rtoc Rkey Rkl Rvl Rfit Rdata].
  cbv zeta in *. rewrite Heq. cbn [snd q_node q_index set_q_node set_q_index].
  assert (Hvb : 0 <= val_bytes val val_len <= val_len)
    by (unfold val_bytes; destruct val; lia).
  unfold toc_slot in *. rewrite Hes, Hrec1 in *. layout_consts.
  set (g := growth (q_node q)) in *.
  assert (Xget : forall n o, n_free (q_node q) + g <= o ->
             Mem.get_le n (b_data node1) o = Mem.get_le n (b_data (q_node q)) o).
  { intros n o Ho. apply MemFacts.get_le_ext. intros i Hi. apply Xrest. lia. }
  rewrite Hfixed in Tv.
  assert (Hsz : entry_size (q_node q) = if has_fixed_kv (q_node q) then 4 else 8)
    by done.
  destruct (has_fixed_kv (q_node q)); rewrite Hsz in *; clear Hsz.
  2: destruct Tv as (Tv1 & Tv2 & Tv3).
  all: repeat split.
  all: try lia.
  all: try congruence.
  all: try (intros i Hi; rewrite Btoc by lia;
            first [ rewrite Tout by lia | rewrite Tshift by lia ];
            rewrite Xtoc by lia; f_equal; lia).
  all: try (rewrite Btoc2 by lia; first [ exact Tv | exact Tv1 | exact Tv3 | lia ]).
  all: try (intros Hk; rewrite <- Xf; by apply Bkey).
  all: try (intros v Hv Hl; rewrite <- Xd; by apply Bval).
  all: try (intros i Hi; rewrite Bsame by lia;
            first [ by apply Xmoved | apply Xrest; lia ]).
  all: try (rewrite Bcount, Xget by lia; done).
  all: try (rewrite Blk, Xget by lia; done).
  all: try (rewrite Blv, Xget by lia; done).
  all: try (rewrite Bts, Xts; done).
  all: try (rewrite Bfo, Xfo; done).
  all: rewrite Bfl, Xfs; subst g; unfold toc_growth.
  all: destruct (toc_needs_expansion FIXED (q_node q)); [|f_equal; lia].
  all: match goal with
       | |- context [u16 (u16 ?x - ?a - ?b)] =>
           replace (u16 x - a - b) with (u16 x - (a + b)) by lia
       end.
  all: rewrite u16_sub_l; f_equal; lia.
Qed.


(** A successful insert keeps the layout invariant. *)
Lemma insert_layout sb q key key_len val val_len :
  layout sb (q_node q) ->
  -1 <= q_index q < n_records (q_node q) ->
  0 <= key_len <= 65536 -> 0 <= val_len <= 65536 ->
  fst (insert sb q key key_len val val_len) = 0 ->
  layout sb (q_node (snd (insert sb q key key_len val val_len))).
Proof.
  intros Hlay Hidx Hkl Hvl Hok.
  destruct (insert_inv _ _ _ _ _ _ Hlay Hidx Hkl Hvl Hok)
    as (node1 & Hexp & Hready & Hes & Hrec1 & Heq).
  destruct (insert_record_fields sb node1 (q_index q + 1) key key_len val val_len Hready)
    as (Fr & Fk & Ff & Fd & Ffl & _ & Flen).
  rewrite Heq. cbn [snd q_node set_q_node].
  assert (Hvb : 0 <= val_bytes val val_len <= val_len)
    by (unfold val_bytes; destruct val; lia).
  assert (Hes' : entry_size (insert_record FIXED fletcher sb node1 (q_index q + 1)
                               key key_len val val_len) = entry_size node1).
  { unfold toc_entry_size, apfs_node_has_fixed_kv_size. by rewrite Ffl. }
  destruct Hready as [Rlen Rbs Ridx Rtoc Rkey Rkl Rvl Rfit Rdata].
  constructor; rewrite ?Hes', ?Fr, ?Fk, ?Ff, ?Fd, ?Flen; try lia.
Qed.

(** C10.  An insert that returns [-ENOSPC] has changed nothing: the query
    it hands back, with its index, its node and the bytes of the node's
    block, is the query it was given. *)
Theorem btree_insert_nospace_atomic sb q key key_len val val_len :
  fst (insert sb q key key_len val val_len) = - ENOSPC ->
  snd (insert sb q key key_len val val_len) = q.
Proof.
  unfold apfs_btree_insert.
  case_bool_decide; [done|].
  destruct (if toc_needs_expansion FIXED (q_node q)
            then expand_toc FIXED (q_node q) key_len val_len
            else Some (q_node q)); [|done].
  cbn [fst]. unfold ENOSPC. lia.
Qed.


(** C3 (as amended).  A successful insert on a well laid out
    root-and-leaf node puts the new record right after the slot that the
    query had found: the index of the query is incremented, the slots
    below the new index stay, the slots from the new index on move one
    slot to the right, and the new slot is written at the new index
    (fixed-size entries: the key offset [free - key] and the value length,
    or [0xFFFF] for a ghost; variable-size entries: offset and length of
    the key, and the value offset counted back from the tree info).  The
    key bytes are appended at the free offset, which advances by
    [key_len]; the value bytes are put right below the value area, which
    grows down by [val_len] (a ghost leaves it alone); the record count
    and [bt_key_count] go up by one, and [bt_longest_key] and
    [bt_longest_val] are raised to the maxima. *)
Theorem btree_insert_places_record sb q key key_len val val_len :
  single_node (q_node q) ->
  layout sb (q_node q) ->
  -1 <= q_index q < n_records (q_node q) ->
  0 <= key_len <= 65536 -> 0 <= val_len <= 65536 ->
  Z.of_nat (length key) = key_len ->
  (forall v, val = Some v -> Z.of_nat (length v) = val_len) ->
  fst (insert sb q key key_len val val_len) = 0 ->
  let node := q_node q in
  let raw := b_data node in
  let q' := snd (insert sb q key key_len val val_len) in
  let node' := q_node q' in
  let raw' := b_data node' in
  let idx := q_index q + 1 in
  let info := s_blocksize sb - Layout.sizeof_info in
  q_index q' = idx /\
  (forall i, Layout.btn_data <= i < slot node idx ->
             Mem.byte_at raw' i = Mem.byte_at raw i) /\
  (forall i, slot node idx <= i < slot node (n_records node) ->
             Mem.byte_at raw' (i + entry_size node) = Mem.byte_at raw i) /\
  Mem.get_le 2 raw' (slot node idx) = n_free node - n_key node /\
  (if has_fixed_kv node then
     Mem.get_le 2 raw' (slot node idx + 2)
     = match val with None => Layout.APFS_BTOFF_INVALID | Some _ => val_len end
   else
     Mem.get_le 2 raw' (slot node idx + 2) = key_len /\
     Mem.get_le 2 raw' (slot node idx + 4)
     = s_blocksize sb - Layout.sizeof_info - (n_data node - val_len) /\
     Mem.get_le 2 raw' (slot node idx + 6) = val_len) /\
  Mem.load raw' (n_free node' - key_len) key_len = key /\
  n_free node' - n_key node' = n_free node - n_key node + key_len /\
  (forall v, val = Some v -> Mem.load raw' (n_data node - val_len) val_len = v) /\
  n_data node' = n_data node - val_bytes val val_len /\
  n_records node' = n_records node + 1 /\
  Mem.get_le 4 raw' Layout.btn_nkeys = n_records node + 1 /\
  Mem.get_le 8 raw' (info + Layout.bt_key_count)
    = u64 (Mem.get_le 8 raw (info + Layout.bt_key_count) + 1) /\
  Mem.get_le 4 raw' (info + Layout.bt_longest_key)
    = Z.max (Mem.get_le 4 raw (info + Layout.bt_longest_key)) key_len /\
  Mem.get_le 4 raw' (info + Layout.bt_longest_val)
    = Z.max (Mem.get_le 4 raw (info + Layout.bt_longest_val)) val_len.
Proof.
  intros _ Hlay Hidx Hkl Hvl Hkey Hval Hok.
  destruct (insert_effect _ _ _ _ _ _ Hlay Hidx Hkl Hvl Hok)
    as ((Ei & Er & Ek & Ef & Ed & _) & (Et1 & Et2 & Et3 & Et4)
        & (Ekey & Eval & _) & (En & Ec & Elk & Elv) & _).
  cbv zeta. rewrite Ef, Ek.
  repeat split; try done; try lia.
  - replace (n_free (q_node q) + growth (q_node q) + key_len - key_len)
      with (n_free (q_node q) + growth (q_node q)) by lia.
    by apply Ekey.
  - intros v Hv. apply Eval; [done | by apply Hval].
Qed.

(** C6 (as amended).  On a well laid out root-and-leaf node, an insert
    followed by the removal of the slot it made gives back the record
    count, [bt_key_count] and the bytes of the slots of the table of
    contents that the records of the node had.  The rest of the table
    of contents is as the insert left it: the key base stays where an
    extension has put it, and the bytes after the slots of the records
    are those that the insert wrote or moved there.  The value area is
    not given back: the bytes written for the record stay where they
    are, below the slots that the table of contents still lists. *)
Theorem btree_insert_remove_inverse sb q key key_len val val_len qr :
  single_node (q_node q) ->
  layout sb (q_node q) ->
  -1 <= q_index q < n_records (q_node q) ->
  0 <= key_len <= 65536 -> 0 <= val_len <= 65536 ->
  (forall v, val = Some v -> Z.of_nat (length v) = val_len) ->
  let node := q_node q in
  let raw := b_data node in
  let info := s_blocksize sb - Layout.sizeof_info in
  0 <= Mem.get_le 8 raw (info + Layout.bt_key_count) < 2 ^ 64 ->
  fst (insert sb q key key_len val val_len) = 0 ->
  q_node qr = q_node (snd (insert sb q key key_len val val_len)) ->
  q_index qr = q_index (snd (insert sb q key key_len val val_len)) ->
  let node2 := q_node (snd (remove sb qr)) in
  let raw2 := b_data node2 in
  fst (remove sb qr) = 0 /\
  n_records node2 = n_records node /\
  Mem.get_le 4 raw2 Layout.btn_nkeys = n_records node /\
  Mem.get_le 8 raw2 (info + Layout.bt_key_count)
    = Mem.get_le 8 raw (info + Layout.bt_key_count) /\
  (forall i, Layout.btn_data <= i < slot node (n_records node) ->
             Mem.byte_at raw2 i = Mem.byte_at raw i) /\
  n_data node2 = n_data node - val_bytes val val_len /\
  (forall v, val = Some v -> Mem.load raw2 (n_data node - val_len) val_len = v) /\
  n_key node2 = n_key node + growth node /\
  (forall i, slot node (n_records node) <= i < info ->
             Mem.byte_at raw2 i
             = Mem.byte_at
                 (b_data (q_node (snd (insert sb q key key_len val val_len)))) i).
Proof.
  intros Hsn Hlay Hidx Hkl Hvl Hval. cbv zeta. intros Hcount Hok Hqn Hqi.
  pose proof (insert_layout _ _ _ _ _ _ Hlay Hidx Hkl Hvl Hok) as Hlay1.
  destruct (insert_effect _ _ _ _ _ _ Hlay Hidx Hkl Hvl Hok)
    as ((Ei & Er & Ek & Ef & Ed & Efl & _) & (Et1 & Et2 & Et3 & Et4)
        & (Ekey & Eval & _) & (En & Ec & Elk & Elv) & _).
  cbv zeta in *.
  set (q1 := snd (insert sb q key key_len val val_len)) in *.
  assert (Hes : entry_size (q_node q1) = entry_size (q_node q)).
  { unfold toc_entry_size, apfs_node_has_fixed_kv_size. by rewrite Efl. }
  assert (Hsn1 : single_node (q_node qr)).
  { rewrite Hqn. destruct Hsn as [Hr Hl]. split.
    - unfold apfs_node_is_root in *. by rewrite Efl.
    - unfold apfs_node_is_leaf in *. by rewrite Efl. }
  rewrite <- Hqn in Hlay1.
  assert (Hidx1 : 0 <= q_index qr < n_records (q_node qr)).
  { rewrite Hqi, Hqn, Ei, Er. lia. }
  destruct (remove_effect sb qr Hsn1 Hlay1 Hidx1)
    as (R0 & Rshift & Rbelow & Rr & Rn & Rc & _ & _ & Rk & _ & Rd & Rrest & _).
  cbv zeta in *.
  pose proof (layout_records_bound _ _ Hlay) as HN.
  pose proof (layout_key_bound _ _ Hlay) as Hk56.
  destruct Hlay as [Hlen Hbs Hrec Htoc Hkey Hfree Hdata].
  unfold toc_slot in *. rewrite Hqn, Hqi in *. rewrite Hes, Er, Ei in *.
  layout_consts.
  assert (Hvb : 0 <= val_bytes val val_len <= val_len)
    by (unfold val_bytes; destruct val; lia).
  repeat split; try done; try lia.
  - rewrite Rc, Ec. rewrite <- (u64_small (Mem.get_le 8 _ _)) at 2 by lia.
    unfold u64. rewrite Zminus_mod_idemp_l. f_equal. lia.
  - intros i Hi.
    destruct (decide (i < 56 + (q_index q + 1) * entry_size (q_node q))) as [Hlt|Hge].
    + rewrite Rbelow by lia. apply Et1. lia.
    + rewrite Rshift by lia. apply Et2. lia.
  - intros v Hv. specialize (Hval v Hv).
    rewrite <- (Eval v Hv Hval).
    apply MemFacts.load_ext. intros i Hi. apply Rrest.
    destruct Hlay1 as [_ _ _ Ltoc Lkey Lfree _].
    rewrite Hes, Er, Ek, Ef, Ed in *. subst val. cbn [val_bytes] in *.
    layout_consts.
    destruct (toc_entry_size_cases (q_node q)) as [Hsz|Hsz]; rewrite Hsz in *; lia.
  - intros i Hi. apply Rrest.
    destruct (toc_entry_size_cases (q_node q)) as [Hsz|Hsz]; rewrite Hsz in *; lia.
Qed.

(** C7.  A removal on a well laid out root-and-leaf node, at the slot
    that the query holds, moves the later slots of the table of contents
    one slot to the left, takes one off the record count and off
    [bt_key_count], adds the key length of the query to the length field
    of the key free list and its value length to that of the value free
    list, and does nothing else to the node: the bounds of the key and
    value areas stay, no byte between the end of the table of contents
    and the tree info changes, and the heads of the free lists keep
    their offsets. *)
Theorem btree_remove_shifts_and_counts sb q :
  single_node (q_node q) ->
  layout sb (q_node q) ->
  0 <= q_index q < n_records (q_node q) ->
  let node := q_node q in
  let raw := b_data node in
  let sz := entry_size node in
  let info := s_blocksize sb - Layout.sizeof_info in
  let node' := q_node (snd (remove sb q)) in
  let raw' := b_data node' in
  fst (remove sb q) = 0 /\
  (forall i, slot node (q_index q) <= i < slot node (n_records node - 1) ->
             Mem.byte_at raw' i = Mem.byte_at raw (i + sz)) /\
  (forall i, Layout.btn_data <= i < slot node (q_index q) ->
             Mem.byte_at raw' i = Mem.byte_at raw i) /\
  n_records node' = n_records node - 1 /\
  Mem.get_le 4 raw' Layout.btn_nkeys = n_records node - 1 /\
  Mem.get_le 8 raw' (info + Layout.bt_key_count)
    = u64 (Mem.get_le 8 raw (info + Layout.bt_key_count) - 1) /\
  Mem.get_le 2 raw' Layout.btn_key_free_list_len
    = u16 (Mem.get_le 2 raw Layout.btn_key_free_list_len + q_key_len q) /\
  Mem.get_le 2 raw' Layout.btn_val_free_list_len
    = u16 (Mem.get_le 2 raw Layout.btn_val_free_list_len + q_len q) /\
  n_key node' = n_key node /\ n_free node' = n_free node /\
  n_data node' = n_data node /\
  (forall i, slot node (n_records node - 1) <= i < info ->
             Mem.byte_at raw' i = Mem.byte_at raw i) /\
  Mem.get_le 2 raw' Layout.btn_key_free_list_off
    = Mem.get_le 2 raw Layout.btn_key_free_list_off /\
  Mem.get_le 2 raw' Layout.btn_val_free_list_off
    = Mem.get_le 2 raw Layout.btn_val_free_list_off.
Proof. intros Hsn Hlay Hidx. exact (remove_effect sb q Hsn Hlay Hidx). Qed.


End MutationFacts.

(** ** The query engine *)

Section QueryFacts.

Variable LEAF : Z.
Variable node_query : super_block -> apfs_query -> node_query_result.
Variable read_node : super_block -> Z -> Z + apfs_node.
Variable kmalloc : apfs_node -> option apfs_query -> option apfs_query.

Abbreviation step := (btree_query_step LEAF node_query read_node kmalloc).
Abbreviation loop := (btree_query_loop LEAF node_query read_node kmalloc).

(** C1 (as amended).  When the node query asks to go back up and the
    query has no parent, the search ends with [-ENODATA] and logs
    nothing; when the query has a parent, the search goes on from the
    parent as it stands, its index where the descent had left it. *)
Theorem btree_query_backtrack lookup fuel sb q log :
  q_depth q < 12 ->
  r_code (node_query sb q) = - EAGAIN ->
  (q_parent q = None ->
   loop lookup (S fuel) sb q log
   = Some (- ENODATA, set_position q (node_query sb q), log)) /\
  (forall p, q_parent q = Some p ->
   step lookup sb q log = Some (Ascend, p, log) /\
   loop lookup (S fuel) sb q log = loop lookup fuel sb p log) /\
  - ENODATA <> - EFSCORRUPTED.
Proof.
  intros Hd Hr. cbn [btree_query_loop]. unfold btree_query_step.
  rewrite bool_decide_eq_false_2 by lia.
  cbv zeta. rewrite bool_decide_eq_true_2 by done.
  cbn [set_position q_parent].
  repeat split.
  - by intros ->.
  - by rewrite H.
  - by rewrite H.
  - done.
Qed.

(** C9.  When the node query has positioned the query on a record of a
    node that is not a leaf, a value that is not 8 bytes long ends the
    search with [-EFSCORRUPTED] and an alert that names the block of the
    node; a value of 8 bytes is read as the little-endian child id, and
    once its block is known and read the search moves down to the child,
    one level deeper and with the index past its last record.  The move
    down is made in single-record mode, and in multi-record mode when
    the query of the child is allocated; when that allocation fails the
    pass ends without a query, and the function does not return. *)
Theorem btree_query_child_pointer lookup fuel sb q log :
  q_depth q < 12 ->
  r_code (node_query sb q) = 0 ->
  apfs_node_is_leaf LEAF (q_node q) = false ->
  let r := node_query sb q in
  let q1 := set_position q r in
  let child_id := Mem.get_le 8 (b_data (q_node q)) (r_off r) in
  (r_len r <> 8 ->
   apfs_child_from_query q1 = inl (- EFSCORRUPTED) /\
   loop lookup (S fuel) sb q log
   = Some (- EFSCORRUPTED, q1,
           log ++ [alert_bad_index_block (o_block_nr (q_node q))])) /\
  (r_len r = 8 ->
   apfs_child_from_query q1 = inr child_id /\
   forall child_blk l node,
     (if f_omap (q_flags q) then Some (inr child_id, [])
      else lookup child_id) = Some (inr child_blk, l) ->
     read_node sb child_blk = inr node ->
     (f_multiple (q_flags q) = false \/ kmalloc node (Some q1) <> None ->
      exists q2 log2,
        step lookup sb q log = Some (Descend, q2, log2) /\
        loop lookup (S fuel) sb q log = loop lookup fuel sb q2 log2 /\
        q_node q2 = node /\
        q_index q2 = s32 (n_records node) /\
        q_depth q2 = s32 (q_depth q + 1) /\
        q_key q2 = q_key q) /\
     (f_multiple (q_flags q) = true -> kmalloc node (Some q1) = None ->
      exists log2,
        step lookup sb q log = Some (Oops, q1, log2) /\
        loop lookup (S fuel) sb q log = None)).
Proof.
  intros Hd Hr Hleaf. cbv zeta.
  cbn [btree_query_loop]. unfold btree_query_step.
  rewrite bool_decide_eq_false_2 by lia.
  cbv zeta. rewrite Hr.
  rewrite bool_decide_eq_false_2 by (unfold EAGAIN; lia).
  rewrite bool_decide_eq_false_2 by (intros H; by apply H).
  cbn [set_position q_node q_flags f_omap f_multiple]. rewrite Hleaf.
  unfold apfs_child_from_query. cbn [set_position q_len q_off q_node].
  split.
  - intros Hlen. rewrite bool_decide_eq_true_2 by done. done.
  - intros Hlen. rewrite bool_decide_eq_false_2 by (intros H; by apply H).
    split; [done|].
    intros child_blk l node Hlk Hrd. rewrite Hlk, Hrd.
    unfold apfs_alloc_query. split.
    + intros Hok. destruct (f_multiple (q_flags q)).
      * destruct Hok as [Hok|Hok]; [done|].
        destruct (kmalloc node _) as [mem|]; [|done].
        eexists _, _; repeat split.
      * eexists _, _; repeat split.
    + intros -> ->. by eexists.
Qed.

(** *** Termination *)

Lemma depth_left_descend d :
  d < 12 -> (depth_left (s32 (d + 1)) < depth_left d)%nat.
Proof.
  intros Hd. unfold depth_left.
  assert (- 2 ^ 31 <= s32 (d + 1) < 2 ^ 31).
  { unfold s32. pose proof (Z.mod_pos_bound (d + 1 + 2 ^ 31) (2 ^ 32)). lia. }
  destruct (decide (d < - 2 ^ 31)) as [Hlow|Hlow].
  - repeat case_bool_decide; lia.
  - rewrite s32_small in * by lia. repeat case_bool_decide; lia.
Qed.

(** An object map query never asks for a lookup. *)
Lemma loop_omap_mode lk1 lk2 sb f q l :
  all_omap q = true -> loop lk1 f sb q l = loop lk2 f sb q l.
Proof.
  revert q l. induction f as [|f IH]; intros q l Hq; [done|].
  cbn [btree_query_loop].
  assert (Hflag : f_omap (q_flags q) = true).
  { destruct q; cbn in *. by apply andb_true_iff in Hq as [? _]. }
  assert (Hs : forall lk, step lk sb q l = step lk1 sb q l).
  { intros lk. unfold btree_query_step. cbv zeta.
    cbn [set_position q_flags f_omap]. by rewrite Hflag. }
  rewrite (Hs lk2).
  destruct (step lk1 sb q l) as [[[o q'] l']|] eqn:Hstep; [|done].
  assert (Hq' : o <> Done 0 -> (forall r, o <> Done r) -> all_omap q' = true).
  { intros _ Ho. unfold btree_query_step, apfs_alloc_query in Hstep.
    repeat (case_bool_decide || case_match || simplify_eq/=); try done.
    all: try (by destruct (Ho _)).
    all: destruct q; cbn in *.
    all: apply andb_true_iff in Hq as [Hq1 Hq2].
    all: simplify_eq/=; rewrite ?Hq1, ?Hq2; done. }
  destruct o; [done | | | done]; apply IH, Hq'; done.
Qed.

Lemma chain_length_unfold q :
  chain_length q
  = match q_parent q with None => 1%nat | Some p => S (chain_length p) end.
Proof. by destruct q. Qed.

Lemma chain_length_parent q1 q2 :
  q_parent q1 = q_parent q2 -> chain_length q1 = chain_length q2.
Proof.
  intros H. rewrite (chain_length_unfold q1), (chain_length_unfold q2).
  by rewrite H.
Qed.

(** A chain of queries in single-record mode never asks for memory. *)
Lemma loop_single_mode km lk sb f q l :
  all_single q = true ->
  loop lk f sb q l = btree_query_loop LEAF node_query read_node km lk f sb q l.
Proof.
  revert q l. induction f as [|f IH]; intros q l Hq; [done|].
  cbn [btree_query_loop].
  assert (Hflag : f_multiple (q_flags q) = false).
  { destruct q; cbn in *. apply andb_true_iff in Hq as [Hq _].
    by apply negb_true_iff in Hq. }
  assert (Hs : btree_query_step LEAF node_query read_node km lk sb q l
               = step lk sb q l).
  { unfold btree_query_step. cbv zeta.
    cbn [set_position q_flags f_multiple]. by rewrite Hflag. }
  rewrite Hs.
  destruct (step lk sb q l) as [[[o q'] l']|] eqn:Hstep; [|done].
  assert (Hq' : o = Ascend \/ o = Descend -> all_single q' = true).
  { intros Ho. unfold btree_query_step in Hstep. revert Hstep.
    cbv zeta. cbn [set_position q_flags f_multiple q_parent].
    rewrite Hflag. intros Hstep.
    repeat (case_bool_decide || case_match || simplify_eq/=);
      try (by destruct Ho).
    all: destruct q; cbn in *.
    all: apply andb_true_iff in Hq as [Hq1 Hq2].
    all: simplify_eq/=; rewrite ?Hq1, ?Hq2; done. }
  destruct o; [done | | | done]; apply IH, Hq'; auto.
Qed.

End QueryFacts.

Section Termination.

Variable LEAF : Z.
Variable node_query : super_block -> apfs_query -> node_query_result.
Variable read_node : super_block -> Z -> Z + apfs_node.
Variable kmalloc : apfs_node -> option apfs_query -> option apfs_query.

Abbreviation step := (btree_query_step LEAF node_query read_node kmalloc).
Abbreviation loop := (btree_query_loop LEAF node_query read_node kmalloc).

(** The contract of the node query that the loop relies on: a
    successful call leaves the index below its value on entry, and not
    below 0. *)
Hypothesis progress : forall sb q,
  r_code (node_query sb q) = 0 ->
  0 <= r_index (node_query sb q) < q_index q.

(** There is memory for the query of each child. *)
Hypothesis child_alloc : forall node p, kmalloc node (Some p) <> None.

Section Family.

Variable lk : nat -> Z -> option ((Z + Z) * list log_entry).
Hypothesis lk_settles : settles lk.
Variable sb : super_block.

Abbreviation reaches := (loop_reaches LEAF node_query read_node kmalloc lk sb).
Abbreviation returns := (loop_returns LEAF node_query read_node kmalloc lk sb).
Abbreviation ascends := (loop_ascends LEAF node_query read_node kmalloc lk sb).

Lemma reaches_trans n1 k1 n2 k2 q1 l1 q2 l2 q3 l3 :
reaches n1 k1 q1 l1 q2 l2 -> reaches n2 k2 q2 l2 q3 l3 ->
reaches (n1 `max` n2) (k1 + k2) q1 l1 q3 l3.
Proof.
intros H1 H2 F f HF.
rewrite <- Nat.add_assoc. rewrite H1 by lia. apply H2. lia.
Qed.

Lemma reaches_returns n k q l q' l' :
reaches n k q l q' l' -> returns q' l' -> returns q l.
Proof.
intros H1 (n2 & res & H2).
exists (n `max` n2 + k)%nat, res. intros F f HF Hf.
replace f with (k + (f - k))%nat by lia.
rewrite H1 by lia. apply H2; lia.
Qed.

Lemma step_done_returns n q l ret q' l' :
(forall F, (n <= F)%nat -> step (lk F) sb q l = Some (Done ret, q', l')) ->
returns q l.
Proof.
intros H. exists (S n), (ret, q', l'). intros F f HF Hf.
destruct f as [|f]; [lia|]. cbn [btree_query_loop].
rewrite H by lia. done.
Qed.

Lemma step_reaches n q l o q' l' :
o = Ascend \/ o = Descend ->
(forall F, (n <= F)%nat -> step (lk F) sb q l = Some (o, q', l')) ->
reaches n 1 q l q' l'.
Proof.
intros Ho H F f HF. cbn [Nat.add btree_query_loop].
rewrite H by done. by destruct Ho as [-> | ->].
Qed.

(** Each pass through the body of the loop returns, moves up to the
  parent, or moves down one level. *)
Lemma step_cases q l :
(exists n ret q' l', forall F, (n <= F)%nat ->
    step (lk F) sb q l = Some (Done ret, q', l')) \/
(exists p, q_parent q = Some p /\
    forall F, step (lk F) sb q l = Some (Ascend, p, l)) \/
(exists n q2 l2,
    (forall F, (n <= F)%nat -> step (lk F) sb q l = Some (Descend, q2, l2)) /\
    q_depth q < 12 /\
    q_depth q2 = s32 (q_depth q + 1) /\
    (q_parent q2 = q_parent q \/
     exists q1, q_parent q2 = Some q1 /\ q_parent q1 = q_parent q /\
                q_depth q1 = q_depth q /\ 0 <= q_index q1 < q_index q)).
Proof.
unfold btree_query_step.
case_bool_decide as Hd.
{ left. by exists O, (- EFSCORRUPTED), q, (l ++ [alert_btree_corrupted]). }
cbv zeta.
pose proof (progress sb q) as Hprog.
destruct (node_query sb q) as [code i ko kl o ln dn nx] eqn:Hr.
cbn [r_code r_index] in *.
case_bool_decide as Hagain.
{ cbn [set_position q_parent].
  destruct (q_parent q) as [p|] eqn:Hp.
  - right. left. by exists p.
  - left. by eexists O, _, _, _. }
case_bool_decide as Hcode.
{ left. by eexists O, _, _, _. }
assert (Hcode0 : code = 0) by (destruct (decide (code = 0)); [done | by destruct Hcode]).
specialize (Hprog Hcode0).
destruct (apfs_node_is_leaf LEAF _).
{ left. by eexists O, _, _, _. }
destruct (apfs_child_from_query _) as [err|child_id].
{ left. by eexists O, _, _, _. }
cbn [set_position q_flags f_omap f_multiple].
assert (Hlk : exists n v, forall F, (n <= F)%nat ->
           (if f_omap (q_flags q) then Some (inr child_id, [])
            else lk F child_id) = Some v).
{ destruct (f_omap (q_flags q)).
  - by exists O, (inr child_id, []).
  - apply lk_settles. }
destruct Hlk as (n & [[err|child_blk] l0] & Hlk).
{ left. eexists n, _, _, _. intros F HF. by rewrite Hlk. }
destruct (read_node sb child_blk) as [err|node] eqn:Hrd.
{ left. eexists n, _, _, _. intros F HF. by rewrite Hlk, Hrd. }
right. right.
destruct (f_multiple (q_flags q)) eqn:Hm.
- destruct (kmalloc node
              (Some (set_position q (mkResult code i ko kl o ln dn nx))))
    as [mem|] eqn:Hmem; [|by destruct (child_alloc _ _ Hmem)].
  eexists n, _, _.
  split; [intros F HF; unfold apfs_alloc_query;
          by rewrite Hlk, Hrd, Hmem|].
  cbn [query_init q_depth q_parent set_position].
  split; [lia|]. split; [done|]. right.
  eexists. split; [done|]. cbn [q_parent q_depth q_index]. done.
- eexists n, _, _. split; [intros F HF; by rewrite Hlk, Hrd|].
  cbn [descend_in_place q_depth q_parent set_position].
  split; [lia|]. split; [done|]. by left.
Qed.

Lemma loop_core (m : nat) :
forall (k : nat) q l,
  (depth_left (q_depth q) <= m)%nat -> (Z.to_nat (q_index q) <= k)%nat ->
  returns q l \/ ascends q l.
Proof.
induction m as [m IHm] using lt_wf_ind.
induction k as [k IHk] using lt_wf_ind.
intros q l Hm Hk.
destruct (step_cases q l)
  as [(n & ret & q' & l' & Hs) | [(p & Hp & Hs) | (n & q2 & l2 & Hs & Hd & Hd2 & Hpar)]].
- left. eapply step_done_returns. exact Hs.
- right. exists O, 1%nat, p, l. split; [done|].
  apply (step_reaches O q l Ascend p l); [by left | intros F _; apply Hs].
- assert (Hr12 : reaches n 1 q l q2 l2)
    by (apply (step_reaches n q l Descend q2 l2); [by right | exact Hs]).
  pose proof (depth_left_descend _ Hd) as Hlt. rewrite <- Hd2 in Hlt.
  destruct (IHm (depth_left (q_depth q2)) ltac:(lia)
              (Z.to_nat (q_index q2)) q2 l2 ltac:(lia) ltac:(lia))
    as [Hret | (n2 & k2 & p2 & l3 & Hp2 & Hr2)].
  { left. eapply reaches_returns; [exact Hr12 | exact Hret]. }
  pose proof (reaches_trans _ _ _ _ _ _ _ _ _ _ Hr12 Hr2) as Hr13.
  destruct Hpar as [Hpar | (q1 & Hq1 & Hpar & Hd1 & Hi1)].
  + right. exists (n `max` n2)%nat, (1 + k2)%nat, p2, l3.
    split; [congruence | done].
  + assert (p2 = q1) by congruence. subst p2.
    destruct (IHk (Z.to_nat (q_index q1)) ltac:(lia) q1 l3
                ltac:(rewrite Hd1; lia) ltac:(lia))
      as [Hret | (n4 & k4 & p4 & l4 & Hp4 & Hr4)].
    * left. eapply reaches_returns; [exact Hr13 | exact Hret].
    * right. eexists _, _, p4, l4. split; [congruence|].
      eapply reaches_trans; [exact Hr13 | exact Hr4].
Qed.

(** The loop returns, whatever the chain of parents it starts with. *)
Lemma loop_always_returns q l : returns q l.
Proof.
remember (chain_length q) as c eqn:Hc.
revert q l Hc. induction c as [c IHc] using lt_wf_ind. intros q l Hc.
destruct (loop_core (depth_left (q_depth q)) (Z.to_nat (q_index q)) q l
            ltac:(lia) ltac:(lia))
  as [Hret | (n & k & p & l' & Hp & Hr)]; [done|].
eapply reaches_returns; [exact Hr|].
apply (IHc (chain_length p)); [|done].
subst c. destruct q. cbn in Hp. subst. cbn. lia.
Qed.

End Family.

End Termination.

Section QueryReturns.

Variable LEAF : Z.
Variable node_query : super_block -> apfs_query -> node_query_result.
Variable read_node : super_block -> Z -> Z + apfs_node.
Variable kmalloc : apfs_node -> option apfs_query -> option apfs_query.
Variable read_object_block : super_block -> Z -> bool -> Z + Z.
Variables sizeof_omap_val ov_paddr : Z.

Abbreviation step := (btree_query_step LEAF node_query read_node kmalloc).
Abbreviation loop := (btree_query_loop LEAF node_query read_node kmalloc).
Abbreviation moves := (btree_query_moves LEAF node_query read_node kmalloc).
Abbreviation omap_lookup :=
  (apfs_omap_lookup_block LEAF node_query read_node kmalloc read_object_block
     sizeof_omap_val ov_paddr).
Abbreviation lookup_child :=
  (omap_lookup_child LEAF node_query read_node kmalloc read_object_block
     sizeof_omap_val ov_paddr).
Abbreviation btree_query :=
  (apfs_btree_query LEAF node_query read_node kmalloc read_object_block
     sizeof_omap_val ov_paddr).

Hypothesis progress : forall sb q,
  r_code (node_query sb q) = 0 ->
  0 <= r_index (node_query sb q) < q_index q.

(** The loop returns when its chain of queries is in single-record
    mode, and when there is memory for the query of each child. *)
Lemma loop_returns_with_memory lk sb q l :
  settles lk ->
  all_single q = true \/ (forall node p, kmalloc node (Some p) <> None) ->
  loop_returns LEAF node_query read_node kmalloc lk sb q l.
Proof.
  intros Hlk [Hq|Hmem].
  - destruct (loop_always_returns LEAF node_query read_node
                (fun _ _ => Some q) progress ltac:(done) lk Hlk sb q l)
      as (n & res & Hn).
    exists n, res. intros F f HF Hf.
    rewrite (loop_single_mode _ _ _ _ (fun _ _ => Some q)) by done.
    by apply Hn.
  - by apply loop_always_returns.
Qed.

(** The query that [apfs_omap_lookup_block] runs. *)
Lemma omap_query_modes sb mem tbl id :
  let q := omap_query sb (query_init mem tbl None) id in
  all_omap q = true /\ all_single q = true /\ q_parent q = None /\
  q_depth q = 0 /\ q_node q = tbl.
Proof. done. Qed.

(** The lookups in the object map return: at once, when there is no
    memory for their query. *)
Lemma omap_lookup_returns sb tbl id write :
  exists n res, forall F, (n <= F)%nat ->
    omap_lookup F sb tbl id write = Some res.
Proof.
  set (lk0 := fun (_ : nat) (_ : Z) =>
                Some (@inl Z Z 0, @nil log_entry)).
  assert (Hlk0 : settles lk0) by (intros i; by exists O, (inl 0, [])).
  destruct (kmalloc tbl None) as [mem|] eqn:Hmem.
  - destruct (loop_returns_with_memory lk0 sb
                (omap_query sb (query_init mem tbl None) id) [] Hlk0
                ltac:(by left))
      as (n & [[ret q] l] & Hn).
    eexists (S n), _. intros F HF. destruct F as [|F]; [lia|].
    cbn [apfs_omap_lookup_block]. unfold apfs_alloc_query. rewrite Hmem.
    rewrite (loop_omap_mode _ _ _ _ _ (lk0 F)) by done.
    rewrite Hn by lia. reflexivity.
  - eexists 1%nat, _. intros F HF. destruct F as [|F]; [lia|].
    cbn [apfs_omap_lookup_block]. unfold apfs_alloc_query. rewrite Hmem.
    reflexivity.
Qed.

Lemma lookup_child_settles sb : settles (fun F => lookup_child F sb).
Proof.
  intros id.
  destruct (omap_lookup_returns sb (s_omap_root sb) id false)
    as (n & [[res node] l] & Hn).
  exists n, (res, l). intros F HF. unfold omap_lookup_child.
  by rewrite Hn.
Qed.

(** The loop that returns has counted its moves. *)
Lemma moves_of_loop lookup sb fuel :
  forall q l res d0 u0,
    loop lookup fuel sb q l = Some res ->
    exists d u, moves lookup fuel sb q l d0 u0 = Some (d, u).
Proof.
  induction fuel as [|fuel IH]; intros q l res d0 u0 Hl; [done|].
  cbn [btree_query_loop btree_query_moves] in *.
  destruct (step lookup sb q l) as [[[o q'] l']|]; [|done].
  destruct o; [by eexists _, _ | by eapply IH | by eapply IH | done].
Qed.

(** The moves up are fewer than the moves down and the queries of the
    chain together: a move up takes a query off the chain, and a move
    down puts at most one on it. *)
Lemma moves_chain lookup sb fuel :
  forall q l d0 u0 d u,
    moves lookup fuel sb q l d0 u0 = Some (d, u) ->
    (u + d0 + 1 <= d + u0 + chain_length q)%nat.
Proof.
  induction fuel as [|fuel IH]; intros q l d0 u0 d u Hmv; [done|].
  cbn [btree_query_moves] in Hmv.
  destruct (step lookup sb q l) as [[[o q'] l']|] eqn:Hstep; [|done].
  destruct o as [ret| | |]; [| | |done].
  - simplify_eq. destruct q; cbn. case_match; lia.
  - apply IH in Hmv.
    assert (chain_length q = S (chain_length q')); [|lia].
    unfold btree_query_step in Hstep.
    repeat (case_bool_decide || case_match || simplify_eq/=).
    destruct q; cbn in *. by simplify_eq/=.
  - apply IH in Hmv.
    assert (chain_length q' <= S (chain_length q))%nat; [|lia].
    unfold btree_query_step, apfs_alloc_query in Hstep.
    repeat (case_bool_decide || case_match || simplify_eq/=).
    all: match goal with
         | H : q_parent ?x = _ |- _ => rewrite (chain_length_unfold x), H
         end; lia.
Qed.

(** In single-record mode, from a query without a parent, the loop
    never moves up, and moves down at most as many times as its depth
    counter is below 12. *)
Lemma moves_single lookup sb fuel :
  forall q l d0 u0 d u,
    f_multiple (q_flags q) = false -> q_parent q = None ->
    - 2 ^ 31 <= q_depth q ->
    moves lookup fuel sb q l d0 u0 = Some (d, u) ->
    u = u0 /\ (d <= d0 + Z.to_nat (12 - q_depth q))%nat.
Proof.
  induction fuel as [|fuel IH]; intros q l d0 u0 d u Hm Hp Hd Hmv; [done|].
  cbn [btree_query_moves] in Hmv.
  destruct (step lookup sb q l) as [[[o q'] l']|] eqn:Hstep; [|done].
  destruct o as [ret| | |]; [| | |done].
  - simplify_eq. split; [done | lia].
  - exfalso. unfold btree_query_step in Hstep.
    repeat (case_bool_decide || case_match || simplify_eq/=); congruence.
  - assert (Hq' : f_multiple (q_flags q') = false /\ q_parent q' = None /\
                   q_depth q < 12 /\ q_depth q' = q_depth q + 1).
    { unfold btree_query_step in Hstep.
      repeat (case_bool_decide || case_match || simplify_eq/=); try congruence.
      all: rewrite s32_small by lia.
      all: repeat split; (done || lia). }
    destruct Hq' as (Hm' & Hp' & Hlt & Hd').
    destruct (IH q' l' (S d0) u0 d u Hm' Hp' ltac:(lia) Hmv) as [-> Hle].
    split; [done|]. rewrite Hd' in Hle. lia.
Qed.


End QueryReturns.

(** ** The node query of the specification *)

Section SpecNodeFacts.

Variables ROOT LEAF FIXED : Z.
Variable sizeof_omap_val : Z.

Abbreviation scan := (SpecNode.scan_le FIXED).
Abbreviation key_of := (SpecNode.record_key FIXED).
Abbreviation spec_query := (SpecNode.apfs_node_query ROOT LEAF FIXED sizeof_omap_val).

(** The scan finds the greatest index below [n] whose key is at most the
    target. *)
Lemma scan_le_Some node target n i :
  scan node target n = Some i <->
  0 <= i < Z.of_nat n /\
  SpecNode.apfs_keycmp (key_of node i) target <= 0 /\
  forall j, i < j < Z.of_nat n ->
            SpecNode.apfs_keycmp (key_of node j) target > 0.
Proof.
  induction n as [|n IH]; cbn [SpecNode.scan_le].
  - split; [done | lia].
  - case_bool_decide as Hcmp.
    + split.
      * intros [= <-]. repeat split; (lia || done).
      * intros (Hi & Hle & Hgt).
        destruct (decide (i = Z.of_nat n)) as [->|Hne]; [done|].
        specialize (Hgt (Z.of_nat n)). lia.
    + rewrite IH. split.
      * intros (Hi & Hle & Hgt). repeat split; try lia; try done.
        intros j Hj. destruct (decide (j = Z.of_nat n)) as [->|Hne]; [lia|].
        apply Hgt. lia.
      * intros (Hi & Hle & Hgt).
        assert (i <> Z.of_nat n) by (intros ->; lia).
        repeat split; try lia; try done. intros j Hj. apply Hgt. lia.
Qed.

(** The node query of the specification keeps the contract that the
    termination of the loop needs. *)
Lemma spec_query_progress sb q :
  r_code (spec_query sb q) = 0 ->
  0 <= r_index (spec_query sb q) < q_index q.
Proof.
  unfold SpecNode.apfs_node_query, SpecNode.failed, SpecNode.found.
  destruct (q_key q) as [target|]; [|cbn; unfold ENODATA; lia].
  destruct (f_multiple (q_flags q) && f_next (q_flags q)).
  - repeat case_bool_decide; cbn; unfold EAGAIN, ENODATA; lia.
  - destruct (scan (q_node q) target (Z.to_nat (q_index q))) as [i|] eqn:Hs.
    + cbn. intros _. apply scan_le_Some in Hs. lia.
    + destruct (_ && _); cbn; unfold EAGAIN, ENODATA; lia.
Qed.

End SpecNodeFacts.
(** ** The copy-on-write of the object map *)

Section OmapFacts.

Variables ROOT LEAF FIXED : Z.
Variable read_node : super_block -> Z -> Z + apfs_node.
Variable kmalloc : apfs_node -> option apfs_query -> option apfs_query.
Variable read_object_block : super_block -> Z -> bool -> Z + Z.
Variables sizeof_omap_val ov_paddr : Z.

Abbreviation spec_query := (SpecNode.apfs_node_query ROOT LEAF FIXED sizeof_omap_val).
Abbreviation scan := (SpecNode.scan_le FIXED).
Abbreviation key_of := (SpecNode.record_key FIXED).
Abbreviation locate_key := (SpecNode.locate_key FIXED).
Abbreviation locate_data := (SpecNode.locate_data ROOT LEAF FIXED sizeof_omap_val).
Abbreviation omap_leaf := (SpecNode.omap_leaf ROOT LEAF FIXED sizeof_omap_val).
Abbreviation omap_lookup :=
  (apfs_omap_lookup_block LEAF spec_query read_node kmalloc read_object_block
     sizeof_omap_val ov_paddr).
Abbreviation finish :=
  (omap_lookup_finish read_object_block sizeof_omap_val ov_paddr).
Abbreviation rewrite_record := (omap_rewrite ov_paddr).

(** Without memory for its query the lookup returns [-ENOMEM]. *)
Lemma omap_lookup_no_memory fuel sb tbl id write :
  kmalloc tbl None = None ->
  omap_lookup (S fuel) sb tbl id write = Some (inl (- ENOMEM), tbl, []).
Proof.
  intros Hmem. cbn [apfs_omap_lookup_block]. unfold apfs_alloc_query.
  by rewrite Hmem.
Qed.

(** On a leaf the loop of the query returns after one pass. *)
Lemma omap_lookup_on_leaf fuel sb tbl id write mem :
  kmalloc tbl None = Some mem ->
  apfs_node_is_leaf LEAF tbl = true ->
  -2 ^ 31 <= n_records tbl < 2 ^ 31 ->
  omap_lookup (S (S fuel)) sb tbl id write
  = Some
      (match scan tbl (apfs_init_omap_key id (s_xid sb))
               (Z.to_nat (n_records tbl)) with
       | Some i =>
           finish sb write 0
             (set_position (omap_query sb (query_init mem tbl None) id)
                (SpecNode.found ROOT LEAF FIXED sizeof_omap_val sb
                   (omap_query sb (query_init mem tbl None) id) i)) []
       | None =>
           (inl (- ENODATA), tbl, [])
       end).
Proof.
  intros Hmem Hleaf HN. cbn [apfs_omap_lookup_block]. unfold apfs_alloc_query.
  rewrite Hmem. cbn [btree_query_loop].
  unfold btree_query_step.
  rewrite bool_decide_eq_false_2 by (cbn; lia).
  cbv zeta. unfold SpecNode.apfs_node_query.
  cbn [omap_query query_init q_key q_flags f_multiple f_next no_flags
       q_index q_node andb].
  rewrite (s32_small (n_records tbl)) by lia.
  destruct (scan tbl (apfs_init_omap_key id (s_xid sb)) (Z.to_nat (n_records tbl)))
    as [i|] eqn:Hscan.
  - cbn [SpecNode.found r_code].
    rewrite bool_decide_eq_false_2 by (unfold EAGAIN; lia).
    rewrite bool_decide_eq_false_2 by (intros H; by apply H).
    cbn [set_position q_node omap_query query_init]. rewrite Hleaf. done.
  - destruct (bool_decide (n_records tbl = 0) && apfs_node_is_root ROOT tbl).
    + cbn [SpecNode.failed r_code].
      rewrite bool_decide_eq_false_2 by (unfold EAGAIN, ENODATA; lia).
      rewrite bool_decide_eq_true_2 by (unfold ENODATA; lia).
      unfold omap_lookup_finish.
      rewrite bool_decide_eq_true_2 by (unfold ENODATA; lia). done.
    + cbn [SpecNode.failed r_code].
      rewrite bool_decide_eq_true_2 by done.
      cbn [set_position q_parent omap_query query_init].
      unfold omap_lookup_finish.
      rewrite bool_decide_eq_true_2 by (unfold ENODATA; lia). done.
Qed.


(** Raising the transaction id of a key to the target's keeps it at
    most the target. *)
Lemma keycmp_raise_xid oid xid id target_xid :
  SpecNode.apfs_keycmp (mkKey oid xid None 0) (mkKey id target_xid None 0) <= 0 ->
  SpecNode.apfs_keycmp (mkKey oid target_xid None 0) (mkKey id target_xid None 0) <= 0.
Proof.
  unfold SpecNode.apfs_keycmp. cbn [k_id k_type k_number].
  repeat case_bool_decide; lia.
Qed.

(** C8.  Take a well-formed root-and-leaf object map that belongs to the
    transaction in progress, in which the lookup of [id] finds record [i]
    (the one with the greatest key that is at most [id] at the current
    xid), a record that has a value, and let the object layer answer the
    request for a writable copy of the block of that record with block
    [new].  Then the lookup with write access returns the number of the
    new block; the node it leaves has the current xid in the key of the
    record and the number of the new block in its value, is flagged for
    its checksum and is dirty, the checksum stored in its block being
    the one that was there; and a lookup of the same id at the same xid
    on that node returns the number of the new block again.  This is
    when there is memory for the query of the lookup: without it, the
    lookup returns [-ENOMEM] and leaves the node as it is. *)
Theorem omap_lookup_copy_on_write fuel sb tbl id i new :
  omap_leaf sb tbl ->
  Mem.get_le 8 (b_data tbl) Layout.o_xid = s_xid sb ->
  0 <= s_xid sb < 2 ^ 64 ->
  0 <= ov_paddr -> ov_paddr + 8 <= sizeof_omap_val ->
  scan tbl (apfs_init_omap_key id (s_xid sb)) (Z.to_nat (n_records tbl))
    = Some i ->
  snd (locate_data sb tbl i) <> 0 ->
  read_object_block sb
    (Mem.get_le 8 (b_data tbl) (fst (locate_data sb tbl i) + ov_paddr)) true
    = inr new ->
  (kmalloc tbl None = None ->
   omap_lookup (S (S fuel)) sb tbl id true = Some (inl (- ENOMEM), tbl, [])) /\
  (kmalloc tbl None <> None ->
   exists tbl',
     omap_lookup (S (S fuel)) sb tbl id true
       = Some (inr (u64 new), tbl', []) /\
     key_of tbl' i = mkKey (k_id (key_of tbl i)) (s_xid sb) None 0 /\
     Mem.get_le 8 (b_data tbl') (fst (locate_data sb tbl i) + ov_paddr)
       = u64 new /\
     b_dirty tbl' = true /\ b_csum tbl' = true /\
     Mem.get_le 8 (b_data tbl') Layout.o_cksum
       = Mem.get_le 8 (b_data tbl) Layout.o_cksum /\
     (kmalloc tbl' None <> None ->
      omap_lookup (S (S fuel)) sb tbl' id false
        = Some (inr (u64 new), tbl', []))).
Proof.
  intros Hwf _ Hxid Hp0 Hp8 Hscan Hhas Hrob.
  split; [by apply omap_lookup_no_memory|].
  intros Hmem.
  destruct (kmalloc tbl None) as [mem|] eqn:Hmem'; [clear Hmem|done].
  assert (Hwf' := Hwf).
  destruct Hwf' as [Hroot Hleaf Hfixed Hlay Hkeys Hvals Hapart].
  pose proof (layout_records_bound FIXED sb tbl Hlay) as HN.
  assert (Hlay' := Hlay).
  destruct Hlay' as [Hlen Hbs Hrec Htoc Hkey Hfree Hdata].
  apply (scan_le_Some FIXED) in Hscan as Hscan'. destruct Hscan' as (Hi & Hle & Hgt).
  rewrite Z2Nat.id in Hi, Hgt by lia.
  assert (Hlen_i : snd (locate_data sb tbl i) = sizeof_omap_val).
  { revert Hhas. unfold SpecNode.locate_data. rewrite Hfixed, Hleaf.
    by case_bool_decide. }
  destruct (Hkeys i Hi) as [Hk1 Hk2].
  destruct (Hvals i Hi Hhas) as [Hv1 Hv2].
  unfold SpecNode.sizeof_omap_key in *.
  set (ko := fst (locate_key tbl i)) in *.
  set (vo := fst (locate_data sb tbl i)) in *.
  set (old := Mem.get_le 8 (b_data tbl) (vo + ov_paddr)) in *.
  set (q := set_position (omap_query sb (query_init mem tbl None) id)
              (SpecNode.found ROOT LEAF FIXED sizeof_omap_val sb
                 (omap_query sb (query_init mem tbl None) id) i)).
  assert (Hfirst : omap_lookup (S (S fuel)) sb tbl id true
                   = Some (inr (u64 new), rewrite_record sb q new, [])).
  { rewrite (omap_lookup_on_leaf _ _ _ _ _ mem) by (done || lia).
    rewrite Hscan. f_equal. fold q.
    unfold omap_lookup_finish.
    rewrite bool_decide_eq_false_2 by (intros H; by apply H).
    unfold apfs_bno_from_query, q.
    cbn [set_position SpecNode.found q_len q_off q_node q_key_off r_len r_off
         r_key_off r_key_len r_index r_code omap_query query_init].
    fold vo. rewrite Hlen_i.
    rewrite bool_decide_eq_false_2 by (intros H; by apply H).
    fold old. by rewrite Hrob. }
  set (tbl' := rewrite_record sb q new).
  assert (Hraw : b_data tbl'
    = Mem.put_le 8 (Mem.put_le 8 (b_data tbl) (ko + Layout.ok_xid) (u64 (s_xid sb)))
        (vo + ov_paddr) (u64 new)) by done.
  assert (Hflags : n_flags tbl' = n_flags tbl) by done.
  assert (Hnrec : n_records tbl' = n_records tbl) by done.
  assert (Hnkey : n_key tbl' = n_key tbl) by done.
  assert (Hsz : toc_entry_size FIXED tbl = 4).
  { unfold toc_entry_size. by rewrite Hfixed. }
  assert (Hslot : forall j, toc_slot FIXED tbl' j = toc_slot FIXED tbl j) by done.
  assert (Htoc2 : forall j d, 0 <= j < n_records tbl -> 0 <= d <= 2 ->
    Mem.get_le 2 (b_data tbl') (toc_slot FIXED tbl j + d)
    = Mem.get_le 2 (b_data tbl) (toc_slot FIXED tbl j + d)).
  { intros j d Hj Hd. rewrite Hraw. unfold toc_slot. rewrite Hsz.
    revert Htoc. rewrite Hsz. layout_consts. intros Htoc.
    rewrite !MemFacts.get_le_put_le_out by lia. done. }
  assert (Hlk' : forall j, 0 <= j < n_records tbl ->
    locate_key tbl' j = locate_key tbl j).
  { intros j Hj. unfold SpecNode.locate_key.
    unfold apfs_node_has_fixed_kv_size. rewrite Hflags, Hslot, Hnkey.
    pose proof (Htoc2 j 0 Hj ltac:(lia)) as H0. rewrite Z.add_0_r in H0.
    by rewrite H0, (Htoc2 j 2 Hj ltac:(lia)). }
  assert (Hld' : forall j, 0 <= j < n_records tbl ->
    locate_data sb tbl' j = locate_data sb tbl j).
  { intros j Hj. unfold SpecNode.locate_data, SpecNode.value_base.
    unfold apfs_node_has_fixed_kv_size, apfs_node_is_root, apfs_node_is_leaf.
    rewrite Hflags, Hslot.
    fold (apfs_node_has_fixed_kv_size FIXED tbl). rewrite Hfixed.
    by rewrite (Htoc2 j 2 Hj ltac:(lia)). }
  assert (Hother : forall j, 0 <= j < n_records tbl -> j <> i ->
    key_of tbl' j = key_of tbl j).
  { intros j Hj Hne. unfold SpecNode.record_key, SpecNode.read_omap_key.
    rewrite Hlk' by done. rewrite Hraw.
    destruct (Hkeys j Hj) as [Hj1 Hj2].
    pose proof (Hapart j i Hj Hi Hne) as Hap. fold ko in Hap.
    revert Hdata. layout_consts. intros Hdata'.
    rewrite !MemFacts.get_le_put_le_out by lia. done. }
  assert (Hthis : key_of tbl' i = mkKey (k_id (key_of tbl i)) (s_xid sb) None 0).
  { unfold SpecNode.record_key, SpecNode.read_omap_key.
    rewrite Hlk' by done. fold ko. rewrite Hraw. cbn [k_id].
    revert Hdata. layout_consts. intros Hdata'.
    rewrite !(MemFacts.get_le_put_le_out 8 8 _ (vo + ov_paddr)) by lia.
    rewrite MemFacts2.get_put_64 by lia.
    rewrite MemFacts.get_le_put_le_out by lia.
    by rewrite u64_u64, u64_small by lia. }
  assert (Hval : Mem.get_le 8 (b_data tbl') (vo + ov_paddr) = u64 new).
  { rewrite Hraw. revert Hdata. layout_consts. intros Hdata'.
    rewrite MemFacts2.get_put_64 by (mem_lengths; lia).
    apply u64_u64. }
  assert (Hsum : Mem.get_le 8 (b_data tbl') Layout.o_cksum
                 = Mem.get_le 8 (b_data tbl) Layout.o_cksum).
  { rewrite Hraw. revert Hdata. layout_consts. intros Hdata'.
    rewrite !MemFacts.get_le_put_le_out by lia. done. }
  exists tbl'.
  repeat split; try done.
  intros Hmem2.
  destruct (kmalloc tbl' None) as [mem2|] eqn:Hmem2'; [clear Hmem2|done].
  assert (Hscan' : scan tbl' (apfs_init_omap_key id (s_xid sb))
                     (Z.to_nat (n_records tbl')) = Some i).
  { apply (scan_le_Some FIXED). rewrite Hnrec, Z2Nat.id by lia.
    split; [done|]. split.
    - rewrite Hthis. eapply keycmp_raise_xid. exact Hle.
    - intros j Hj. rewrite Hother by lia. by apply Hgt. }
  rewrite (omap_lookup_on_leaf _ _ _ _ _ mem2)
    by (done || (rewrite Hnrec; lia)).
  rewrite Hscan'. f_equal.
  unfold omap_lookup_finish.
  rewrite bool_decide_eq_false_2 by (intros H; by apply H).
  unfold apfs_bno_from_query.
  cbn [set_position SpecNode.found q_len q_off q_node q_key_off r_len r_off
       r_key_off r_key_len r_index r_code omap_query query_init].
  rewrite Hld' by done. fold vo. rewrite Hlen_i.
  rewrite bool_decide_eq_false_2 by (intros H; by apply H).
  by rewrite Hval.
Qed.

End OmapFacts.

(** ** The claims on the example trees *)

Module ExampleFacts.
Import Example.

Lemma layout_one_record : node_layout FIXED sb (q_node one_record).
Proof. constructor; vm_compute; congruence. Qed.

Lemma layout_eight_records : node_layout FIXED sb (q_node eight_records).
Proof. constructor; vm_compute; congruence. Qed.

Lemma layout_full_node : node_layout FIXED sb full_node.
Proof. constructor; vm_compute; congruence. Qed.

Lemma single_node_example node :
n_flags node = ROOT + LEAF + FIXED -> root_and_leaf ROOT LEAF node.
Proof.
intros H. unfold root_and_leaf, apfs_node_is_root, apfs_node_is_leaf.
rewrite H. by vm_compute.
Qed.

Lemma omap_leaf_example :
SpecNode.omap_leaf ROOT LEAF FIXED sizeof_omap_val omap_sb omap_root.
Proof.
constructor.
- reflexivity.
- reflexivity.
- reflexivity.
- constructor; vm_compute; congruence.
- intros j Hj. assert (j = 0 \/ j = 1) as [-> | ->] by (cbn in Hj; lia);
    vm_compute; split; congruence.
- intros j Hj _. assert (j = 0 \/ j = 1) as [-> | ->] by (cbn in Hj; lia);
    vm_compute; split; congruence.
- intros j j' Hj Hj' Hne.
  assert (j = 0 \/ j = 1) as [-> | ->] by (cbn in Hj; lia);
    assert (j' = 0 \/ j' = 1) as [-> | ->] by (cbn in Hj'; lia);
    try done; vm_compute; [left | right]; congruence.
Qed.

End ExampleFacts.

(** C3, the claim as the specification words it, fails: on a node with
    one record that the query has found at index 0, the new slot is written
    at index 1 and the slot of the record found stays at index 0. *)
Lemma btree_insert_not_before_found :
  ~ inserted_before_found Example.FIXED Example.cksum Example.sb
      Example.one_record (Mem.le_split 8 2) 8 (Some (Mem.le_split 8 102)) 8.
Proof.
  unfold inserted_before_found. vm_compute. intros [H _]. discriminate H.
Qed.

Lemma btree_insert_places_record_witness :
  let q' := snd (Example.insert Example.one_record (Mem.le_split 8 2) 8
                   (Some (Mem.le_split 8 102)) 8) in
  q_index q' = 1 /\ n_records (q_node q') = 2.
Proof.
  cbv zeta.
  destruct (btree_insert_places_record Example.ROOT Example.LEAF Example.FIXED
              Example.cksum Example.sb Example.one_record
              (Mem.le_split 8 2) 8 (Some (Mem.le_split 8 102)) 8)
    as (Hi & _ & _ & _ & _ & _ & _ & _ & _ & Hr & _).
  - by apply ExampleFacts.single_node_example.
  - exact ExampleFacts.layout_one_record.
  - vm_compute. split; congruence.
  - lia.
  - lia.
  - reflexivity.
  - intros v [= <-]. reflexivity.
  - vm_compute. reflexivity.
  - split; [exact Hi | exact Hr].
Defined.

Lemma btree_insert_nospace_atomic_witness :
  snd (Example.insert (Example.query_at Example.full_node (-1)) [7] 1 None 0)
  = Example.query_at Example.full_node (-1).
Proof.
  apply (btree_insert_nospace_atomic Example.FIXED Example.cksum).
  vm_compute. reflexivity.
Defined.


(** C6, the claim as the specification words it, fails: the removal
    moves the slots after the one it removes and nothing else, so that
    after an insert at the end of a node with one record the second slot
    of the table of contents holds the entry of the record removed, where
    it held zeroes; and after the ninth insert into a node whose table of
    contents was full, which extends the table by 32 bytes, the key base
    stays at 120, where it was 88. *)
Lemma btree_insert_remove_keeps_toc_changes :
  ~ toc_range_restored Example.FIXED Example.cksum Example.sb
      Example.one_record (Mem.le_split 8 2) 8 (Some (Mem.le_split 8 102)) 8 /\
  ~ toc_range_restored Example.FIXED Example.cksum Example.sb
      Example.eight_records (Mem.le_split 8 9) 8 (Some (Mem.le_split 8 109)) 8.
Proof.
  split.
  - intros (_ & _ & _ & H). vm_compute in H. discriminate H.
  - intros (_ & _ & H & _). vm_compute in H. discriminate H.
Qed.

Lemma btree_insert_remove_inverse_witness :
  let q1 := snd (Example.insert Example.one_record (Mem.le_split 8 2) 8
                   (Some (Mem.le_split 8 102)) 8) in
  n_records (q_node (snd (Example.remove q1))) = 1.
Proof.
  cbv zeta.
  destruct (btree_insert_remove_inverse Example.ROOT Example.LEAF Example.FIXED
              Example.cksum Example.sb Example.one_record
              (Mem.le_split 8 2) 8 (Some (Mem.le_split 8 102)) 8
              (snd (Example.insert Example.one_record (Mem.le_split 8 2) 8
                      (Some (Mem.le_split 8 102)) 8)))
    as (_ & Hr & _).
  - by apply ExampleFacts.single_node_example.
  - exact ExampleFacts.layout_one_record.
  - vm_compute. split; congruence.
  - lia.
  - lia.
  - intros v [= <-]. reflexivity.
  - vm_compute. split; congruence.
  - vm_compute. reflexivity.
  - reflexivity.
  - reflexivity.
  - exact Hr.
Defined.

Lemma btree_remove_shifts_and_counts_witness :
  n_records (q_node (snd (Example.remove Example.one_record))) = 0.
Proof.
  destruct (btree_remove_shifts_and_counts Example.ROOT Example.LEAF
              Example.FIXED Example.cksum Example.sb Example.one_record)
    as (_ & _ & _ & Hr & _).
  - by apply ExampleFacts.single_node_example.
  - exact ExampleFacts.layout_one_record.
  - vm_compute. split; congruence.
  - exact Hr.
Defined.

(** C5.  An insert that finds
    [sizeof(node header) + (N + 1) * slot_size > key_base] extends the table
    of contents by 8 slots before it inserts: the bytes of the key area
    move up by that many bytes, the key base and the free offset move up
    with them, the length of the table of contents goes up and that of the
    free space goes down by as much.  An insert whose slot fits leaves the
    key base, the key area and the length of the table of contents as they
    are, and takes from the free space only what the record needs.  On a
    4 KiB node with 4-byte slots that holds eight records, whether its
    table of contents started with room for eight slots or with none, the
    ninth insert extends the table by 32 bytes and ends with
    [bt_key_count = 9]. *)
Theorem btree_insert_grows_toc :
  (forall FIXED fletcher sb q key key_len val val_len,
     node_layout FIXED sb (q_node q) ->
     -1 <= q_index q < n_records (q_node q) ->
     0 <= key_len <= 65536 -> 0 <= val_len <= 65536 ->
     fst (apfs_btree_insert FIXED fletcher sb q key key_len val val_len) = 0 ->
     let node := q_node q in
     let raw := b_data node in
     let node' := q_node (snd (apfs_btree_insert FIXED fletcher sb q
                                 key key_len val val_len)) in
     let raw' := b_data node' in
     let inc := BTREE_TOC_ENTRY_INCREMENT * toc_entry_size FIXED node in
     let taken := key_len + val_bytes val val_len in
     (toc_needs_expansion FIXED node = true <->
      Layout.sizeof_node_phys + (n_records node + 1) * toc_entry_size FIXED node
        > n_key node) /\
     (toc_needs_expansion FIXED node = true ->
      n_key node' = n_key node + inc /\
      n_free node' = n_free node + inc + key_len /\
      (forall i, n_key node <= i < n_free node ->
                 Mem.byte_at raw' (i + inc) = Mem.byte_at raw i) /\
      Mem.get_le 2 raw' Layout.btn_table_space_len
        = u16 (Mem.get_le 2 raw Layout.btn_table_space_len + inc) /\
      Mem.get_le 2 raw' Layout.btn_free_space_len
        = u16 (Mem.get_le 2 raw Layout.btn_free_space_len - inc - taken)) /\
     (toc_needs_expansion FIXED node = false ->
      n_key node' = n_key node /\
      n_free node' = n_free node + key_len /\
      (forall i, n_key node <= i < n_free node ->
                 Mem.byte_at raw' i = Mem.byte_at raw i) /\
      Mem.get_le 2 raw' Layout.btn_table_space_len
        = Mem.get_le 2 raw Layout.btn_table_space_len /\
      Mem.get_le 2 raw' Layout.btn_free_space_len
        = u16 (Mem.get_le 2 raw Layout.btn_free_space_len - taken))) /\
  (forall q8, q8 = Example.eight_records \/ q8 = Example.eight_records_grown ->
     let ninth := Example.insert q8 (Mem.le_split 8 9) 8
                    (Some (Mem.le_split 8 109)) 8 in
     let node := q_node q8 in
     let node' := q_node (snd ninth) in
     toc_entry_size Example.FIXED node = 4 /\
     n_records node = 8 /\
     toc_needs_expansion Example.FIXED node = true /\
     fst ninth = 0 /\
     n_key node' = n_key node + 32 /\
     Mem.load (b_data node') (n_key node + 32) (n_free node - n_key node)
       = Mem.load (b_data node) (n_key node) (n_free node - n_key node) /\
     n_records node' = 9 /\
     Mem.get_le 8 (b_data node')
       (Example.blocksize - Layout.sizeof_info + Layout.bt_key_count) = 9).
Proof.
  split.
  - intros FIXED fletcher sb q key key_len val val_len Hlay Hidx Hkl Hvl Hok.
    destruct (insert_effect FIXED fletcher sb q key key_len val val_len
                Hlay Hidx Hkl Hvl Hok)
      as ((_ & _ & Ek & Ef & _) & _ & (_ & _ & Emoved & _) & _ & (Ets & Efs & _)).
    cbv zeta in *. unfold toc_growth in *.
    split; [by apply toc_needs_expansion_iff with (sb := sb)|].
    split; intros Hneed; rewrite Hneed in *.
    + repeat split; try done. rewrite Efs. f_equal. lia.
    + rewrite Z.add_0_r in *. repeat split; try done.
      * intros i Hi. rewrite <- (Emoved i Hi). f_equal. lia.
      * rewrite Efs. f_equal. lia.
  - intros q8 [-> | ->]; vm_compute; repeat split; congruence.
Qed.

Lemma btree_insert_grows_toc_witness :
  let q8 := Example.eight_records in
  n_key (q_node (snd (Example.insert q8 (Mem.le_split 8 9) 8
                        (Some (Mem.le_split 8 109)) 8)))
  = n_key (q_node q8) + BTREE_TOC_ENTRY_INCREMENT * 4.
Proof.
  cbv zeta.
  destruct btree_insert_grows_toc as [H _].
  destruct (H Example.FIXED Example.cksum Example.sb Example.eight_records
              (Mem.le_split 8 9) 8 (Some (Mem.le_split 8 109)) 8)
    as (_ & Hgrow & _).
  - exact ExampleFacts.layout_eight_records.
  - vm_compute. split; congruence.
  - lia.
  - lia.
  - vm_compute. reflexivity.
  - destruct Hgrow as (Hk & _); [vm_compute; reflexivity|].
    exact Hk.
Defined.

(** C1, the claim as the specification words it, fails: in single-record
    mode the move down reuses the query, so the query that stands on the
    empty leaf below the root has depth 1 and no parent; the node query
    sends it back up, and the search ends with [-ENODATA] there instead of
    going on from a parent. *)
Lemma btree_query_backtrack_not_by_root :
  btree_query_step Example.LEAF Example.node_query Example.read_node
    Example.kmalloc Example.no_lookup Example.index_sb (Example.index_query false) []
  = Some (Descend, Example.child_query, []) /\
  ~ backtrack_by_root Example.LEAF Example.node_query Example.read_node
      Example.kmalloc Example.no_lookup 0 Example.index_sb Example.child_query [].
Proof.
  split; [vm_compute; reflexivity|].
  intros H. destruct H as [_ H]; [vm_compute; reflexivity.. |].
  destruct H as (p & Hp & _); [vm_compute; congruence|].
  vm_compute in Hp. discriminate Hp.
Qed.

Lemma btree_query_backtrack_witness :
  btree_query_loop Example.LEAF Example.node_query Example.read_node
    Example.kmalloc Example.no_lookup 1 Example.index_sb Example.child_query []
  = Some (- ENODATA,
          set_position Example.child_query
            (Example.node_query Example.index_sb Example.child_query), []).
Proof.
  apply (btree_query_backtrack Example.LEAF Example.node_query Example.read_node
           Example.kmalloc Example.no_lookup 0 Example.index_sb Example.child_query []).
  - vm_compute. reflexivity.
  - vm_compute. reflexivity.
  - reflexivity.
Defined.

Lemma btree_query_child_pointer_witness :
  exists q2 log2,
    btree_query_step Example.LEAF Example.node_query Example.read_node
      Example.kmalloc Example.no_lookup Example.index_sb (Example.index_query false) []
    = Some (Descend, q2, log2) /\
    q_node q2 = Example.empty_leaf /\ q_depth q2 = 1.
Proof.
  destruct (btree_query_child_pointer Example.LEAF Example.node_query
              Example.read_node Example.kmalloc Example.no_lookup 0
              Example.index_sb
              (Example.index_query false) [])
    as [_ Hdescend].
  - vm_compute. reflexivity.
  - vm_compute. reflexivity.
  - vm_compute. reflexivity.
  - destruct Hdescend as [_ Hdescend]; [vm_compute; reflexivity|].
    destruct (Hdescend 2 [] Example.empty_leaf) as [Hdown _].
    + vm_compute. reflexivity.
    + vm_compute. reflexivity.
    + destruct Hdown as (q2 & log2 & Hstep & _ & Hnode & _ & Hdepth & _);
        [left; reflexivity|].
      exists q2, log2. repeat split; [exact Hstep | exact Hnode | exact Hdepth].
Defined.



(** C8, the claim as the specification words it, fails: the write path
    sets the flag of the buffer that asks for a checksum and writes no
    checksum.  The object map of the examples holds the checksum of its
    block; the lookup of id 7 with write access points its record at
    block 77, and the block that it leaves still holds the checksum of
    the block as it was. *)
Lemma omap_lookup_write_keeps_old_checksum :
  csum_in_step Example.cksum Example.omap_sb
    (b_data MoreExamples.sealed_omap_root) /\
  ~ omap_write_recomputes_csum Example.LEAF Example.node_query
      Example.read_node Example.kmalloc Example.read_object_block
      Example.sizeof_omap_val Example.ov_paddr Example.cksum
      2 Example.omap_sb MoreExamples.sealed_omap_root 7.
Proof.
  split; [vm_compute; reflexivity|].
  intros H.
  destruct (H (u64 77) _ [] ltac:(vm_compute; reflexivity)) as [_ Hsum].
  vm_compute in Hsum. discriminate Hsum.
Qed.

Lemma omap_lookup_copy_on_write_witness :
  exists tbl',
    Example.omap_lookup 2 Example.omap_sb Example.omap_root 7 true
      = Some (inr (u64 77), tbl', []) /\
    SpecNode.record_key Example.FIXED tbl' 1 = mkKey 7 300 None 0 /\
    Mem.get_le 8 (b_data tbl') (4024 + Example.ov_paddr) = u64 77 /\
    b_dirty tbl' = true /\ b_csum tbl' = true /\
    Mem.get_le 8 (b_data tbl') Layout.o_cksum
      = Mem.get_le 8 (b_data Example.omap_root) Layout.o_cksum /\
    Example.omap_lookup 2 Example.omap_sb tbl' 7 false
      = Some (inr (u64 77), tbl', []).
Proof.
  destruct (omap_lookup_copy_on_write Example.ROOT Example.LEAF Example.FIXED
              Example.read_node Example.kmalloc Example.read_object_block
              Example.sizeof_omap_val Example.ov_paddr 0 Example.omap_sb
              Example.omap_root 7 1 77)
    as [_ Hwrite].
  - exact ExampleFacts.omap_leaf_example.
  - reflexivity.
  - vm_compute. split; congruence.
  - vm_compute. congruence.
  - vm_compute. congruence.
  - reflexivity.
  - vm_compute. congruence.
  - reflexivity.
  - destruct Hwrite as (tbl' & H1 & H2 & H3 & H4 & H5 & H6 & H7);
      [discriminate|].
    exists tbl'.
    split; [exact H1|]. split; [exact H2|]. split; [exact H3|].
    split; [exact H4|]. split; [exact H5|]. split; [exact H6|].
    apply H7. discriminate.
Defined.
(** ** More on the leaf mutations *)

Section MoreMutationFacts.

Variables ROOT LEAF FIXED : Z.
Variable fletcher : list Z -> Z.

Abbreviation entry_size := (toc_entry_size FIXED).
Abbreviation slot := (toc_slot FIXED).
Abbreviation layout := (node_layout FIXED).
Abbreviation has_fixed_kv := (apfs_node_has_fixed_kv_size FIXED).
Abbreviation growth := (toc_growth FIXED).
Abbreviation remove := (apfs_btree_remove FIXED fletcher).
Abbreviation insert := (apfs_btree_insert FIXED fletcher).
Abbreviation checksummed := (csum_in_step fletcher).

(** The checksum stored by [apfs_obj_set_csum] is that of the block it
    leaves. *)
Lemma obj_set_csum_in_step sb raw :
  Z.of_nat (length raw) = s_blocksize sb -> 8 <= s_blocksize sb ->
  checksummed sb (apfs_obj_set_csum fletcher sb raw).
Proof.
  intros Hlen Hbs. unfold csum_in_step, apfs_obj_set_csum. layout_consts.
  rewrite MemFacts2.get_put_64 by lia.
  rewrite MemFacts2.load_put_le_out by lia.
  by rewrite u64_u64.
Qed.

(** X1.  A successful insert keeps the node well laid out, leaves its flags
    alone, stores the checksum of the block as it now is and marks the
    buffer dirty. *)
Theorem btree_insert_keeps_node_sound sb q key key_len val val_len :
  layout sb (q_node q) ->
  -1 <= q_index q < n_records (q_node q) ->
  0 <= key_len <= 65536 -> 0 <= val_len <= 65536 ->
  fst (insert sb q key key_len val val_len) = 0 ->
  let node' := q_node (snd (insert sb q key key_len val val_len)) in
  layout sb node' /\
  n_flags node' = n_flags (q_node q) /\
  checksummed sb (b_data node') /\
  b_dirty node' = true.
Proof.
  intros Hlay Hidx Hk Hv Hret node'.
  pose proof (insert_layout FIXED fletcher sb q key key_len val val_len
                Hlay Hidx Hk Hv Hret) as Hlay'.
  pose proof (insert_effect FIXED fletcher sb q key key_len val val_len
                Hlay Hidx Hk Hv Hret) as ((_ & _ & _ & _ & _ & Hfl & _) & _).
  destruct (insert_inv FIXED fletcher sb q key key_len val val_len
              Hlay Hidx Hk Hv Hret) as (node1 & _ & Hready & _ & _ & Heq).
  split; [exact Hlay'|]. split; [exact Hfl|].
  subst node'. rewrite Heq in *. cbn [snd q_node set_q_node] in *.
  split; [|done].
  unfold insert_record. cbn [b_data mark_buffer_dirty set_raw].
  destruct Hlay' as [Hlen' Hbs' _ _ _ _ Hdata']. 
  pose proof (layout_key_bound FIXED sb _ Hlay) as Hkb.
  destruct Hlay as [Hlen Hbs Hrec Htoc Hkey Hfree Hdata].
  apply obj_set_csum_in_step.
  - revert Hlen'. unfold insert_record. cbn [b_data mark_buffer_dirty set_raw].
    unfold apfs_obj_set_csum. by mem_lengths.
  - revert Hdata. layout_consts. lia.
Qed.


Lemma slot_flags node node' j :
  n_flags node' = n_flags node -> slot node' j = slot node j.
Proof.
  intros H. unfold toc_slot, toc_entry_size, apfs_node_has_fixed_kv_size.
  by rewrite H.
Qed.

Lemma slot_flags_size node node' :
  n_flags node' = n_flags node -> entry_size node' = entry_size node.
Proof.
  intros H. unfold toc_entry_size, apfs_node_has_fixed_kv_size.
  by rewrite H.
Qed.

(** X2.  A successful insert leaves the records that were there as they
    were: the entry of each one is found again in the table of contents,
    at its index if that is not above the index the query found and one
    slot further otherwise; the key area keeps its bytes (it moves with
    the table of contents when that grows); the value area keeps its
    bytes. *)
Theorem btree_insert_keeps_records sb q key key_len val val_len :
  layout sb (q_node q) ->
  -1 <= q_index q < n_records (q_node q) ->
  0 <= key_len <= 65536 -> 0 <= val_len <= 65536 ->
  fst (insert sb q key key_len val val_len) = 0 ->
  let node := q_node q in
  let raw := b_data node in
  let node' := q_node (snd (insert sb q key key_len val val_len)) in
  let raw' := b_data node' in
  let info := s_blocksize sb - Layout.sizeof_info in
  (forall j t, 0 <= j < n_records node -> 0 <= t < entry_size node ->
     Mem.byte_at raw'
       (slot node' (if bool_decide (j <= q_index q) then j else j + 1) + t)
     = Mem.byte_at raw (slot node j + t)) /\
  (forall o, 0 <= o < n_free node - n_key node ->
     Mem.byte_at raw' (n_key node' + o) = Mem.byte_at raw (n_key node + o)) /\
  (forall i, n_data node <= i < info ->
     Mem.byte_at raw' i = Mem.byte_at raw i).
Proof.
  intros Hlay Hidx Hk Hv Hret node raw node' raw' info.
  pose proof (insert_effect FIXED fletcher sb q key key_len val val_len
                Hlay Hidx Hk Hv Hret)
    as ((_ & _ & Hkey' & _ & _ & Hfl & _) & (Hlow & Hhigh & _) &
        (_ & _ & Hkeys & Hvals) & _).
  fold node raw node' raw' in Hkey', Hfl, Hlow, Hhigh, Hkeys, Hvals.
  split; [|split].
  - intros j t Hj Ht. rewrite (slot_flags node node') by done.
    destruct (toc_entry_size_cases FIXED node) as [Hsz|Hsz].
    all: case_bool_decide.
    all: unfold toc_slot in *; rewrite Hsz in *.
    all: try (apply Hlow; layout_consts; lia).
    all: replace (Layout.btn_data + (j + 1) * _ + t)
           with (Layout.btn_data + j * entry_size node + t + entry_size node)
           by (rewrite Hsz; lia).
    all: rewrite Hsz in *; apply Hhigh; lia.
  - intros o Ho. rewrite Hkey'.
    replace (n_key node + growth node + o) with (n_key node + o + growth node) by lia.
    apply Hkeys. lia.
  - exact Hvals.
Qed.

(** X3.  The entry that a successful insert has written leads back to the
    record: the key offset of the entry, counted from the start of the
    key area, is where the key bytes are; in a node with entries of
    variable size the entry holds the two lengths, and its value offset,
    counted back from the tree info, is where the value bytes are. *)
Theorem btree_insert_round_trip sb q key key_len val val_len :
  layout sb (q_node q) ->
  -1 <= q_index q < n_records (q_node q) ->
  0 <= key_len <= 65536 -> 0 <= val_len <= 65536 ->
  Z.of_nat (length key) = key_len ->
  (forall v, val = Some v -> Z.of_nat (length v) = val_len) ->
  fst (insert sb q key key_len val val_len) = 0 ->
  let q' := snd (insert sb q key key_len val val_len) in
  let node' := q_node q' in
  let raw' := b_data node' in
  let entry := slot node' (q_index q') in
  let info := s_blocksize sb - Layout.sizeof_info in
  Mem.load raw' (n_key node' + Mem.get_le 2 raw' entry) key_len = key /\
  (has_fixed_kv (q_node q) = false ->
   Mem.get_le 2 raw' (entry + 2) = key_len /\
   Mem.get_le 2 raw' (entry + 6) = val_len /\
   forall v, val = Some v ->
     Mem.load raw' (info - Mem.get_le 2 raw' (entry + 4)) val_len = v).
Proof.
  intros Hlay Hidx Hk Hv Hklen Hvlen Hret q' node' raw' entry info.
  pose proof (insert_effect FIXED fletcher sb q key key_len val val_len
                Hlay Hidx Hk Hv Hret)
    as ((Hi' & _ & Hkey' & _ & _ & Hfl & _) & (_ & _ & Hko & Hrest) &
        (Hkb & Hvb & _) & _).
  fold q' node' raw' in Hi', Hkey', Hfl, Hko, Hrest, Hkb, Hvb.
  subst entry. rewrite Hi', (slot_flags (q_node q) node') by done.
  split.
  - rewrite Hko, Hkey'.
    replace (n_key (q_node q) + growth (q_node q)
             + (n_free (q_node q) - n_key (q_node q)))
      with (n_free (q_node q) + growth (q_node q)) by lia.
    by apply Hkb.
  - intros Hvar. rewrite Hvar in Hrest. destruct Hrest as (Hkl & Hvo & Hvl).
    split; [done|]. split; [done|].
    intros v Hval. rewrite Hvo. subst info.
    replace (s_blocksize sb - Layout.sizeof_info
             - (s_blocksize sb - Layout.sizeof_info
                - (n_data (q_node q) - val_len)))
      with (n_data (q_node q) - val_len) by lia.
    apply Hvb; [done | by apply Hvlen].
Qed.

(** X4.  A successful insert keeps the space accounting of the node header
    in step with the offsets of the node in memory. *)
Theorem btree_insert_keeps_header_in_step sb q key key_len val val_len :
  layout sb (q_node q) ->
  header_in_step (q_node q) ->
  -1 <= q_index q < n_records (q_node q) ->
  0 <= key_len <= 65536 -> 0 <= val_len <= 65536 ->
  fst (insert sb q key key_len val val_len) = 0 ->
  header_in_step (q_node (snd (insert sb q key key_len val val_len))).
Proof.
  intros Hlay [Hts Hfo Hfl] Hidx Hk Hv Hret.
  pose proof (insert_layout FIXED fletcher sb q key key_len val val_len
                Hlay Hidx Hk Hv Hret) as Hlay'.
  pose proof (insert_effect FIXED fletcher sb q key key_len val val_len
                Hlay Hidx Hk Hv Hret)
    as ((_ & _ & Hkey' & Hfree' & Hdata' & _) & _ & _ & _ &
        (Hts' & Hfl' & Hfo')).
  pose proof (layout_key_bound FIXED sb _ Hlay) as Hkb.
  pose proof (layout_key_bound FIXED sb _ Hlay') as Hkb'.
  destruct Hlay' as [_ Hbs' _ _ Hk' Hf' Hd'].
  destruct Hlay as [_ _ _ _ Hk0 Hf0 Hd0].
  revert Hd' Hd0. layout_consts. intros Hd' Hd0.
  constructor; layout_consts.
  - rewrite Hts', Hkey', Hts. unfold toc_growth in *.
    destruct (toc_needs_expansion FIXED (q_node q));
      [rewrite u16_small by lia|]; lia.
  - rewrite Hfo', Hfree', Hkey', Hfo. rewrite u16_small by lia. lia.
  - rewrite Hfl', Hfree', Hdata', Hfl. rewrite u16_small by lia. lia.
Qed.


(** X5.  A removal keeps the node well laid out and the header in step,
    stores the checksum of the block as it now is and marks the buffer
    dirty; the key area and the value area are not given back: the three
    offsets and the space fields of the header stay as they were. *)
Theorem btree_remove_keeps_node_sound sb q :
  layout sb (q_node q) ->
  0 <= q_index q < n_records (q_node q) ->
  let node := q_node q in
  let node' := q_node (snd (remove sb q)) in
  layout sb node' /\
  n_flags node' = n_flags node /\
  (header_in_step node -> header_in_step node') /\
  checksummed sb (b_data node') /\
  b_dirty node' = true.
Proof.
  intros Hlay Hidx node node'.
  pose proof (layout_records_bound FIXED sb _ Hlay) as HN.
  pose proof (layout_key_bound FIXED sb _ Hlay) as Hkb.
  assert (Hlay0 := Hlay).
  destruct Hlay as [Hlen Hbs Hrec Htoc Hkey Hfree Hdata].
  fold node in Hlen, Hbs, Hrec, Htoc, Hkey, Hfree, Hdata, HN, Hkb, Hidx.
  assert (Hrec' : n_records node' = n_records node - 1).
  { subst node'. unfold apfs_btree_remove.
    cbn [snd q_node set_q_node mark_buffer_dirty set_raw set_records n_records].
    fold node. rewrite u32_small by lia. done. }
  assert (Hfl : n_flags node' = n_flags node) by done.
  assert (Hk' : n_key node' = n_key node) by done.
  assert (Hf' : n_free node' = n_free node) by done.
  assert (Hd' : n_data node' = n_data node) by done.
  assert (Hlen' : length (b_data node') = length (b_data node)).
  { subst node'. unfold apfs_btree_remove, apfs_obj_set_csum.
    cbn [snd q_node set_q_node mark_buffer_dirty set_raw set_records b_data].
    fold node. destruct (has_fixed_kv node); by mem_lengths. }
  split; [|split; [done|split; [|split; [|done]]]].
  - constructor; rewrite ?Hrec', ?Hk', ?Hf', ?Hd', ?Hlen'; try done; try lia.
    rewrite (slot_flags_size node node') by done.
    destruct (toc_entry_size_cases FIXED node) as [Hsz|Hsz];
      rewrite Hsz in *; lia.
  - intros [Hts Hfo Hfle].
    assert (Hfr : forall o, 40 <= o -> o + 2 <= 48 ->
              Mem.get_le 2 (b_data node') o = Mem.get_le 2 (b_data node) o).
    { intros o Ho1 Ho2. subst node'.
      unfold apfs_btree_remove, apfs_obj_set_csum.
      cbn [snd q_node set_q_node mark_buffer_dirty set_raw set_records b_data].
      fold node. revert Hdata. layout_consts. intros Hdata.
      destruct (has_fixed_kv node); frame; done. }
    revert Hts Hfo Hfle. layout_consts. intros Hts Hfo Hfle.
    constructor; layout_consts; rewrite Hfr by lia;
      rewrite ?Hk', ?Hf', ?Hd'; done.
  - subst node'. unfold apfs_btree_remove.
    cbn [snd q_node set_q_node mark_buffer_dirty set_raw set_records b_data].
    fold node. apply obj_set_csum_in_step.
    + destruct (has_fixed_kv node); by mem_lengths.
    + revert Hdata. layout_consts. lia.
Qed.


Lemma insert_record_header sb node index key key_len val val_len :
  insert_ready FIXED sb node index key_len val_len ->
  forall i, 8 <= i < 36 \/ 40 <= i < 44 \/ 48 <= i < 56 ->
    Mem.byte_at (b_data (insert_record FIXED fletcher sb node index
                           key key_len val val_len)) i
    = Mem.byte_at (b_data node) i.
Proof.
  intros Hready i Hi.
  destruct (insert_toc_entry_facts FIXED sb node index key_len val val_len Hready)
    as (HTlen & HTout & _).
  destruct (insert_ready_bounds FIXED _ _ _ _ _ Hready) as [HN Hk60].
  destruct Hready as [Hlen Hbs Hidx Htoc Hkey Hkl Hvl Hfit Hdata].
  assert (HT : Mem.byte_at (insert_toc_entry FIXED sb node index key_len val val_len) i
               = Mem.byte_at (b_data node) i).
  { apply HTout. unfold toc_slot. layout_consts.
    destruct (toc_entry_size_cases FIXED node) as [Hsz|Hsz]; rewrite Hsz in *; lia. }
  unfold insert_record, update_info, write_val, write_key, apfs_obj_set_csum.
  set (T := insert_toc_entry FIXED sb node index key_len val val_len) in *.
  clearbody T.
  layout_consts.
  destruct val as [v|].
  all: cbn [n_records n_key n_free n_data n_flags b_dirty b_data
            set_raw set_records set_free set_key set_data mark_buffer_dirty].
  all: rewrite ?(s32_small (n_free node + key_len)),
         ?(s32_small (n_data node - val_len)) by lia.
  all: frame; done.
Qed.

(** X19.  A successful insert leaves alone what says which object the block
    is: the object id, the transaction id and the types of the object
    header, the flags and the level of the node, the offset of the table
    of contents and the two free lists are as they were. *)
Theorem btree_insert_keeps_identity sb q key key_len val val_len :
  layout sb (q_node q) ->
  -1 <= q_index q < n_records (q_node q) ->
  0 <= key_len <= 65536 -> 0 <= val_len <= 65536 ->
  fst (insert sb q key key_len val val_len) = 0 ->
  forall i, Layout.o_oid <= i < Layout.btn_nkeys \/
            Layout.btn_table_space_off <= i < Layout.btn_table_space_len \/
            Layout.btn_key_free_list_off <= i < Layout.btn_data ->
    Mem.byte_at (b_data (q_node (snd (insert sb q key key_len val val_len)))) i
    = Mem.byte_at (b_data (q_node q)) i.
Proof.
  intros Hlay Hidx Hk Hv Hret i Hi.
  destruct (insert_inv FIXED fletcher sb q key key_len val val_len
              Hlay Hidx Hk Hv Hret) as (node1 & Hexp & Hready & _ & _ & Heq).
  rewrite Heq. cbn [snd q_node set_q_node].
  rewrite insert_record_header by (done || (revert Hi; layout_consts; lia)).
  destruct (toc_needs_expansion FIXED (q_node q)) eqn:Hneed; [|by simplify_eq].
  pose proof (expand_facts FIXED sb (q_node q) key_len val_len node1
                Hlay Hk Hv Hneed Hexp) as Hfacts.
  cbv zeta in Hfacts.
  destruct Hfacts as (_ & _ & _ & _ & _ & _ & _ & _ & _ & _ & Hhdr & _).
  apply Hhdr. revert Hi. layout_consts. lia.
Qed.

(** X20.  An insert that had to extend the table of contents leaves room in
    it for seven more entries: the inserts that follow find their slot
    without moving the key area again. *)
Theorem btree_insert_leaves_toc_room sb q key key_len val val_len :
  layout sb (q_node q) ->
  -1 <= q_index q < n_records (q_node q) ->
  0 <= key_len <= 65536 -> 0 <= val_len <= 65536 ->
  fst (insert sb q key key_len val val_len) = 0 ->
  toc_needs_expansion FIXED (q_node q) = true ->
  let node' := q_node (snd (insert sb q key key_len val val_len)) in
  slot node' (n_records node' + 7) <= n_key node' /\
  toc_needs_expansion FIXED node' = false.
Proof.
  intros Hlay Hidx Hk Hv Hret Hneed node'.
  pose proof (insert_layout FIXED fletcher sb q key key_len val val_len
                Hlay Hidx Hk Hv Hret) as Hlay'.
  pose proof (insert_effect FIXED fletcher sb q key key_len val val_len
                Hlay Hidx Hk Hv Hret)
    as ((_ & Hrec' & Hkey' & _ & _ & Hfl & _) & _).
  fold node' in Hlay', Hrec', Hkey', Hfl.
  unfold toc_growth in Hkey'. rewrite Hneed in Hkey'.
  assert (Hsz : entry_size node' = entry_size (q_node q))
    by (by apply slot_flags_size).
  assert (Hroom : slot node' (n_records node' + 7) <= n_key node').
  { unfold toc_slot. rewrite Hsz, Hrec', Hkey'.
    destruct Hlay as [_ _ _ Htoc _ _ _]. unfold BTREE_TOC_ENTRY_INCREMENT.
    revert Htoc. layout_consts. lia. }
  split; [exact Hroom|].
  apply not_true_is_false. intros Hneed'.
  apply (toc_needs_expansion_iff FIXED sb node' Hlay') in Hneed'.
  unfold toc_slot in Hroom. revert Hroom Hneed'. layout_consts.
  destruct (toc_entry_size_cases FIXED node') as [E|E]; rewrite E; lia.
Qed.

(** X21.  A removal leaves alone the object header after the checksum, the
    flags and the level of the node, the space fields of the header and
    the offsets of the two free lists. *)
Theorem btree_remove_keeps_identity sb q :
  layout sb (q_node q) ->
  0 <= q_index q < n_records (q_node q) ->
  forall i, Layout.o_oid <= i < Layout.btn_nkeys \/
            Layout.btn_table_space_off <= i < Layout.btn_key_free_list_len \/
            Layout.btn_val_free_list_off <= i < Layout.btn_val_free_list_len ->
    Mem.byte_at (b_data (q_node (snd (remove sb q)))) i
    = Mem.byte_at (b_data (q_node q)) i.
Proof.
  intros Hlay Hidx i Hi.
  pose proof (layout_records_bound FIXED sb _ Hlay) as HN.
  pose proof (layout_key_bound FIXED sb _ Hlay) as Hkb.
  destruct Hlay as [Hlen Hbs Hrec Htoc Hkey Hfree Hdata].
  unfold apfs_btree_remove, apfs_obj_set_csum.
  cbn [snd q_node set_q_node mark_buffer_dirty set_raw set_records b_data].
  revert Hi Hdata. layout_consts. intros Hi Hdata.
  destruct (has_fixed_kv (q_node q)); frame; done.
Qed.

End MoreMutationFacts.
(** ** More on the query engine *)

Section MoreQueryFacts.

Variable LEAF : Z.
Variable node_query : super_block -> apfs_query -> node_query_result.
Variable read_node : super_block -> Z -> Z + apfs_node.
Variable kmalloc : apfs_node -> option apfs_query -> option apfs_query.
Variable read_object_block : super_block -> Z -> bool -> Z + Z.
Variables sizeof_omap_val ov_paddr : Z.

Abbreviation step := (btree_query_step LEAF node_query read_node kmalloc).
Abbreviation loop := (btree_query_loop LEAF node_query read_node kmalloc).
Abbreviation omap_lookup :=
  (apfs_omap_lookup_block LEAF node_query read_node kmalloc read_object_block
     sizeof_omap_val ov_paddr).
Abbreviation lookup_child :=
  (omap_lookup_child LEAF node_query read_node kmalloc read_object_block
     sizeof_omap_val ov_paddr).
Abbreviation btree_query :=
  (apfs_btree_query LEAF node_query read_node kmalloc read_object_block
     sizeof_omap_val ov_paddr).
Abbreviation finish :=
  (omap_lookup_finish read_object_block sizeof_omap_val ov_paddr).
Abbreviation omap_read_node :=
  (apfs_omap_read_node LEAF node_query read_node kmalloc read_object_block
     sizeof_omap_val ov_paddr).

Lemma chain_unfold k o m d0 q :
  query_chain k o m d0 q
  = (q_key q = k /\ f_omap (q_flags q) = o /\ f_multiple (q_flags q) = m /\
     d0 <= q_depth q /\
     match q_parent q with
     | None => m = true -> q_depth q = d0
     | Some p => m = true /\ q_depth q = q_depth p + 1 /\ query_chain k o m d0 p
     end).
Proof. by destruct q. Qed.

Lemma chain_set_position k o m d0 q r :
  query_chain k o m d0 q -> query_chain k o m d0 (set_position q r).
Proof. rewrite !chain_unfold. by cbn [set_position q_key q_flags f_omap f_multiple q_depth q_parent]. Qed.

Lemma step_keeps_chain lookup sb k o m d0 q log oc q1 l1 :
  0 <= d0 ->
  query_chain k o m d0 q ->
  step lookup sb q log = Some (oc, q1, l1) ->
  query_chain k o m d0 q1.
Proof.
  intros Hd0 Hq Hstep.
  pose proof (chain_set_position k o m d0 q (node_query sb q) Hq) as Hq2.
  unfold btree_query_step in Hstep.
  case_bool_decide as Hdepth; [by simplify_eq|].
  cbv zeta in Hstep.
  case_bool_decide.
  { destruct (q_parent (set_position q (node_query sb q))) as [p|] eqn:Hp;
      simplify_eq; [|done].
    rewrite chain_unfold, Hp in Hq2. by destruct Hq2 as (_ & _ & _ & _ & _ & _ & ?). }
  case_bool_decide; [by simplify_eq|].
  destruct (apfs_node_is_leaf LEAF _); [by simplify_eq|].
  destruct (apfs_child_from_query _); [by simplify_eq|].
  destruct (if f_omap _ then _ else _) as [[[e|blk] l]|]; [by simplify_eq| |done].
  destruct (read_node sb blk) as [e|node]; [by simplify_eq|].
  rewrite chain_unfold in Hq2. destruct Hq2 as (Hk & Ho & Hm & Hd & Hpar).
  cbn [set_position q_depth] in Hd.
  unfold apfs_alloc_query in Hstep.
  destruct (f_multiple _) eqn:Hmul;
    [destruct (kmalloc node _) as [mem|]|]; simplify_eq.
  - rewrite chain_unfold.
    cbn [query_init q_key q_flags f_omap f_multiple q_depth q_parent
         set_position] in *.
    rewrite s32_small by lia.
    repeat split; try done; try lia.
  - by apply chain_set_position.
  - rewrite chain_unfold.
    cbn [descend_in_place q_key q_flags f_omap f_multiple q_depth q_parent
         set_position] in *.
    rewrite s32_small by lia.
    repeat split; try done; try lia.
    destruct (q_parent q); [by destruct Hpar | done].
Qed.

Lemma loop_keeps_chain lookup sb k o m d0 :
  0 <= d0 ->
  forall fuel q log ret q' log',
    query_chain k o m d0 q ->
    loop lookup fuel sb q log = Some (ret, q', log') ->
    query_chain k o m d0 q'.
Proof.
  intros Hd0. induction fuel as [|fuel IH]; intros q log ret q' log' Hq Hrun;
    [done|].
  cbn [btree_query_loop] in Hrun.
  destruct (step lookup sb q log) as [[[oc q1] l1]|] eqn:Hstep; [|done].
  pose proof (step_keeps_chain _ _ _ _ _ _ _ _ _ _ _ Hd0 Hq Hstep) as Hq1.
  destruct oc; simplify_eq; [done | by eapply IH | by eapply IH].
Qed.

Lemma chain_depth k o d0 (n : nat) :
  forall q, chain_length q = n -> query_chain k o true d0 q ->
            q_depth q = d0 + Z.of_nat n - 1.
Proof.
  induction n as [|n IH]; intros q Hn Hq.
  - by destruct q as [? ? [p|] ? ? ? ? ? ? ?].
  - rewrite chain_unfold in Hq. destruct Hq as (_ & _ & _ & _ & Hpar).
    destruct q as [? ? [p|] ? ? ? ? ? ? ?]; cbn in *.
    + destruct Hpar as (_ & -> & Hp). injection Hn as Hn.
      rewrite (IH p Hn Hp). lia.
    + injection Hn as <-. rewrite Hpar by done. lia.
Qed.

(** X7.  The key and the two mode flags of a search are those of the query
    it started from.  In single-record mode the query it ends on has no
    parent, and in multi-record mode the depth of that query is the
    number of the queries below it in the chain. *)
Theorem btree_query_keeps_chain fuel sb q log ret q' log' :
  q_parent q = None ->
  0 <= q_depth q ->
  btree_query fuel sb q log = Some (ret, q', log') ->
  q_key q' = q_key q /\
  f_omap (q_flags q') = f_omap (q_flags q) /\
  f_multiple (q_flags q') = f_multiple (q_flags q) /\
  q_depth q <= q_depth q' /\
  (f_multiple (q_flags q) = false -> q_parent q' = None) /\
  (f_multiple (q_flags q) = true ->
   q_depth q' = q_depth q + Z.of_nat (chain_length q') - 1).
Proof.
  intros Hpar Hd Hrun.
  assert (Hq : query_chain (q_key q) (f_omap (q_flags q))
                 (f_multiple (q_flags q)) (q_depth q) q).
  { rewrite chain_unfold, Hpar. repeat split; (done || lia). }
  pose proof (loop_keeps_chain _ sb _ _ _ _ Hd _ _ _ _ _ _ Hq Hrun) as Hq'.
  assert (Hq'' := Hq').
  rewrite chain_unfold in Hq''. destruct Hq'' as (Hk & Ho & Hm & Hd' & Hp').
  repeat split; try done.
  - intros Hs. rewrite Hs in Hp'. destruct (q_parent q'); [by destruct Hp' | done].
  - intros Hmul. rewrite Hmul in Hq'. by eapply chain_depth.
Qed.

(** X6.  A query that comes in at depth 12 or more is refused as corrupted
    before any node is searched, and an error of the node query other
    than the request to go back up ends the search with that error, the
    query positioned as the node query left it and nothing logged. *)
Theorem btree_query_refuses fuel sb q log :
  (q_depth q >= 12 ->
   btree_query (S fuel) sb q log
   = Some (- EFSCORRUPTED, q, log ++ [alert_btree_corrupted])) /\
  (q_depth q < 12 ->
   r_code (node_query sb q) <> 0 ->
   r_code (node_query sb q) <> - EAGAIN ->
   btree_query (S fuel) sb q log
   = Some (r_code (node_query sb q), set_position q (node_query sb q), log)).
Proof.
  unfold apfs_btree_query. cbn [btree_query_loop]. unfold btree_query_step.
  split.
  - intros Hd. by rewrite bool_decide_eq_true_2.
  - intros Hd H0 Hagain. rewrite bool_decide_eq_false_2 by lia. cbv zeta.
    rewrite bool_decide_eq_false_2 by done.
    by rewrite bool_decide_eq_true_2.
Qed.

(** X9.  In object map mode the search takes the child id for the number
    of the block of the child and makes no lookup in the object map: its
    result is the same whatever a lookup would answer. *)
Theorem btree_query_omap_mode fuel sb q log lookup :
  q_parent q = None ->
  f_omap (q_flags q) = true ->
  btree_query fuel sb q log = loop lookup fuel sb q log.
Proof.
  intros Hpar Homap. apply loop_omap_mode.
  destruct q; cbn in *. subst. by rewrite Homap.
Qed.

(** Without memory for its query a lookup returns [-ENOMEM] at once. *)
Lemma omap_lookup_without_memory fuel sb tbl id write :
  kmalloc tbl None = None ->
  omap_lookup (S fuel) sb tbl id write = Some (inl (- ENOMEM), tbl, []).
Proof.
  intros Hmem. cbn [apfs_omap_lookup_block]. unfold apfs_alloc_query.
  by rewrite Hmem.
Qed.

(** On an object map of one node the lookup makes one node query. *)
Lemma omap_lookup_single fuel sb tbl id write mem :
  kmalloc tbl None = Some mem ->
  apfs_node_is_leaf LEAF tbl = true ->
  let q := omap_query sb (query_init mem tbl None) id in
  omap_lookup (S (S fuel)) sb tbl id write
  = Some (let r := node_query sb q in
          finish sb write
            (if bool_decide (r_code r = - EAGAIN) then - ENODATA else r_code r)
            (set_position q r) []).
Proof.
  intros Hmem Hleaf. cbv zeta.
  cbn [apfs_omap_lookup_block]. unfold apfs_alloc_query.
  rewrite Hmem. cbn [btree_query_loop].
  unfold btree_query_step.
  rewrite bool_decide_eq_false_2 by (cbn; lia).
  cbv zeta.
  case_bool_decide as Hagain.
  - by cbn [set_position q_parent omap_query query_init].
  - case_bool_decide as Hcode; [done|].
    cbn [set_position q_node omap_query query_init].
    rewrite Hleaf.
    replace (r_code (node_query sb
               (omap_query sb (query_init mem tbl None) id))) with 0 by lia.
    done.
Qed.

(** X10.  On an object map of one node, a lookup hands the node back as it
    was unless write access was asked for and a block number is
    returned: a lookup without write access, and a lookup that fails,
    change nothing. *)
Theorem omap_lookup_changes_on_write_only fuel sb tbl id write res tbl' log :
  apfs_node_is_leaf LEAF tbl = true ->
  omap_lookup fuel sb tbl id write = Some (res, tbl', log) ->
  write = false \/ (exists e, res = inl e) ->
  tbl' = tbl.
Proof.
  intros Hleaf Hrun Hcase.
  destruct (kmalloc tbl None) as [mem|] eqn:Hmem; cycle 1.
  { destruct fuel as [|fuel]; [done|].
    rewrite omap_lookup_without_memory in Hrun by done. by simplify_eq. }
  destruct fuel as [|[|fuel]];
    [done | by cbn in Hrun; unfold apfs_alloc_query in Hrun;
            rewrite Hmem in Hrun |].
  rewrite (omap_lookup_single _ _ _ _ _ mem) in Hrun by done.
  cbv zeta in Hrun.
  unfold omap_lookup_finish in Hrun.
  repeat (case_bool_decide || case_match || simplify_eq/=); try done.
  all: destruct Hcase as [?|[? ?]]; done.
Qed.

(** X11.  On an object map of one node, a lookup with write access that
    returns a block number has changed, of the node, the eight bytes of
    the transaction id of the key found and the eight bytes of the
    address of its value, and nothing else: the other bytes of the block
    (the stored checksum among them) and the fields of the node in
    memory are as they were; the buffer is flagged for its checksum and
    dirty.  The record is the one that the node query finds for the
    query that the lookup has allocated. *)
Theorem omap_lookup_write_frame fuel sb tbl id blk tbl' log :
  apfs_node_is_leaf LEAF tbl = true ->
  omap_lookup fuel sb tbl id true = Some (inr blk, tbl', log) ->
  exists mem,
  kmalloc tbl None = Some mem /\
  let r := node_query sb (omap_query sb (query_init mem tbl None) id) in
  let key_xid := r_key_off r + Layout.ok_xid in
  let val_paddr := r_off r + ov_paddr in
  length (b_data tbl') = length (b_data tbl) /\
  (forall i, (i < key_xid \/ key_xid + 8 <= i) ->
             (i < val_paddr \/ val_paddr + 8 <= i) ->
             Mem.byte_at (b_data tbl') i = Mem.byte_at (b_data tbl) i) /\
  (n_flags tbl', n_records tbl', n_key tbl', n_free tbl', n_data tbl',
   o_oid tbl', o_block_nr tbl')
  = (n_flags tbl, n_records tbl, n_key tbl, n_free tbl, n_data tbl,
     o_oid tbl, o_block_nr tbl) /\
  b_csum tbl' = true /\ b_dirty tbl' = true.
Proof.
  intros Hleaf Hrun.
  destruct (kmalloc tbl None) as [mem|] eqn:Hmem; cycle 1.
  { destruct fuel as [|fuel]; [done|].
    by rewrite omap_lookup_without_memory in Hrun. }
  exists mem. split; [done|]. intros r key_xid val_paddr.
  destruct fuel as [|[|fuel]];
    [done | by cbn in Hrun; unfold apfs_alloc_query in Hrun;
            rewrite Hmem in Hrun |].
  rewrite (omap_lookup_single _ _ _ _ _ mem) in Hrun by done.
  cbv zeta in Hrun.
  fold r in Hrun. unfold omap_lookup_finish in Hrun.
  case_bool_decide; [by simplify_eq|].
  destruct (apfs_bno_from_query _ _ _) as [e|old]; [by simplify_eq|].
  destruct (read_object_block sb old true) as [e|new]; [by simplify_eq|].
  injection Hrun as <- <- <-.
  unfold omap_rewrite.
  cbn [set_position q_node q_key_off q_off omap_query query_init
       mark_buffer_dirty set_buffer_csum set_raw b_data n_flags n_records
       n_key n_free n_data o_oid o_block_nr b_csum b_dirty].
  fold key_xid val_paddr.
  repeat split.
  - by mem_lengths.
  - intros i H1 H2. by rewrite !MemFacts.byte_at_put_le_out by lia.
Qed.

(** X13.  What [apfs_omap_read_node] does on an object map of one node.
    Without memory for the query of the lookup the result is [-ENOMEM],
    before any node query.  With it there is one node query, on the
    query that the lookup has allocated.  If it asks to go back up the
    result is
    [-ENODATA]; another error of it is the result; a record whose value
    has not the size of an object map value gives [-EFSCORRUPTED] and an
    alert that names the block of the map; otherwise the block whose
    address is in the value is read: a failure of the read is the
    result, and a node that is read is the result even when its object
    id is not the id asked for, which is only logged. *)
Theorem omap_read_node_single fuel sb id :
  apfs_node_is_leaf LEAF (s_omap_root sb) = true ->
  let tbl := s_omap_root sb in
  omap_read_node (S (S fuel)) sb id
  = Some
      (match kmalloc tbl None with
       | None => (inl (- ENOMEM), [])
       | Some mem =>
         let r := node_query sb (omap_query sb (query_init mem tbl None) id) in
         if bool_decide (r_code r = - EAGAIN) then (inl (- ENODATA), [])
         else if bool_decide (r_code r <> 0) then (inl (r_code r), [])
         else if bool_decide (r_len r <> sizeof_omap_val)
         then (inl (- EFSCORRUPTED), [alert_bad_omap_leaf (o_block_nr tbl)])
         else
           match read_node sb (Mem.get_le 8 (b_data tbl) (r_off r + ov_paddr)) with
           | inl e => (inl e, [])
           | inr node =>
               (inr node,
                if bool_decide (o_oid node <> id) then [debug_corrupt_btree] else [])
           end
       end).
Proof.
  intros Hleaf tbl. unfold apfs_omap_read_node. fold tbl.
  destruct (kmalloc tbl None) as [mem|] eqn:Hmem; cycle 1.
  { by rewrite omap_lookup_without_memory. }
  rewrite (omap_lookup_single _ _ _ _ _ mem) by done. cbv zeta.
  set (r := node_query sb (omap_query sb (query_init mem tbl None) id)).
  unfold omap_lookup_finish, apfs_bno_from_query.
  cbn [set_position q_len q_off q_node omap_query query_init].
  destruct (decide (r_code r = - EAGAIN)) as [Hagain|Hagain].
  - rewrite !(bool_decide_eq_true_2 (r_code r = - EAGAIN)) by done.
    by rewrite bool_decide_eq_true_2 by (unfold ENODATA; lia).
  - rewrite !(bool_decide_eq_false_2 (r_code r = - EAGAIN)) by done.
    case_bool_decide as Hcode; [done|].
    case_bool_decide; [done|].
    by destruct (read_node sb _).
Qed.

(** X14.  The lookups in the object map and [apfs_omap_read_node] return,
    whatever the shape of the map, when every successful node query
    leaves the index of the query below its value on entry, and not
    below 0. *)
Theorem omap_read_node_returns sb id :
  (forall sb q, r_code (node_query sb q) = 0 ->
                0 <= r_index (node_query sb q) < q_index q) ->
  (forall tbl write, exists n res, forall F, (n <= F)%nat ->
     omap_lookup F sb tbl id write = Some res) /\
  (exists n res, forall F, (n <= F)%nat -> omap_read_node F sb id = Some res).
Proof.
  intros Hprogress.
  pose proof (omap_lookup_returns LEAF node_query read_node kmalloc
                read_object_block sizeof_omap_val ov_paddr Hprogress sb)
    as Hret.
  split; [intros tbl write; apply Hret|].
  destruct (Hret (s_omap_root sb) id false) as (n & [[res node] l] & Hn).
  unfold apfs_omap_read_node.
  destruct res as [e|blk].
  - exists n, (inl e, l). intros F HF. by rewrite Hn.
  - destruct (read_node sb blk) as [e|nd] eqn:Hrd.
    + exists n, (inl e, l). intros F HF. by rewrite Hn, Hrd.
    + eexists n, _. intros F HF. by rewrite Hn, Hrd.
Qed.

Section Tidy.

(** [apfs_read_node] reports its failures with [ERR_PTR] of an error
    code, which is never 0. *)
Hypothesis read_node_error : forall sb blk e,
  read_node sb blk = inl e -> e <> 0.

Lemma loop_success lookup sb :
  tidy_lookup lookup ->
  forall fuel q log q' log',
    loop lookup fuel sb q log = Some (0, q', log') ->
    apfs_node_is_leaf LEAF (q_node q') = true /\
    q_depth q' < 12 /\
    (exists q0, q' = set_position q0 (node_query sb q0) /\
                r_code (node_query sb q0) = 0) /\
    exists l, log' = log ++ l /\ only_debug l.
Proof.
  intros Hlk. induction fuel as [|fuel IH]; intros q log q' log' Hrun; [done|].
  cbn [btree_query_loop] in Hrun.
  destruct (step lookup sb q log) as [[[o q1] l1]|] eqn:Hstep; [|done].
  assert (Hlog : o <> Done 0 ->
            exists l, l1 = log ++ l /\ only_debug l).
  { intros Ho. unfold btree_query_step, apfs_alloc_query in Hstep.
    repeat (case_bool_decide || case_match || simplify_eq/=);
      try (exists []; split; [by rewrite app_nil_r | constructor]);
      try done.
    all: try match goal with
         | H : _ = Some (inr _, _) |- _ =>
             pose proof (Hlk _ _ _ H) as Hdebug
         end.
    all: try (simpl in Hdebug).
    all: eexists; split; [reflexivity|].
    all: unfold only_debug in *; rewrite ?Forall_app; repeat split;
      try done; try constructor; try done; try constructor. }
  destruct o as [ret| | |]; [| | |done].
  - simplify_eq.
    unfold btree_query_step, apfs_child_from_query, apfs_alloc_query
      in Hstep.
    repeat (case_bool_decide || case_match || simplify_eq/=).
    all: try (exfalso; unfold EFSCORRUPTED, ENODATA in *; lia).
    all: try (match goal with
              | H : _ = Some (inl 0, _) |- _ =>
                  by pose proof (Hlk _ _ _ H)
              | H : read_node _ _ = inl 0 |- _ =>
                  by apply read_node_error in H
              end).
    all: split; [done|]; split; [lia|]; split; [by exists q|].
    all: exists []; split; [by rewrite app_nil_r | constructor].
  - destruct Hlog as (l & -> & Hl); [done|].
    destruct (IH _ _ _ _ Hrun) as (H1 & H2 & H3 & l2 & -> & Hl2).
    repeat split; try done. exists (l ++ l2).
    split; [by rewrite app_assoc | by apply Forall_app].
  - destruct Hlog as (l & -> & Hl); [done|].
    destruct (IH _ _ _ _ Hrun) as (H1 & H2 & H3 & l2 & -> & Hl2).
    repeat split; try done. exists (l ++ l2).
    split; [by rewrite app_assoc | by apply Forall_app].
Qed.

Lemma omap_lookup_tidy fuel :
  forall sb tbl id res node l,
    omap_lookup fuel sb tbl id false = Some (res, node, l) ->
    match res with
    | inl e => e <> 0
    | inr _ => only_debug l
    end.
Proof.
  induction fuel as [|fuel IH]; intros sb tbl id res node l Hrun; [done|].
  cbn [apfs_omap_lookup_block] in Hrun. unfold apfs_alloc_query in Hrun.
  destruct (kmalloc tbl None) as [mem|];
    [|simplify_eq; unfold ENOMEM; lia].
  match type of Hrun with
  | context [btree_query_loop _ _ _ _ ?lk _ _ _ _] => set (lookup := lk) in Hrun
  end.
  assert (Hlk : tidy_lookup lookup).
  { intros i r l0 Hi. subst lookup. cbn beta in Hi.
    destruct (omap_lookup fuel sb (s_omap_root sb) i false)
      as [[[r1 n1] l1]|] eqn:E; [|done].
    simplify_eq. by eapply IH. }
  destruct (loop lookup fuel sb _ [])
    as [[[ret q] log]|] eqn:Hloop; [|done].
  unfold omap_lookup_finish, apfs_bno_from_query in Hrun.
  case_bool_decide as Hret; [by simplify_eq|].
  assert (ret = 0) as -> by lia.
  destruct (loop_success lookup sb Hlk _ _ _ _ _ Hloop)
    as (_ & _ & _ & l1 & -> & Hl1).
  case_bool_decide; simplify_eq; [unfold EFSCORRUPTED; lia | done].
Qed.

Lemma lookup_child_tidy fuel sb : tidy_lookup (lookup_child fuel sb).
Proof.
  intros i r l Hi. unfold omap_lookup_child in Hi.
  destruct (omap_lookup fuel sb (s_omap_root sb) i false)
    as [[[r1 n1] l1]|] eqn:E; [|done].
  simplify_eq. by eapply omap_lookup_tidy.
Qed.

(** X8.  A query that returns 0 has ended on a leaf, at a depth below
    12, positioned by a node query that succeeded, and has logged no
    alert on its way. *)
Theorem btree_query_success fuel sb q log q' log' :
  btree_query fuel sb q log = Some (0, q', log') ->
  apfs_node_is_leaf LEAF (q_node q') = true /\
  q_depth q' < 12 /\
  (exists q0, q' = set_position q0 (node_query sb q0) /\
              r_code (node_query sb q0) = 0) /\
  exists l, log' = log ++ l /\ only_debug l.
Proof.
  apply loop_success, lookup_child_tidy.
Qed.

(** X12.  A lookup in the object map never reports a failure by the code
    0, and one that yields a block number has logged no alert. *)
Theorem omap_lookup_reports_errors fuel sb tbl id write res node l :
  (forall blk e, read_object_block sb blk true = inl e -> e <> 0) ->
  omap_lookup fuel sb tbl id write = Some (res, node, l) ->
  match res with
  | inl e => e <> 0
  | inr _ => only_debug l
  end.
Proof.
  intros Hrob. destruct write; [|apply omap_lookup_tidy].
  destruct fuel as [|fuel]; [done|]. intros Hrun.
  cbn [apfs_omap_lookup_block] in Hrun. unfold apfs_alloc_query in Hrun.
  destruct (kmalloc tbl None) as [mem|];
    [|simplify_eq; unfold ENOMEM; lia].
  match type of Hrun with
  | context [btree_query_loop _ _ _ _ ?lk _ _ _ _] => set (lookup := lk) in Hrun
  end.
  assert (Hlk : tidy_lookup lookup) by apply lookup_child_tidy.
  destruct (loop lookup fuel sb _ [])
    as [[[ret q] log]|] eqn:Hloop; [|done].
  unfold omap_lookup_finish, apfs_bno_from_query in Hrun.
  case_bool_decide as Hret; [by simplify_eq|].
  assert (ret = 0) as -> by lia.
  destruct (loop_success lookup sb Hlk _ _ _ _ _ Hloop)
    as (_ & _ & _ & l1 & -> & Hl1).
  case_bool_decide; simplify_eq/=; [unfold EFSCORRUPTED; lia |].
  destruct (read_object_block sb _ true) eqn:E; simplify_eq/=.
  - by eapply Hrob.
  - done.
Qed.

End Tidy.

End MoreQueryFacts.
(** ** The helpers of super.h and the bit fields of the headers *)

Section SuperFacts.

Variable sizeof_obj_phys : Z.

Abbreviation map_phys := (sizeof_checkpoint_map_phys sizeof_obj_phys).
Abbreviation incompatible_features := (apfs_incompatible_features sizeof_obj_phys).

(** X15.  The mappings that [apfs_max_maps_per_block] allows fit in a block
    after the header of the mapping block, and one more would not. *)
Theorem max_maps_per_block_fits BITS_PER_LONG sb :
  BITS_PER_LONG = 32 \/ BITS_PER_LONG = 64 ->
  0 <= sizeof_obj_phys ->
  map_phys <= s_blocksize sb < 2 ^ 31 ->
  let n := apfs_max_maps_per_block sizeof_obj_phys BITS_PER_LONG sb in
  0 <= n /\
  map_phys + n * sizeof_checkpoint_mapping <= s_blocksize sb /\
  s_blocksize sb < map_phys + (n + 1) * sizeof_checkpoint_mapping.
Proof.
  intros Hbits Hobj Hbs n. subst n.
  unfold apfs_max_maps_per_block, ulong, sizeof_checkpoint_mapping in *.
  set (m := s_blocksize sb - map_phys) in *.
  assert (Hm : 0 <= m < 2 ^ 31) by (subst m; unfold sizeof_checkpoint_map_phys in *; lia).
  assert (Hmod : m mod 2 ^ BITS_PER_LONG = m).
  { apply Z.mod_small. destruct Hbits as [-> | ->]; lia. }
  rewrite Hmod. change (4 + 4 + 4 + 4 + 8 + 8 + 8) with 40.
  assert (Hq : 0 <= m / 40 <= m) by (split; [apply Z.div_pos; lia | apply Z.div_le_upper_bound; lia]).
  rewrite s32_small by lia.
  pose proof (Z.div_mod m 40 ltac:(lia)) as Hdm.
  pose proof (Z.mod_pos_bound m 40 ltac:(lia)) as Hr.
  replace (s_blocksize sb) with (map_phys + m) by (subst m; lia).
  lia.
Qed.

Lemma land_pow2 x n :
  0 <= n -> Z.land x (2 ^ n) = if Z.testbit x n then 2 ^ n else 0.
Proof.
  intros Hn. apply Z.bits_inj'. intros i Hi.
  rewrite Z.land_spec, Z.pow2_bits_eqb by lia.
  destruct (Z.eqb_spec n i) as [->|Hne].
  - destruct (Z.testbit x i) eqn:E; cbn.
    + rewrite Z.pow2_bits_eqb by lia. by rewrite Z.eqb_refl.
    + by rewrite Z.bits_0.
  - rewrite andb_false_r. destruct (Z.testbit x n).
    + rewrite Z.pow2_bits_eqb by lia. symmetry. by apply Z.eqb_neq.
    + by rewrite Z.bits_0.
Qed.

Lemma load_bytes raw off n :
  Forall (fun b => 0 <= b < 256) raw ->
  Forall (fun b => 0 <= b < 256) (Mem.load raw off n).
Proof.
  intros Hraw. unfold Mem.load. apply Forall_fmap, Forall_forall.
  intros k _. cbn. unfold Mem.byte_at. case_decide; [|lia].
  destruct (raw !! Z.to_nat (off + Z.of_nat k)) as [b|] eqn:E; cbn; [|lia].
  eapply (Forall_lookup_1 _ _ _ _ Hraw E).
Qed.

(** X16.  [apfs_is_case_insensitive] tests the lowest bit of the
    little-endian field [apfs_incompatible_features], on a machine of
    either byte order: the field is not converted, the mask is. *)
Theorem is_case_insensitive_bit big_endian raw :
  Forall (fun b => 0 <= b < 256) raw ->
  apfs_is_case_insensitive sizeof_obj_phys big_endian raw
  = Z.odd (Mem.get_le 8 raw incompatible_features).
Proof.
  intros Hraw. unfold apfs_is_case_insensitive, native64, cpu_to_le64, Mem.get_le.
  pose proof (load_bytes raw incompatible_features 8 Hraw) as Hb.
  pose proof (MemFacts.length_load raw incompatible_features 8) as Hlen.
  change (Z.of_nat 8) with 8.
  destruct (Mem.load raw incompatible_features 8)
    as [|b0 [|b1 [|b2 [|b3 [|b4 [|b5 [|b6 [|b7 [|]]]]]]]]]; try done.
  repeat match goal with
         | H : Forall _ (_ :: _) |- _ => apply Forall_cons in H as [? H]
         end.
  assert (Hodd : Z.odd (Mem.le_combine [b0; b1; b2; b3; b4; b5; b6; b7])
                 = Z.odd b0).
  { cbn [Mem.le_combine].
    replace (b0 + 256 * (b1 + 256 * (b2 + 256 * (b3 + 256 * (b4 + 256 *
               (b5 + 256 * (b6 + 256 * (b7 + 256 * 0))))))))
      with (b0 + 2 * (128 * (b1 + 256 * (b2 + 256 * (b3 + 256 * (b4 + 256 *
               (b5 + 256 * (b6 + 256 * b7)))))))) by lia.
    by rewrite Z.odd_add_mul_2. }
  rewrite Hodd.
  destruct big_endian.
  - change (be_combine (Mem.le_split 8 APFS_INCOMPAT_CASE_INSENSITIVE))
      with (2 ^ 56).
    rewrite land_pow2 by lia.
    assert (Hbit : Z.testbit (be_combine [b0; b1; b2; b3; b4; b5; b6; b7]) 56
                   = Z.odd b0).
    { rewrite <- Z.bit0_odd, <- (Z.shiftr_spec _ 56 0) by lia.
      rewrite Z.shiftr_div_pow2 by lia. f_equal.
      unfold be_combine. cbn [rev app Mem.le_combine].
      symmetry. apply (Z.div_unique _ _ _
        (b7 + 256 * (b6 + 256 * (b5 + 256 * (b4 + 256 * (b3 + 256 *
           (b2 + 256 * b1))))))); lia. }
    rewrite Hbit. destruct (Z.odd b0); by vm_compute.
  - change (u64 APFS_INCOMPAT_CASE_INSENSITIVE) with (2 ^ 0).
    rewrite land_pow2 by lia. rewrite Z.bit0_odd, Hodd.
    destruct (Z.odd b0); by vm_compute.
Qed.

End SuperFacts.

Lemma field_split lo hi k m :
  0 <= k -> 0 <= m -> 0 <= lo < 2 ^ k -> 0 <= hi < 2 ^ m ->
  let f := Z.lor lo (Z.shiftl hi k) in
  0 <= f < 2 ^ (k + m) /\
  Z.land f (Z.ones k) = lo /\
  Z.shiftr (Z.land f (Z.shiftl (Z.ones m) k)) k = hi.
Proof.
  intros Hk Hm Hlo Hhi f.
  assert (Hlo_hi : forall n, k <= n -> Z.testbit lo n = false).
  { intros n Hn. destruct (decide (lo = 0)) as [->|]; [apply Z.bits_0|].
    apply Z.bits_above_log2; [lia|].
    assert (Z.log2 lo < k) by (apply Z.log2_lt_pow2; lia). lia. }
  assert (Hhi_hi : forall n, m <= n -> Z.testbit hi n = false).
  { intros n Hn. destruct (decide (hi = 0)) as [->|]; [apply Z.bits_0|].
    apply Z.bits_above_log2; [lia|].
    assert (Z.log2 hi < m) by (apply Z.log2_lt_pow2; lia). lia. }
  assert (Hf : f = lo + hi * 2 ^ k).
  { subst f. rewrite Z.shiftl_mul_pow2 by lia.
    rewrite <- Z.lxor_lor, <- Z.add_nocarry_lxor; [done| |].
    all: apply Z.bits_inj'; intros n Hn; rewrite Z.land_spec, Z.bits_0.
    all: rewrite <- Z.shiftl_mul_pow2 by lia.
    all: destruct (decide (n < k));
      [rewrite Z.shiftl_spec_low by lia; apply andb_false_r
      |rewrite Hlo_hi by lia; done]. }
  split; [|split].
  - rewrite Hf, Z.pow_add_r by lia. nia.
  - rewrite Z.land_ones by lia. rewrite Hf.
    rewrite Z.mod_add by lia. apply Z.mod_small. lia.
  - apply Z.bits_inj'. intros n Hn.
    rewrite Z.shiftr_spec, Z.land_spec by lia. subst f.
    rewrite Z.lor_spec, !Z.shiftl_spec by lia.
    replace (n + k - k) with n by lia.
    rewrite Hlo_hi by lia. cbn.
    destruct (decide (n < m)).
    + rewrite Z.ones_spec_low by lia. apply andb_true_r.
    + rewrite Hhi_hi by lia. done.
Qed.

(** X17.  The two masks and the shift of the key header take apart what was
    put together: an object id of up to 60 bits and a record type of up to
    [Key.APFS_TYPE_MAX] share the 64 bits of [obj_id_and_type], and the length
    and the hash of a directory entry name share 32 bits. *)
Theorem key_header_fields id type len hash :
  0 <= id <= Key.APFS_OBJ_ID_MASK -> 0 <= type <= Key.APFS_TYPE_MAX ->
  0 <= len <= Key.APFS_DREC_LEN_MASK -> 0 <= hash < 2 ^ 22 ->
  let h := Z.lor id (Z.shiftl type Key.APFS_OBJ_TYPE_SHIFT) in
  let d := Z.lor len (Z.shiftl hash Key.APFS_DREC_HASH_SHIFT) in
  (0 <= h < 2 ^ 64 /\
   Z.land h Key.APFS_OBJ_ID_MASK = id /\
   Z.shiftr (Z.land h Key.APFS_OBJ_TYPE_MASK) Key.APFS_OBJ_TYPE_SHIFT = type) /\
  (0 <= d < 2 ^ 32 /\
   Z.land d Key.APFS_DREC_LEN_MASK = len /\
   Z.shiftr (Z.land d Key.APFS_DREC_HASH_MASK) Key.APFS_DREC_HASH_SHIFT = hash).
Proof.
  unfold Key.APFS_OBJ_ID_MASK, Key.APFS_TYPE_MAX, Key.APFS_DREC_LEN_MASK.
  intros Hid Htype Hlen Hhash. split.
  - apply (field_split id type 60 4); lia.
  - apply (field_split len hash 10 22); lia.
Qed.

(** X18.  The count and the reserved bits of a chunk info count field split
    its 32 bits between them: the count is below 2^20 and the two parts
    make up the field. *)
Theorem chunk_info_count_split x :
  0 <= x < 2 ^ 32 ->
  0 <= Z.land x Spaceman.APFS_CI_COUNT_MASK < 2 ^ 20 /\
  Z.land Spaceman.APFS_CI_COUNT_MASK Spaceman.APFS_CI_COUNT_RESERVED_MASK = 0 /\
  Z.lor (Z.land x Spaceman.APFS_CI_COUNT_MASK)
        (Z.land x Spaceman.APFS_CI_COUNT_RESERVED_MASK) = x.
Proof.
  intros Hx. split; [|split; [done|]].
  - change Spaceman.APFS_CI_COUNT_MASK with (Z.ones 20).
    rewrite Z.land_ones by lia. apply Z.mod_pos_bound. lia.
  - rewrite <- Z.land_lor_distr_r.
    change (Z.lor _ _) with (Z.ones 32).
    rewrite Z.land_ones by lia. apply Z.mod_small. lia.
Qed.
(** ** The leaf mutations on the list of records *)

Section RecordFacts.

Variables ROOT LEAF FIXED : Z.
Variable fletcher : list Z -> Z.

Abbreviation entry_size := (toc_entry_size FIXED).
Abbreviation slot := (toc_slot FIXED).
Abbreviation layout := (node_layout FIXED).
Abbreviation has_fixed_kv := (apfs_node_has_fixed_kv_size FIXED).
Abbreviation growth := (toc_growth FIXED).
Abbreviation remove := (apfs_btree_remove FIXED fletcher).
Abbreviation insert := (apfs_btree_insert FIXED fletcher).
Abbreviation record := (record_at FIXED).
Abbreviation all_records := (records FIXED).
Abbreviation well_formed := (records_ok FIXED).
Abbreviation fixed_record := (fixed_record_at FIXED).
Abbreviation all_fixed_records := (fixed_records FIXED).
Abbreviation fixed_well_formed := (fixed_records_ok FIXED).

Lemma fmap_seq_insert {A} (f g : nat -> A) (n i : nat) (x : A) :
  (i <= n)%nat ->
  (forall j, (j < i)%nat -> g j = f j) ->
  g i = x ->
  (forall j, (i <= j < n)%nat -> g (S j) = f j) ->
  g <$> seq 0 (S n)
  = take i (f <$> seq 0 n) ++ x :: drop i (f <$> seq 0 n).
Proof.
  intros Hi Hlow Hx Hhigh. apply list_eq. intros k.
  rewrite list_lookup_fmap.
  destruct (decide (k < i)%nat) as [Hk|Hk].
  - rewrite lookup_app_l by (rewrite length_take, length_fmap, length_seq; lia).
    rewrite lookup_take_lt by lia. rewrite list_lookup_fmap.
    rewrite !lookup_seq_lt by lia. cbn. by rewrite Hlow.
  - rewrite lookup_app_r by (rewrite length_take, length_fmap, length_seq; lia).
    rewrite length_take, length_fmap, length_seq.
    replace (i `min` n)%nat with i by lia.
    destruct (decide (k = i)) as [->|Hne].
    + rewrite Nat.sub_diag. rewrite lookup_seq_lt by lia. cbn. by rewrite Hx.
    + destruct (k - i)%nat as [|d] eqn:Hd; [lia|].
      rewrite lookup_cons. cbv iota.
      rewrite lookup_drop, list_lookup_fmap.
      destruct (decide (k < S n)%nat).
      * rewrite !lookup_seq_lt by lia. cbn.
        replace k with (S (i + d)) by lia. rewrite Hhigh by lia. done.
      * rewrite !lookup_seq_ge by lia. done.
Qed.

Lemma load_shift b1 b2 off1 off2 n :
  (forall t, 0 <= t < n -> Mem.byte_at b1 (off1 + t) = Mem.byte_at b2 (off2 + t)) ->
  Mem.load b1 off1 n = Mem.load b2 off2 n.
Proof.
  intros H. unfold Mem.load. apply list_fmap_ext. intros k x Hk.
  apply lookup_seq in Hk as [-> Hk]. apply H. lia.
Qed.

Lemma get_le_shift n b1 b2 off1 off2 :
  (forall t, 0 <= t < Z.of_nat n ->
             Mem.byte_at b1 (off1 + t) = Mem.byte_at b2 (off2 + t)) ->
  Mem.get_le n b1 off1 = Mem.get_le n b2 off2.
Proof. intros H. unfold Mem.get_le. f_equal. by apply load_shift. Qed.


Lemma variable_slot node j :
  has_fixed_kv node = false -> slot node j = Layout.btn_data + j * 8.
Proof. intros H. unfold toc_slot, toc_entry_size. by rewrite H. Qed.

(** X22.  On a well laid out node with entries of variable size whose
    entries all point into the key area and the value area, a successful
    insert is the insertion of the record into the list of the records
    of the node, right after the record that the query found; the
    records that were there read as before, and the entries of the node
    it leaves all point into its key area and value area. *)
Theorem btree_insert_refines_list sb q key key_len val val_len :
  layout sb (q_node q) ->
  well_formed sb (q_node q) ->
  -1 <= q_index q < n_records (q_node q) ->
  0 <= key_len <= 65536 -> 0 <= val_len <= 65536 ->
  Z.of_nat (length key) = key_len ->
  match val with
  | Some v => Z.of_nat (length v) = val_len
  | None => val_len = 0
  end ->
  fst (insert sb q key key_len val val_len) = 0 ->
  let node' := q_node (snd (insert sb q key key_len val val_len)) in
  let at_index := Z.to_nat (q_index q + 1) in
  all_records sb node'
  = take at_index (all_records sb (q_node q))
    ++ (key, default [] val) :: drop at_index (all_records sb (q_node q)) /\
  well_formed sb node'.
Proof.
  intros Hlay [Hvar Hok] Hidx Hk Hv Hklen Hvlen Hret node' at_index.
  pose proof (insert_layout FIXED fletcher sb q key key_len val val_len
                Hlay Hidx Hk Hv Hret) as Hlay'.
  pose proof (insert_effect FIXED fletcher sb q key key_len val val_len
                Hlay Hidx Hk Hv Hret)
    as ((_ & Hrec' & Hkey' & Hfree' & Hdata' & Hfl & _) &
        (Hlow & Hhigh & Hko & Hrest) & (Hkb & Hvb & Hkeys & Hvals) & _).
  fold node' in Hlay', Hrec', Hkey', Hfree', Hdata', Hfl, Hlow, Hhigh, Hko,
    Hrest, Hkb, Hvb, Hkeys, Hvals.
  set (node := q_node q) in *.
  set (g := growth node) in *.
  set (idx := q_index q + 1) in *.
  rewrite Hvar in Hrest. destruct Hrest as (Hkl & Hvo & Hvl).
  assert (Hvar' : has_fixed_kv node' = false).
  { unfold apfs_node_has_fixed_kv_size in *. by rewrite Hfl. }
  pose proof (layout_records_bound FIXED sb _ Hlay) as HN.
  destruct Hlay as [Hlen Hbs Hrec Htoc Hkey Hfree Hdata].
  destruct Hlay' as [_ _ _ _ Hkey2 Hfree2 Hdata2].
  assert (Hvbytes : val_bytes val val_len = val_len).
  { destruct val; [done | by subst]. }
  rewrite Hvbytes in Hdata'.
  assert (Hslot' : forall j, slot node' j = Layout.btn_data + j * 8)
    by (intros j; by apply variable_slot).
  assert (Hslot : forall j, slot node j = Layout.btn_data + j * 8)
    by (intros j; by apply variable_slot).
  rewrite !Hslot in *.
  assert (Hsz : entry_size node = 8) by (unfold toc_entry_size; by rewrite Hvar).
  rewrite Hsz in *.
  assert (Hfield_low : forall j d, 0 <= j < idx -> 0 <= d <= 6 ->
    Mem.get_le 2 (b_data node') (Layout.btn_data + j * 8 + d)
    = Mem.get_le 2 (b_data node) (Layout.btn_data + j * 8 + d)).
  { intros j d Hj Hd. apply MemFacts.get_le_ext. intros i Hi.
    apply Hlow. lia. }
  assert (Hfield_high : forall j d, idx <= j < n_records node -> 0 <= d <= 6 ->
    Mem.get_le 2 (b_data node') (Layout.btn_data + (j + 1) * 8 + d)
    = Mem.get_le 2 (b_data node) (Layout.btn_data + j * 8 + d)).
  { intros j d Hj Hd. apply get_le_shift. intros t Ht.
    replace (Layout.btn_data + (j + 1) * 8 + d + t)
      with (Layout.btn_data + j * 8 + d + t + 8) by lia.
    apply Hhigh. lia. }
  assert (Hold : forall j j', 0 <= j < n_records node ->
    (forall d, 0 <= d <= 6 ->
       Mem.get_le 2 (b_data node') (Layout.btn_data + j' * 8 + d)
       = Mem.get_le 2 (b_data node) (Layout.btn_data + j * 8 + d)) ->
    record sb node' j' = record sb node j).
  { intros j j' Hj Hfields.
    destruct (Hok j Hj) as (Ho1 & Ho2 & Ho3 & Ho4 & Ho5).
    unfold record_at, entry_key_off, entry_key_len, entry_val_off,
      entry_val_len in *.
    rewrite !Hslot, !Hslot' in *.
    pose proof (Hfields 0 ltac:(lia)) as H0. rewrite !Z.add_0_r in H0.
    rewrite H0, !Hfields by lia.
    f_equal.
    - apply load_shift. intros t Ht. rewrite Hkey'.
      replace (n_key node + g + Mem.get_le 2 (b_data node) (Layout.btn_data + j * 8) + t)
        with (n_key node + Mem.get_le 2 (b_data node) (Layout.btn_data + j * 8) + t + g)
        by lia.
      apply Hkeys. lia.
    - apply MemFacts.load_ext. intros i Hi. apply Hvals. lia. }
  assert (Hnew : record sb node' idx = (key, default [] val)).
  { unfold record_at, entry_key_off, entry_key_len, entry_val_off,
      entry_val_len.
    rewrite !Hslot'. rewrite Hko, Hkl, Hvo, Hvl, Hkey'.
    f_equal.
    - replace (n_key node + g + (n_free node - n_key node))
        with (n_free node + g) by lia.
      by apply Hkb.
    - replace (s_blocksize sb - Layout.sizeof_info
               - (s_blocksize sb - Layout.sizeof_info - (n_data node - val_len)))
        with (n_data node - val_len) by lia.
      destruct val as [v|]; cbn [default].
      + by apply Hvb.
      + by subst. }
  split.
  - unfold records. rewrite Hrec'.
    replace (Z.to_nat (n_records node + 1)) with (S (Z.to_nat (n_records node)))
      by lia.
    apply fmap_seq_insert.
    + subst at_index. lia.
    + intros j Hj. apply Hold; [lia|]. intros d Hd. apply Hfield_low; lia.
    + subst at_index. rewrite Z2Nat.id by lia. exact Hnew.
    + intros j Hj. rewrite Nat2Z.inj_succ. unfold Z.succ.
      apply Hold; [lia|]. intros d Hd. apply Hfield_high; lia.
  - constructor; [exact Hvar'|].
    intros j Hj. rewrite Hrec' in Hj.
    unfold entry_key_off, entry_key_len, entry_val_off, entry_val_len.
    rewrite !Hslot'.
    destruct (decide (j < idx)) as [Hlt|Hge].
    + destruct (Hok j ltac:(lia)) as (Ho1 & Ho2 & Ho3 & Ho4 & Ho5).
      unfold entry_key_off, entry_key_len, entry_val_off, entry_val_len in *.
      rewrite !Hslot in *.
      pose proof (Hfield_low j 0 ltac:(lia) ltac:(lia)) as H0.
      rewrite !Z.add_0_r in H0.
      rewrite H0, !Hfield_low by lia. lia.
    + destruct (decide (j = idx)) as [->|Hne].
      * rewrite Hko, Hkl, Hvo, Hvl. revert Hdata. layout_consts. lia.
      * destruct (Hok (j - 1) ltac:(lia)) as (Ho1 & Ho2 & Ho3 & Ho4 & Ho5).
        unfold entry_key_off, entry_key_len, entry_val_off, entry_val_len in *.
        rewrite !Hslot in *.
        pose proof (Hfield_high (j - 1) 0 ltac:(lia) ltac:(lia)) as H0.
        rewrite !Z.add_0_r in H0.
        replace (j - 1 + 1) with j in H0 by lia.
        pose proof (Hfield_high (j - 1)) as Hh.
        replace (j - 1 + 1) with j in Hh by lia.
        rewrite H0, !Hh by lia. lia.
Qed.


Lemma fmap_seq_delete {A} (f g : nat -> A) (n i : nat) :
  (i < n)%nat ->
  (forall j, (j < i)%nat -> g j = f j) ->
  (forall j, (i <= j < n - 1)%nat -> g j = f (S j)) ->
  g <$> seq 0 (n - 1) = delete i (f <$> seq 0 n).
Proof.
  intros Hi Hlow Hhigh. apply list_eq. intros k.
  rewrite list_lookup_fmap.
  destruct (decide (k < i)%nat) as [Hk|Hk].
  - rewrite list_lookup_delete_lt by lia. rewrite list_lookup_fmap.
    rewrite !lookup_seq_lt by lia. cbn. by rewrite Hlow.
  - rewrite list_lookup_delete_ge by lia. rewrite list_lookup_fmap.
    destruct (decide (k < n - 1)%nat).
    + rewrite !lookup_seq_lt by lia. cbn. by rewrite Hhigh by lia.
    + rewrite !lookup_seq_ge by lia. done.
Qed.

(** X23.  On a well laid out root-and-leaf node with entries of variable
    size whose entries all point into the key area and the value area, a
    removal is the deletion of the record that the query found from the
    list of the records of the node; the other records read as before,
    and the entries that are left still point into the two areas. *)
Theorem btree_remove_refines_list sb q :
  root_and_leaf ROOT LEAF (q_node q) ->
  layout sb (q_node q) ->
  well_formed sb (q_node q) ->
  0 <= q_index q < n_records (q_node q) ->
  let node' := q_node (snd (remove sb q)) in
  all_records sb node'
  = delete (Z.to_nat (q_index q)) (all_records sb (q_node q)) /\
  well_formed sb node'.
Proof.
  intros Hsingle Hlay [Hvar Hok] Hidx node'.
  pose proof (remove_effect ROOT LEAF FIXED fletcher sb q Hsingle Hlay Hidx)
    as (_ & Hhigh & Hlow & Hrec' & _ & _ & _ & _ & Hkey' & Hfree' & Hdata' &
        Hrest & _).
  fold node' in Hhigh, Hlow, Hrec', Hkey', Hfree', Hdata', Hrest.
  set (node := q_node q) in *.
  set (idx := q_index q) in *.
  assert (Hfl : n_flags node' = n_flags node) by done.
  assert (Hvar' : has_fixed_kv node' = false).
  { unfold apfs_node_has_fixed_kv_size in *. by rewrite Hfl. }
  pose proof (layout_records_bound FIXED sb _ Hlay) as HN.
  destruct Hlay as [Hlen Hbs Hrec Htoc Hkey Hfree Hdata].
  assert (Hslot' : forall j, slot node' j = Layout.btn_data + j * 8)
    by (intros j; by apply variable_slot).
  assert (Hslot : forall j, slot node j = Layout.btn_data + j * 8)
    by (intros j; by apply variable_slot).
  rewrite !Hslot in *.
  assert (Hsz : entry_size node = 8) by (unfold toc_entry_size; by rewrite Hvar).
  rewrite Hsz in *.
  assert (Hfield_low : forall j d, 0 <= j < idx -> 0 <= d <= 6 ->
    Mem.get_le 2 (b_data node') (Layout.btn_data + j * 8 + d)
    = Mem.get_le 2 (b_data node) (Layout.btn_data + j * 8 + d)).
  { intros j d Hj Hd. apply MemFacts.get_le_ext. intros i Hi.
    apply Hlow. lia. }
  assert (Hfield_high : forall j d, idx <= j < n_records node - 1 -> 0 <= d <= 6 ->
    Mem.get_le 2 (b_data node') (Layout.btn_data + j * 8 + d)
    = Mem.get_le 2 (b_data node) (Layout.btn_data + (j + 1) * 8 + d)).
  { intros j d Hj Hd. apply get_le_shift. intros t Ht.
    replace (Layout.btn_data + (j + 1) * 8 + d + t)
      with (Layout.btn_data + j * 8 + d + t + 8) by lia.
    apply Hhigh. lia. }
  assert (Hold : forall j j', 0 <= j < n_records node ->
    (forall d, 0 <= d <= 6 ->
       Mem.get_le 2 (b_data node') (Layout.btn_data + j' * 8 + d)
       = Mem.get_le 2 (b_data node) (Layout.btn_data + j * 8 + d)) ->
    record sb node' j' = record sb node j).
  { intros j j' Hj Hfields.
    destruct (Hok j Hj) as (Ho1 & Ho2 & Ho3 & Ho4 & Ho5).
    unfold record_at, entry_key_off, entry_key_len, entry_val_off,
      entry_val_len in *.
    rewrite !Hslot, !Hslot' in *.
    pose proof (Hfields 0 ltac:(lia)) as H0. rewrite !Z.add_0_r in H0.
    rewrite H0, !Hfields by lia. rewrite Hkey'.
    f_equal; apply MemFacts.load_ext; intros i Hi; apply Hrest;
      revert Htoc; layout_consts; lia. }
  split.
  - unfold records. rewrite Hrec'.
    replace (Z.to_nat (n_records node - 1))
      with (Z.to_nat (n_records node) - 1)%nat by lia.
    apply fmap_seq_delete.
    + lia.
    + intros j Hj. apply Hold; [lia|]. intros d Hd. apply Hfield_low; lia.
    + intros j Hj. rewrite Nat2Z.inj_succ. unfold Z.succ.
      apply Hold; [lia|]. intros d Hd. apply Hfield_high; lia.
  - constructor; [exact Hvar'|].
    intros j Hj. rewrite Hrec' in Hj.
    unfold entry_key_off, entry_key_len, entry_val_off, entry_val_len.
    rewrite !Hslot', Hkey', Hfree', Hdata'.
    destruct (decide (j < idx)) as [Hlt|Hge].
    + destruct (Hok j ltac:(lia)) as (Ho1 & Ho2 & Ho3 & Ho4 & Ho5).
      unfold entry_key_off, entry_key_len, entry_val_off, entry_val_len in *.
      rewrite !Hslot in *.
      pose proof (Hfield_low j 0 ltac:(lia) ltac:(lia)) as H0.
      rewrite !Z.add_0_r in H0.
      rewrite H0, !Hfield_low by lia. lia.
    + destruct (Hok (j + 1) ltac:(lia)) as (Ho1 & Ho2 & Ho3 & Ho4 & Ho5).
      unfold entry_key_off, entry_key_len, entry_val_off, entry_val_len in *.
      rewrite !Hslot in *.
      pose proof (Hfield_high j 0 ltac:(lia) ltac:(lia)) as H0.
      rewrite !Z.add_0_r in H0.
      rewrite H0, !Hfield_high by lia. lia.
Qed.


Lemma fixed_slot node j :
  has_fixed_kv node = true -> slot node j = Layout.btn_data + j * 4.
Proof. intros H. unfold toc_slot, toc_entry_size. by rewrite H. Qed.

(** X24.  On a well laid out node with entries of fixed size whose keys,
    all of one length, lie in the key area, a successful insert of a key
    of that length is the insertion of the record into the list of the
    records of the node, right after the record that the query found:
    the new entry leads to the key, and its value field holds the length
    of the value, or the sentinel of a ghost record; the entries that
    were there keep their keys and their value fields. *)
Theorem btree_insert_refines_fixed_list sb q key key_len val val_len :
  layout sb (q_node q) ->
  fixed_well_formed key_len (q_node q) ->
  -1 <= q_index q < n_records (q_node q) ->
  0 <= key_len <= 65536 -> 0 <= val_len <= 65536 ->
  Z.of_nat (length key) = key_len ->
  fst (insert sb q key key_len val val_len) = 0 ->
  let node' := q_node (snd (insert sb q key key_len val val_len)) in
  let at_index := Z.to_nat (q_index q + 1) in
  let value_field := match val with
                     | None => Layout.APFS_BTOFF_INVALID
                     | Some _ => val_len
                     end in
  all_fixed_records key_len node'
  = take at_index (all_fixed_records key_len (q_node q))
    ++ (key, value_field)
       :: drop at_index (all_fixed_records key_len (q_node q)) /\
  fixed_well_formed key_len node'.
Proof.
  intros Hlay [Hfix Hok] Hidx Hk Hv Hklen Hret node' at_index value_field.
  pose proof (insert_layout FIXED fletcher sb q key key_len val val_len
                Hlay Hidx Hk Hv Hret) as Hlay'.
  pose proof (insert_effect FIXED fletcher sb q key key_len val val_len
                Hlay Hidx Hk Hv Hret)
    as ((_ & Hrec' & Hkey' & Hfree' & Hdata' & Hfl & _) &
        (Hlow & Hhigh & Hko & Hrest) & (Hkb & _ & Hkeys & _) & _).
  fold node' in Hlay', Hrec', Hkey', Hfree', Hdata', Hfl, Hlow, Hhigh, Hko,
    Hrest, Hkb, Hkeys.
  set (node := q_node q) in *.
  set (g := growth node) in *.
  set (idx := q_index q + 1) in *.
  rewrite Hfix in Hrest. fold value_field in Hrest.
  assert (Hfix' : has_fixed_kv node' = true).
  { unfold apfs_node_has_fixed_kv_size in *. by rewrite Hfl. }
  pose proof (layout_records_bound FIXED sb _ Hlay) as HN.
  destruct Hlay as [Hlen Hbs Hrec Htoc Hkey Hfree Hdata].
  assert (Hslot' : forall j, slot node' j = Layout.btn_data + j * 4)
    by (intros j; by apply fixed_slot).
  assert (Hslot : forall j, slot node j = Layout.btn_data + j * 4)
    by (intros j; by apply fixed_slot).
  rewrite !Hslot in *.
  assert (Hsz : entry_size node = 4) by (unfold toc_entry_size; by rewrite Hfix).
  rewrite Hsz in *.
  assert (Hfield_low : forall j d, 0 <= j < idx -> 0 <= d <= 2 ->
    Mem.get_le 2 (b_data node') (Layout.btn_data + j * 4 + d)
    = Mem.get_le 2 (b_data node) (Layout.btn_data + j * 4 + d)).
  { intros j d Hj Hd. apply MemFacts.get_le_ext. intros i Hi.
    apply Hlow. lia. }
  assert (Hfield_high : forall j d, idx <= j < n_records node -> 0 <= d <= 2 ->
    Mem.get_le 2 (b_data node') (Layout.btn_data + (j + 1) * 4 + d)
    = Mem.get_le 2 (b_data node) (Layout.btn_data + j * 4 + d)).
  { intros j d Hj Hd. apply get_le_shift. intros t Ht.
    replace (Layout.btn_data + (j + 1) * 4 + d + t)
      with (Layout.btn_data + j * 4 + d + t + 4) by lia.
    apply Hhigh. lia. }
  assert (Hold : forall j j', 0 <= j < n_records node ->
    (forall d, 0 <= d <= 2 ->
       Mem.get_le 2 (b_data node') (Layout.btn_data + j' * 4 + d)
       = Mem.get_le 2 (b_data node) (Layout.btn_data + j * 4 + d)) ->
    fixed_record key_len node' j' = fixed_record key_len node j).
  { intros j j' Hj Hfields.
    destruct (Hok j Hj) as (Ho1 & Ho2).
    unfold fixed_record_at, entry_key_off, entry_key_len in *.
    rewrite !Hslot, !Hslot' in *.
    pose proof (Hfields 0 ltac:(lia)) as H0. rewrite !Z.add_0_r in H0.
    rewrite H0, !Hfields by lia.
    f_equal.
    apply load_shift. intros t Ht. rewrite Hkey'.
    replace (n_key node + g + Mem.get_le 2 (b_data node) (Layout.btn_data + j * 4) + t)
      with (n_key node + Mem.get_le 2 (b_data node) (Layout.btn_data + j * 4) + t + g)
      by lia.
    apply Hkeys. lia. }
  assert (Hnew : fixed_record key_len node' idx = (key, value_field)).
  { unfold fixed_record_at, entry_key_off, entry_key_len.
    rewrite !Hslot'. rewrite Hko, Hrest, Hkey'.
    f_equal.
    replace (n_key node + g + (n_free node - n_key node))
      with (n_free node + g) by lia.
    by apply Hkb. }
  split.
  - unfold fixed_records. rewrite Hrec'.
    replace (Z.to_nat (n_records node + 1)) with (S (Z.to_nat (n_records node)))
      by lia.
    apply fmap_seq_insert.
    + subst at_index. lia.
    + intros j Hj. apply Hold; [lia|]. intros d Hd. apply Hfield_low; lia.
    + subst at_index. rewrite Z2Nat.id by lia. exact Hnew.
    + intros j Hj. rewrite Nat2Z.inj_succ. unfold Z.succ.
      apply Hold; [lia|]. intros d Hd. apply Hfield_high; lia.
  - constructor; [exact Hfix'|].
    intros j Hj. rewrite Hrec' in Hj.
    unfold entry_key_off.
    rewrite !Hslot'.
    destruct (decide (j < idx)) as [Hlt|Hge].
    + destruct (Hok j ltac:(lia)) as (Ho1 & Ho2).
      unfold entry_key_off in *.
      rewrite !Hslot in *.
      pose proof (Hfield_low j 0 ltac:(lia) ltac:(lia)) as H0.
      rewrite !Z.add_0_r in H0.
      rewrite H0. lia.
    + destruct (decide (j = idx)) as [->|Hne].
      * rewrite Hko. lia.
      * destruct (Hok (j - 1) ltac:(lia)) as (Ho1 & Ho2).
        unfold entry_key_off in *.
        rewrite !Hslot in *.
        pose proof (Hfield_high (j - 1) 0 ltac:(lia) ltac:(lia)) as H0.
        rewrite !Z.add_0_r in H0.
        replace (j - 1 + 1) with j in H0 by lia.
        rewrite H0. lia.
Qed.

(** X25.  On a well laid out root-and-leaf node with entries of fixed size
    whose keys lie in the key area, a removal is the deletion of the
    record that the query found from the list of the records of the
    node; the other entries keep their keys and their value fields. *)
Theorem btree_remove_refines_fixed_list sb q klen :
  root_and_leaf ROOT LEAF (q_node q) ->
  layout sb (q_node q) ->
  fixed_well_formed klen (q_node q) ->
  0 <= q_index q < n_records (q_node q) ->
  let node' := q_node (snd (remove sb q)) in
  all_fixed_records klen node'
  = delete (Z.to_nat (q_index q)) (all_fixed_records klen (q_node q)) /\
  fixed_well_formed klen node'.
Proof.
  intros Hsingle Hlay [Hfix Hok] Hidx node'.
  pose proof (remove_effect ROOT LEAF FIXED fletcher sb q Hsingle Hlay Hidx)
    as (_ & Hhigh & Hlow & Hrec' & _ & _ & _ & _ & Hkey' & Hfree' & Hdata' &
        Hrest & _).
  fold node' in Hhigh, Hlow, Hrec', Hkey', Hfree', Hdata', Hrest.
  set (node := q_node q) in *.
  set (idx := q_index q) in *.
  assert (Hfl : n_flags node' = n_flags node) by done.
  assert (Hfix' : has_fixed_kv node' = true).
  { unfold apfs_node_has_fixed_kv_size in *. by rewrite Hfl. }
  pose proof (layout_records_bound FIXED sb _ Hlay) as HN.
  destruct Hlay as [Hlen Hbs Hrec Htoc Hkey Hfree Hdata].
  assert (Hslot' : forall j, slot node' j = Layout.btn_data + j * 4)
    by (intros j; by apply fixed_slot).
  assert (Hslot : forall j, slot node j = Layout.btn_data + j * 4)
    by (intros j; by apply fixed_slot).
  rewrite !Hslot in *.
  assert (Hsz : entry_size node = 4) by (unfold toc_entry_size; by rewrite Hfix).
  rewrite Hsz in *.
  assert (Hfield_low : forall j d, 0 <= j < idx -> 0 <= d <= 2 ->
    Mem.get_le 2 (b_data node') (Layout.btn_data + j * 4 + d)
    = Mem.get_le 2 (b_data node) (Layout.btn_data + j * 4 + d)).
  { intros j d Hj Hd. apply MemFacts.get_le_ext. intros i Hi.
    apply Hlow. lia. }
  assert (Hfield_high : forall j d, idx <= j < n_records node - 1 -> 0 <= d <= 2 ->
    Mem.get_le 2 (b_data node') (Layout.btn_data + j * 4 + d)
    = Mem.get_le 2 (b_data node) (Layout.btn_data + (j + 1) * 4 + d)).
  { intros j d Hj Hd. apply get_le_shift. intros t Ht.
    replace (Layout.btn_data + (j + 1) * 4 + d + t)
      with (Layout.btn_data + j * 4 + d + t + 4) by lia.
    apply Hhigh. lia. }
  assert (Hold : forall j j', 0 <= j < n_records node ->
    (forall d, 0 <= d <= 2 ->
       Mem.get_le 2 (b_data node') (Layout.btn_data + j' * 4 + d)
       = Mem.get_le 2 (b_data node) (Layout.btn_data + j * 4 + d)) ->
    0 <= klen ->
    fixed_record klen node' j' = fixed_record klen node j).
  { intros j j' Hj Hfields Hklen.
    destruct (Hok j Hj) as (Ho1 & Ho2).
    unfold fixed_record_at, entry_key_off, entry_key_len in *.
    rewrite !Hslot, !Hslot' in *.
    pose proof (Hfields 0 ltac:(lia)) as H0. rewrite !Z.add_0_r in H0.
    rewrite H0, !Hfields by lia. rewrite Hkey'.
    f_equal; apply MemFacts.load_ext; intros i Hi; apply Hrest;
      revert Htoc; layout_consts; lia. }
  assert (Hklen : 0 <= klen \/ klen < 0) by lia.
  split.
  - unfold fixed_records. rewrite Hrec'.
    replace (Z.to_nat (n_records node - 1))
      with (Z.to_nat (n_records node) - 1)%nat by lia.
    apply fmap_seq_delete.
    + lia.
    + intros j Hj. destruct Hklen as [Hklen|Hklen].
      * apply Hold; [lia| |done]. intros d Hd. apply Hfield_low; lia.
      * unfold fixed_record_at, entry_key_off, entry_key_len, Mem.load.
        rewrite !Hslot, !Hslot'. rewrite Z2Nat.nonpos by lia. cbn.
        f_equal. apply Hfield_low; lia.
    + intros j Hj. rewrite Nat2Z.inj_succ. unfold Z.succ.
      destruct Hklen as [Hklen|Hklen].
      * apply Hold; [lia| |done]. intros d Hd. apply Hfield_high; lia.
      * unfold fixed_record_at, entry_key_off, entry_key_len, Mem.load.
        rewrite !Hslot, !Hslot'. rewrite Z2Nat.nonpos by lia. cbn.
        f_equal. apply Hfield_high; lia.
  - constructor; [exact Hfix'|].
    intros j Hj. rewrite Hrec' in Hj.
    unfold entry_key_off.
    rewrite !Hslot', Hkey', Hfree'.
    destruct (decide (j < idx)) as [Hlt|Hge].
    + destruct (Hok j ltac:(lia)) as (Ho1 & Ho2).
      unfold entry_key_off in *.
      rewrite !Hslot in *.
      pose proof (Hfield_low j 0 ltac:(lia) ltac:(lia)) as H0.
      rewrite !Z.add_0_r in H0.
      rewrite H0. lia.
    + destruct (Hok (j + 1) ltac:(lia)) as (Ho1 & Ho2).
      unfold entry_key_off in *.
      rewrite !Hslot in *.
      pose proof (Hfield_high j 0 ltac:(lia) ltac:(lia)) as H0.
      rewrite !Z.add_0_r in H0.
      rewrite H0. lia.
Qed.

End RecordFacts.
(** ** The further properties on the example trees *)

Lemma btree_insert_keeps_node_sound_witness :
  let node' := q_node (snd (Example.insert Example.one_record
                              (Mem.le_split 8 2) 8
                              (Some (Mem.le_split 8 102)) 8)) in
  node_layout Example.FIXED Example.sb node' /\
  n_flags node' = n_flags (q_node Example.one_record) /\
  csum_in_step Example.cksum Example.sb (b_data node') /\
  b_dirty node' = true.
Proof.
  apply (btree_insert_keeps_node_sound Example.FIXED Example.cksum Example.sb
           Example.one_record (Mem.le_split 8 2) 8
           (Some (Mem.le_split 8 102)) 8).
  - exact ExampleFacts.layout_one_record.
  - vm_compute. split; congruence.
  - lia.
  - lia.
  - vm_compute. reflexivity.
Defined.

Lemma btree_insert_keeps_records_witness :
  let node' := q_node (snd (Example.insert Example.one_record
                              (Mem.le_split 8 2) 8
                              (Some (Mem.le_split 8 102)) 8)) in
  Mem.byte_at (b_data node') (n_key node' + 0)
  = Mem.byte_at (b_data (q_node Example.one_record))
      (n_key (q_node Example.one_record) + 0).
Proof.
  destruct (btree_insert_keeps_records Example.FIXED Example.cksum Example.sb
              Example.one_record (Mem.le_split 8 2) 8
              (Some (Mem.le_split 8 102)) 8)
    as (_ & Hkeys & _).
  - exact ExampleFacts.layout_one_record.
  - vm_compute. split; congruence.
  - lia.
  - lia.
  - vm_compute. reflexivity.
  - apply Hkeys. vm_compute. split; congruence.
Defined.

Lemma btree_insert_round_trip_witness :
  let q := Example.query_at
             MoreExamples.variable_empty (-1) in
  let q' := snd (Example.insert q (Mem.le_split 8 2) 8
                   (Some (Mem.le_split 8 102)) 8) in
  let node' := q_node q' in
  let entry := toc_slot Example.FIXED node' (q_index q') in
  Mem.load (b_data node')
    (n_key node' + Mem.get_le 2 (b_data node') entry) 8
  = Mem.le_split 8 2 /\
  Mem.load (b_data node')
    (s_blocksize Example.sb - Layout.sizeof_info
     - Mem.get_le 2 (b_data node') (entry + 4)) 8
  = Mem.le_split 8 102.
Proof.
  destruct (btree_insert_round_trip Example.FIXED Example.cksum Example.sb
              (Example.query_at MoreExamples.variable_empty (-1))
              (Mem.le_split 8 2) 8 (Some (Mem.le_split 8 102)) 8)
    as (Hkey & Hvar).
  - constructor; vm_compute; congruence.
  - vm_compute. split; congruence.
  - lia.
  - lia.
  - reflexivity.
  - intros v [= <-]. reflexivity.
  - vm_compute. reflexivity.
  - destruct Hvar as (_ & _ & Hval); [reflexivity|].
    split; [exact Hkey | exact (Hval _ eq_refl)].
Defined.

Lemma btree_insert_keeps_header_in_step_witness :
  header_in_step
    (q_node (snd (Example.insert (Example.query_at (Example.empty_node 32) (-1))
                    (Mem.le_split 8 1) 8 (Some (Mem.le_split 8 101)) 8))).
Proof.
  apply (btree_insert_keeps_header_in_step Example.FIXED Example.cksum Example.sb
           (Example.query_at (Example.empty_node 32) (-1))
           (Mem.le_split 8 1) 8 (Some (Mem.le_split 8 101)) 8).
  - constructor; vm_compute; congruence.
  - constructor; vm_compute; reflexivity.
  - vm_compute. split; congruence.
  - lia.
  - lia.
  - vm_compute. reflexivity.
Defined.

Lemma btree_remove_keeps_node_sound_witness :
  let node' := q_node (snd (Example.remove Example.one_record)) in
  node_layout Example.FIXED Example.sb node' /\
  csum_in_step Example.cksum Example.sb (b_data node') /\
  b_dirty node' = true.
Proof.
  destruct (btree_remove_keeps_node_sound Example.FIXED Example.cksum Example.sb
              Example.one_record)
    as (Hlay & _ & _ & Hsum & Hdirty).
  - exact ExampleFacts.layout_one_record.
  - vm_compute. split; congruence.
  - cbv zeta. split; [exact Hlay | split; [exact Hsum | exact Hdirty]].
Defined.

Lemma btree_insert_keeps_identity_witness :
  Mem.get_le 8
    (b_data (q_node (snd (Example.insert Example.one_record
                            (Mem.le_split 8 2) 8
                            (Some (Mem.le_split 8 102)) 8))))
    Layout.o_oid
  = Mem.get_le 8 (b_data (q_node Example.one_record)) Layout.o_oid.
Proof.
  apply MemFacts.get_le_ext. intros i Hi.
  apply (btree_insert_keeps_identity Example.FIXED Example.cksum Example.sb
           Example.one_record (Mem.le_split 8 2) 8
           (Some (Mem.le_split 8 102)) 8).
  - exact ExampleFacts.layout_one_record.
  - vm_compute. split; congruence.
  - lia.
  - lia.
  - vm_compute. reflexivity.
  - left. revert Hi. layout_consts. lia.
Defined.

Lemma btree_insert_leaves_toc_room_witness :
  toc_needs_expansion Example.FIXED
    (q_node (snd (Example.insert Example.eight_records (Mem.le_split 8 9) 8
                    (Some (Mem.le_split 8 109)) 8)))
  = false.
Proof.
  apply (btree_insert_leaves_toc_room Example.FIXED Example.cksum Example.sb
           Example.eight_records (Mem.le_split 8 9) 8
           (Some (Mem.le_split 8 109)) 8).
  - exact ExampleFacts.layout_eight_records.
  - vm_compute. split; congruence.
  - lia.
  - lia.
  - vm_compute. reflexivity.
  - vm_compute. reflexivity.
Defined.

Lemma btree_remove_keeps_identity_witness :
  Mem.get_le 8 (b_data (q_node (snd (Example.remove Example.one_record))))
    Layout.o_oid
  = Mem.get_le 8 (b_data (q_node Example.one_record)) Layout.o_oid.
Proof.
  apply MemFacts.get_le_ext. intros i Hi.
  apply (btree_remove_keeps_identity Example.FIXED Example.cksum Example.sb
           Example.one_record).
  - exact ExampleFacts.layout_one_record.
  - vm_compute. split; congruence.
  - left. revert Hi. layout_consts. lia.
Defined.

Lemma btree_query_refuses_witness :
  apfs_btree_query Example.LEAF Example.node_query Example.read_node
    Example.kmalloc Example.read_object_block Example.sizeof_omap_val Example.ov_paddr
    1 Example.index_sb
    (mkQuery Example.index_root None None no_flags 13 0 0 0 0 12) []
  = Some (- EFSCORRUPTED,
          mkQuery Example.index_root None None no_flags 13 0 0 0 0 12,
          [alert_btree_corrupted]).
Proof.
  apply (proj1 (btree_query_refuses Example.LEAF Example.node_query
                  Example.read_node Example.kmalloc Example.read_object_block
                  Example.sizeof_omap_val Example.ov_paddr 0 Example.index_sb
                  (mkQuery Example.index_root None None no_flags 13 0 0 0 0 12)
                  [])).
  vm_compute. congruence.
Defined.

Lemma btree_query_keeps_chain_witness :
  exists ret q' log',
    apfs_btree_query Example.LEAF Example.node_query Example.read_node
      Example.kmalloc Example.read_object_block Example.sizeof_omap_val Example.ov_paddr
      3 Example.index_sb (Example.index_query false) []
    = Some (ret, q', log') /\
    q_key q' = Some (apfs_init_omap_key 1 1) /\
    q_parent q' = None.
Proof.
  assert (E : exists r,
    apfs_btree_query Example.LEAF Example.node_query Example.read_node
      Example.kmalloc Example.read_object_block Example.sizeof_omap_val Example.ov_paddr
      3 Example.index_sb (Example.index_query false) [] = Some r)
    by (vm_compute; eexists; reflexivity).
  destruct E as [[[ret q'] log'] E].
  exists ret, q', log'. split; [exact E|].
  destruct (btree_query_keeps_chain Example.LEAF Example.node_query
              Example.read_node Example.kmalloc Example.read_object_block
              Example.sizeof_omap_val Example.ov_paddr
              3 Example.index_sb (Example.index_query false) [] ret q' log')
    as (Hkey & _ & _ & _ & Hsingle & _).
  - reflexivity.
  - vm_compute. congruence.
  - exact E.
  - split; [exact Hkey | apply Hsingle; reflexivity].
Defined.

Lemma example_read_node_error sb blk e :
  Example.read_node sb blk = inl e -> e <> 0.
Proof.
  unfold Example.read_node. case_bool_decide; [done|].
  intros [= <-]. unfold EIO. lia.
Qed.

Lemma btree_query_success_witness :
  exists q' log',
    apfs_btree_query Example.LEAF Example.node_query Example.read_node
      Example.kmalloc Example.read_object_block Example.sizeof_omap_val Example.ov_paddr
      1 Example.omap_sb (omap_query Example.omap_sb (Example.query_at Example.omap_root 2) 7) []
    = Some (0, q', log') /\
    apfs_node_is_leaf Example.LEAF (q_node q') = true /\
    q_depth q' < 12.
Proof.
  assert (E : exists q' log',
    apfs_btree_query Example.LEAF Example.node_query Example.read_node
      Example.kmalloc Example.read_object_block Example.sizeof_omap_val Example.ov_paddr
      1 Example.omap_sb (omap_query Example.omap_sb (Example.query_at Example.omap_root 2) 7) []
    = Some (0, q', log'))
    by (vm_compute; eexists _, _; reflexivity).
  destruct E as (q' & log' & E).
  exists q', log'. split; [exact E|].
  destruct (btree_query_success Example.LEAF Example.node_query
              Example.read_node Example.kmalloc Example.read_object_block
              Example.sizeof_omap_val Example.ov_paddr
              example_read_node_error
              1 Example.omap_sb (omap_query Example.omap_sb (Example.query_at Example.omap_root 2) 7)
              [] q' log' E)
    as (Hleaf & Hdepth & _).
  split; [exact Hleaf | exact Hdepth].
Defined.

Lemma btree_query_omap_mode_witness :
  apfs_btree_query Example.LEAF Example.node_query Example.read_node
    Example.kmalloc Example.read_object_block Example.sizeof_omap_val Example.ov_paddr
    3 Example.index_sb (Example.index_query false) []
  = btree_query_loop Example.LEAF Example.node_query Example.read_node
      Example.kmalloc Example.no_lookup 3 Example.index_sb (Example.index_query false) [].
Proof.
  apply (btree_query_omap_mode Example.LEAF Example.node_query
           Example.read_node Example.kmalloc Example.read_object_block
           Example.sizeof_omap_val Example.ov_paddr
           3 Example.index_sb (Example.index_query false) [] Example.no_lookup).
  - reflexivity.
  - reflexivity.
Defined.

Lemma omap_lookup_changes_on_write_only_witness :
  exists res tbl' log,
    Example.omap_lookup 2 Example.omap_sb Example.omap_root 7 false
    = Some (res, tbl', log) /\
    tbl' = Example.omap_root.
Proof.
  assert (E : exists r,
    Example.omap_lookup 2 Example.omap_sb Example.omap_root 7 false = Some r)
    by (vm_compute; eexists; reflexivity).
  destruct E as [[[res tbl'] log] E].
  exists res, tbl', log. split; [exact E|].
  apply (omap_lookup_changes_on_write_only Example.LEAF Example.node_query
           Example.read_node Example.kmalloc Example.read_object_block Example.sizeof_omap_val
           Example.ov_paddr 2 Example.omap_sb Example.omap_root 7 false
           res tbl' log).
  - reflexivity.
  - exact E.
  - left. reflexivity.
Defined.

Lemma omap_lookup_write_frame_witness :
  exists blk tbl' log,
    Example.omap_lookup 2 Example.omap_sb Example.omap_root 7 true
    = Some (inr blk, tbl', log) /\
    length (b_data tbl') = length (b_data Example.omap_root) /\
    Mem.get_le 8 (b_data tbl') Layout.o_cksum
    = Mem.get_le 8 (b_data Example.omap_root) Layout.o_cksum.
Proof.
  assert (E : exists blk tbl' log,
    Example.omap_lookup 2 Example.omap_sb Example.omap_root 7 true
    = Some (inr blk, tbl', log))
    by (vm_compute; eexists _, _, _; reflexivity).
  destruct E as (blk & tbl' & log & E).
  exists blk, tbl', log. split; [exact E|].
  destruct (omap_lookup_write_frame Example.LEAF Example.node_query
              Example.read_node Example.kmalloc Example.read_object_block
              Example.sizeof_omap_val Example.ov_paddr 2 Example.omap_sb
              Example.omap_root 7 blk tbl' log)
    as (mem & Hmem & Hlen & Hframe & _).
  - reflexivity.
  - exact E.
  - split; [exact Hlen|].
    apply MemFacts.get_le_ext. intros i Hi.
    injection Hmem as <-.
    set (ko := r_key_off _) in Hframe.
    set (vo := r_off _) in Hframe.
    assert (Hk : ko = 104) by (vm_compute; reflexivity).
    assert (Ho : vo = 4024) by (vm_compute; reflexivity).
    rewrite Hk, Ho in Hframe.
    apply Hframe; left; revert Hi; layout_consts; unfold Example.ov_paddr; lia.
Defined.

Lemma omap_lookup_reports_errors_witness :
  exists e node l,
    Example.omap_lookup 2 Example.omap_sb Example.omap_root 5 false
    = Some (inl e, node, l) /\
    e <> 0.
Proof.
  assert (E : exists e node l,
    Example.omap_lookup 2 Example.omap_sb Example.omap_root 5 false
    = Some (inl e, node, l))
    by (vm_compute; eexists _, _, _; reflexivity).
  destruct E as (e & node & l & E).
  exists e, node, l. split; [exact E|].
  apply (omap_lookup_reports_errors Example.LEAF Example.node_query
           Example.read_node Example.kmalloc Example.read_object_block Example.sizeof_omap_val
           Example.ov_paddr example_read_node_error 2 Example.omap_sb
           Example.omap_root 5 false (inl e) node l).
  - intros blk e'. discriminate.
  - exact E.
Defined.

Lemma omap_read_node_single_witness :
  apfs_omap_read_node Example.LEAF Example.node_query Example.read_node
    Example.kmalloc Example.read_object_block Example.sizeof_omap_val Example.ov_paddr
    2 Example.omap_sb 7
  = Some (inl (- EIO), []).
Proof.
  rewrite (omap_read_node_single Example.LEAF Example.node_query
             Example.read_node Example.kmalloc Example.read_object_block
             Example.sizeof_omap_val Example.ov_paddr 0 Example.omap_sb 7).
  - vm_compute. reflexivity.
  - reflexivity.
Defined.

Lemma omap_read_node_returns_witness :
  exists n res, forall F, (n <= F)%nat ->
    apfs_omap_read_node Example.LEAF Example.node_query Example.read_node
      Example.kmalloc Example.read_object_block Example.sizeof_omap_val Example.ov_paddr
      F Example.omap_sb 7
    = Some res.
Proof.
  exact (proj2 (omap_read_node_returns Example.LEAF Example.node_query
                  Example.read_node Example.kmalloc Example.read_object_block
                  Example.sizeof_omap_val Example.ov_paddr Example.omap_sb 7
                  (spec_query_progress Example.ROOT Example.LEAF Example.FIXED
                     Example.sizeof_omap_val))).
Defined.

Lemma max_maps_per_block_fits_witness :
  let n := apfs_max_maps_per_block 32 64 Example.sb in
  0 <= n /\
  sizeof_checkpoint_map_phys 32 + n * sizeof_checkpoint_mapping
    <= s_blocksize Example.sb /\
  s_blocksize Example.sb
    < sizeof_checkpoint_map_phys 32 + (n + 1) * sizeof_checkpoint_mapping.
Proof.
  apply (max_maps_per_block_fits 32 64 Example.sb).
  - right. reflexivity.
  - lia.
  - vm_compute. split; congruence.
Defined.

Lemma is_case_insensitive_bit_witness :
  apfs_is_case_insensitive 32 true (replicate 56 0 ++ [9; 0; 0; 0; 0; 0; 0; 0])
  = true.
Proof.
  rewrite (is_case_insensitive_bit 32 true
             (replicate 56 0 ++ [9; 0; 0; 0; 0; 0; 0; 0])).
  - vm_compute. reflexivity.
  - apply Forall_app. split.
    + apply Forall_replicate. lia.
    + repeat (constructor; [lia|]). constructor.
Defined.

Lemma key_header_fields_witness :
  let h := Z.lor 5 (Z.shiftl 3 Key.APFS_OBJ_TYPE_SHIFT) in
  Z.land h Key.APFS_OBJ_ID_MASK = 5 /\
  Z.shiftr (Z.land h Key.APFS_OBJ_TYPE_MASK) Key.APFS_OBJ_TYPE_SHIFT = 3.
Proof.
  destruct (key_header_fields 5 3 4 77) as ((_ & Hid & Htype) & _).
  - unfold Key.APFS_OBJ_ID_MASK. lia.
  - unfold Key.APFS_TYPE_MAX. lia.
  - unfold Key.APFS_DREC_LEN_MASK. lia.
  - lia.
  - split; [exact Hid | exact Htype].
Defined.

Lemma chunk_info_count_split_witness :
  0 <= Z.land 0x00300005 Spaceman.APFS_CI_COUNT_MASK < 2 ^ 20.
Proof.
  destruct (chunk_info_count_split 0x00300005) as (Hcount & _).
  - lia.
  - exact Hcount.
Defined.

Lemma btree_insert_refines_list_witness :
  records Example.FIXED Example.sb
    (q_node (snd (Example.insert
                    (Example.query_at MoreExamples.variable_empty (-1))
                    (Mem.le_split 8 2) 8 (Some (Mem.le_split 8 102)) 8)))
  = [(Mem.le_split 8 2, Mem.le_split 8 102)].
Proof.
  destruct (btree_insert_refines_list Example.FIXED Example.cksum Example.sb
              (Example.query_at MoreExamples.variable_empty (-1))
              (Mem.le_split 8 2) 8 (Some (Mem.le_split 8 102)) 8)
    as [Hlist _].
  - constructor; vm_compute; congruence.
  - constructor; [reflexivity|]. intros j Hj. change (0 <= j < 0) in Hj. lia.
  - vm_compute. split; congruence.
  - lia.
  - lia.
  - reflexivity.
  - reflexivity.
  - vm_compute. reflexivity.
  - etrans; [exact Hlist|]. vm_compute. reflexivity.
Defined.

Lemma btree_remove_refines_list_witness :
  records Example.FIXED Example.sb
    (q_node (snd (Example.remove MoreExamples.variable_one)))
  = [].
Proof.
  destruct (btree_remove_refines_list Example.ROOT Example.LEAF Example.FIXED
              Example.cksum Example.sb MoreExamples.variable_one)
    as [Hlist _].
  - split; reflexivity.
  - constructor; vm_compute; congruence.
  - constructor; [reflexivity|]. intros j Hj.
    assert (j = 0) as -> by (change (0 <= j < 1) in Hj; lia).
    vm_compute. repeat split; congruence.
  - vm_compute. split; congruence.
  - etrans; [exact Hlist|]. vm_compute. reflexivity.
Defined.

Lemma fixed_records_one_record :
  fixed_records_ok Example.FIXED 8 (q_node Example.one_record).
Proof.
  constructor; [reflexivity|]. intros j Hj.
  assert (j = 0) as -> by (change (0 <= j < 1) in Hj; lia).
  vm_compute. split; congruence.
Qed.

Lemma btree_insert_refines_fixed_list_witness :
  fixed_records Example.FIXED 8
    (q_node (snd (Example.insert Example.one_record (Mem.le_split 8 2) 8
                    (Some (Mem.le_split 8 102)) 8)))
  = [(Mem.le_split 8 1, 8); (Mem.le_split 8 2, 8)].
Proof.
  destruct (btree_insert_refines_fixed_list Example.FIXED Example.cksum
              Example.sb Example.one_record (Mem.le_split 8 2) 8
              (Some (Mem.le_split 8 102)) 8)
    as [Hlist _].
  - exact ExampleFacts.layout_one_record.
  - exact fixed_records_one_record.
  - vm_compute. split; congruence.
  - lia.
  - lia.
  - reflexivity.
  - vm_compute. reflexivity.
  - etrans; [exact Hlist|]. vm_compute. reflexivity.
Defined.

Lemma btree_remove_refines_fixed_list_witness :
  fixed_records Example.FIXED 8
    (q_node (snd (Example.remove Example.one_record)))
  = [].
Proof.
  destruct (btree_remove_refines_fixed_list Example.ROOT Example.LEAF
              Example.FIXED Example.cksum Example.sb Example.one_record 8)
    as [Hlist _].
  - by apply ExampleFacts.single_node_example.
  - exact ExampleFacts.layout_one_record.
  - exact fixed_records_one_record.
  - vm_compute. split; congruence.
  - etrans; [exact Hlist|]. vm_compute. reflexivity.
Defined.
